(** * Palm recognition: template building, matching and the per-identity store

    A shallow embedding of [palm_recognition_system.py] (class
    [PalmRecognitionSystem]) and of [palm_api.py] (the command layer with its
    one-file-per-phone-number store), and the properties of the specification
    proved about it.

    Conventions of the embedding.
    - A Python [float] is an IEEE-754 binary64 number: Rocq's primitive
      [float].  The NumPy [float32] scalars that the detector hands over are
      carried at their binary64 value; [+], [-], [*], [/], [sqrt], [<] and
      [<=] are the IEEE operations, so [0/0] is [nan] and no comparison with
      [nan] holds, as for NumPy scalars.
    - A Python [dict] is an association list in insertion order with the
      first binding of a key the live one; [d[k] = v] replaces in place or
      appends.  A [str] is a [string] of bytes (its UTF-8 encoding), compared
      bytewise as Python compares code points.
    - A raised exception is a value [Raise e] of type [result].
    - A file of the store is known by what [json.load] makes of it:
      [Corrupt] when it raises [json.JSONDecodeError], [Failing e] when
      reading it raises another exception [e] (bytes that are no text in the
      expected encoding, nesting that is too deep), [Parsed v] when it returns
      [v].  A file that exists can be removed and written over; whether a
      file can be created for a phone number that has none (it cannot when
      the number holds a [/] that names no directory) is told by the world's
      [creatable].  Directory enumeration follows the order in which the
      files were created.
    - How Python renders, inside the f-string that names a record file, a
      stored phone number that is not a string is the world's [str_of]; a
      string stands for itself.
    - The iteration order of a Python [set] is not specified by the language:
      it is the parameter [set_order] of the section below. *)

From Stdlib Require Import ZArith List String Ascii Bool Lia Floats Permutation.
From Stdlib Require Import DecimalString DecimalN Sorted.
Import ListNotations.

Local Open Scope list_scope.
Local Open Scope string_scope.

(** ** Exceptions *)

Inductive exn : Type :=
| KeyError
| IndexError
| TypeError
| AttributeError
| ValueError
| UnicodeDecodeError
| RecursionError.

Inductive result (A : Type) : Type :=
| Ok (a : A)
| Raise (e : exn).

Arguments Ok {A} a.
Arguments Raise {A} e.

Definition rbind {A B : Type} (r : result A) (k : A -> result B) : result B :=
  match r with
  | Ok a => k a
  | Raise e => Raise e
  end.

Declare Scope result_scope.
Delimit Scope result_scope with result.
Notation "'let*' x ':=' r 'in' k" := (rbind r (fun x => k))
  (at level 10, x pattern, r at level 100, k at level 200) : result_scope.

(** ** Python dictionaries *)

Module Dict.

Definition t (V : Type) : Type := list (string * V).

(** [d[k]]; a missing key is a [KeyError]. *)
Fixpoint get {V : Type} (d : t V) (k : string) : result V :=
  match d with
  | [] => Raise KeyError
  | (k', v) :: rest => if String.eqb k' k then Ok v else get rest k
  end.

(** [k in d]. *)
Fixpoint mem {V : Type} (k : string) (d : t V) : bool :=
  match d with
  | [] => false
  | (k', _) :: rest => String.eqb k' k || mem k rest
  end.

(** [d[k] = v]: an existing key keeps its position. *)
Fixpoint set {V : Type} (d : t V) (k : string) (v : V) : t V :=
  match d with
  | [] => [(k, v)]
  | (k', v') :: rest =>
      if String.eqb k' k then (k', v) :: rest else (k', v') :: set rest k v
  end.

Definition keys {V : Type} (d : t V) : list string := map fst d.

Definition items {V : Type} (d : t V) : list (string * V) := d.

(** The invariant of a dictionary: no key is bound twice. *)
Definition wf {V : Type} (d : t V) : Prop := NoDup (keys d).

End Dict.

(** ** Floating-point helpers *)

Definition f_zero : float := 0%float.
Definition f_one : float := 1%float.
Definition f_half : float := 0.5%float.

(** Python's [min(iterable)]: the first of the smallest, found with [<];
    an empty iterable is a [ValueError]. *)
Definition py_min (l : list float) : result float :=
  match l with
  | [] => Raise ValueError
  | x :: rest =>
      Ok (fold_left (fun m y => if PrimFloat.ltb y m then y else m) rest x)
  end.

(** [min(a, b)] and [max(a, b)] on strings: the first argument wins unless
    the second is strictly smaller (resp. greater). *)
Definition str_min (a b : string) : string := if String.ltb b a then b else a.
Definition str_max (a b : string) : string := if String.ltb a b then b else a.

(** ** TemplateBuilder: [PalmRecognitionSystem], lines 36-264 *)

(** [self.knuckle_indices], in its insertion order. *)
Definition knuckle_indices : Dict.t nat :=
  [ ("wrist", 0%nat);
    ("index_knuckle", 5%nat);
    ("middle_knuckle", 9%nat);
    ("ring_knuckle", 13%nat);
    ("pinky_knuckle", 17%nat) ].

Definition point : Type := (float * float)%type.

(** [array[idx]]. *)
Definition index {A : Type} (a : list A) (idx : nat) : result A :=
  match nth_error a idx with
  | Some x => Ok x
  | None => Raise IndexError
  end.

(** [np.sqrt(np.sum((coord1 - coord2) ** 2))]. *)
Definition euclid (c1 c2 : point) : float :=
  let dx := PrimFloat.sub (fst c1) (fst c2) in
  let dy := PrimFloat.sub (snd c1) (snd c2) in
  PrimFloat.sqrt (PrimFloat.add (PrimFloat.mul dx dx) (PrimFloat.mul dy dy)).

(** [f"{min(name1, name2)}_{max(name1, name2)}"]. *)
Definition pair_key (name1 name2 : string) : string :=
  str_min name1 name2 ++ "_" ++ str_max name1 name2.

(** The first loop of [calculate_knuckle_distances]:
    [knuckle_coords[name] = keypoints[idx]]. *)
Fixpoint knuckle_coords_loop (keypoints : list point) (its : list (string * nat))
    (acc : Dict.t point) : result (Dict.t point) :=
  match its with
  | [] => Ok acc
  | (name, idx) :: rest =>
      (let* c := index keypoints idx in
       knuckle_coords_loop keypoints rest (Dict.set acc name c))%result
  end.

(** The inner loop, over [knuckle_names[i+1:]]. *)
Fixpoint inner_loop (coords : Dict.t point) (name1 : string)
    (names2 : list string) (distances : Dict.t float) : result (Dict.t float) :=
  match names2 with
  | [] => Ok distances
  | name2 :: rest =>
      (let* coord1 := Dict.get coords name1 in
       let* coord2 := Dict.get coords name2 in
       inner_loop coords name1 rest
         (Dict.set distances (pair_key name1 name2) (euclid coord1 coord2)))%result
  end.

(** The outer loop, over [enumerate(knuckle_names)]. *)
Fixpoint outer_loop (coords : Dict.t point) (names : list string)
    (distances : Dict.t float) : result (Dict.t float) :=
  match names with
  | [] => Ok distances
  | name1 :: rest =>
      (let* distances' := inner_loop coords name1 rest distances in
       outer_loop coords rest distances')%result
  end.

Definition calculate_knuckle_distances (keypoints : list point)
    : result (Dict.t float) :=
  (let* knuckle_coords :=
     knuckle_coords_loop keypoints (Dict.items knuckle_indices) [] in
   outer_loop knuckle_coords (Dict.keys knuckle_coords) [])%result.

Definition reference_key : string := "middle_knuckle_wrist".

(** [normalize_distances]: the reference is the value at
    ["middle_knuckle_wrist"], or at the first key when that one is absent. *)
Definition normalize_distances (distances : Dict.t float)
    : result (Dict.t float) :=
  (let* key :=
     (if Dict.mem reference_key distances then Ok reference_key
      else index (Dict.keys distances) 0) in
   let* reference_distance := Dict.get distances key in
   Ok (fold_left
         (fun normalized kv =>
            Dict.set normalized (fst kv) (PrimFloat.div (snd kv) reference_distance))
         (Dict.items distances) []))%result.

(** ** SHA-256 ([hashlib.sha256], FIPS 180-4) on 32-bit words held in [Z] *)

Module Sha256.

Local Open Scope Z_scope.

Definition w32 (x : Z) : Z := x mod 4294967296.

Definition add32 (x y : Z) : Z := w32 (x + y).

Definition rotr (n x : Z) : Z :=
  Z.lor (Z.shiftr x n) (w32 (Z.shiftl x (32 - n))).

Definition ch (x y z : Z) : Z :=
  Z.lxor (Z.land x y) (Z.land (Z.lxor x 4294967295) z).

Definition maj (x y z : Z) : Z :=
  Z.lxor (Z.lxor (Z.land x y) (Z.land x z)) (Z.land y z).

Definition bsig0 (x : Z) : Z := Z.lxor (Z.lxor (rotr 2 x) (rotr 13 x)) (rotr 22 x).
Definition bsig1 (x : Z) : Z := Z.lxor (Z.lxor (rotr 6 x) (rotr 11 x)) (rotr 25 x).
Definition ssig0 (x : Z) : Z := Z.lxor (Z.lxor (rotr 7 x) (rotr 18 x)) (Z.shiftr x 3).
Definition ssig1 (x : Z) : Z := Z.lxor (Z.lxor (rotr 17 x) (rotr 19 x)) (Z.shiftr x 10).

(** The round constants and the initial hash value are the first 32 bits of
    the fractional parts of the cube roots of the first 64 primes and of the
    square roots of the first 8 primes (FIPS 180-4, sections 4.2.2, 5.3.3). *)
Definition is_prime (n : Z) : bool :=
  forallb (fun d => negb (n mod d =? 0)) (map Z.of_nat (seq 2 (Z.to_nat n - 2))).

Definition primes : list Z :=
  filter is_prime (map Z.of_nat (seq 2 310)).

(** The integer cube root, one bit at a time from the top. *)
Definition cube_root (n : Z) : Z :=
  fold_left
    (fun r i =>
       let c := r + Z.shiftl 1 (Z.of_nat i) in
       if c * c * c <=? n then c else r)
    (rev (seq 0 48)) 0.

Definition K : list Z :=
  Eval vm_compute in
    map (fun p => w32 (cube_root (p * Z.shiftl 1 96))) (firstn 64 primes).

Definition H0 : list Z :=
  Eval vm_compute in
    map (fun p => w32 (Z.sqrt (p * Z.shiftl 1 64))) (firstn 8 primes).

(** The message followed by the bit 1, zeros up to 56 mod 64 bytes, and the
    bit length on 8 bytes, most significant first. *)
Definition be_bytes (count : nat) (x : Z) : list Z :=
  map (fun i => Z.land (Z.shiftr x (8 * Z.of_nat i)) 255) (rev (seq 0 count)).

Definition pad (msg : list Z) : list Z :=
  let len := Z.of_nat (List.length msg) in
  let zeros := Z.to_nat ((55 - len) mod 64) in
  (msg ++ [128] ++ repeat 0 zeros ++ be_bytes 8 (8 * len))%list.

Fixpoint words (fuel : nat) (bytes : list Z) : list Z :=
  match fuel, bytes with
  | S fuel', b0 :: b1 :: b2 :: b3 :: rest =>
      (b0 * 16777216 + b1 * 65536 + b2 * 256 + b3) :: words fuel' rest
  | _, _ => []
  end.

Fixpoint blocks (fuel : nat) (ws : list Z) : list (list Z) :=
  match fuel, ws with
  | S fuel', _ :: _ => firstn 16 ws :: blocks fuel' (skipn 16 ws)
  | _, _ => []
  end.

Definition nthz (l : list Z) (i : nat) : Z := nth i l 0.

(** One round: the working variables [a..h] and the sliding window of the
    last sixteen schedule words. *)
Definition round (st : list Z * list Z) (k : Z) : list Z * list Z :=
  let '(v, w) := st in
  let a := nthz v 0 in let b := nthz v 1 in let c := nthz v 2 in
  let d := nthz v 3 in let e := nthz v 4 in let f := nthz v 5 in
  let g := nthz v 6 in let h := nthz v 7 in
  let wt := nthz w 0 in
  let t1 := add32 (add32 (add32 (add32 h (bsig1 e)) (ch e f g)) k) wt in
  let t2 := add32 (bsig0 a) (maj a b c) in
  let next :=
    add32 (add32 (add32 (ssig1 (nthz w 14)) (nthz w 9)) (ssig0 (nthz w 1)))
      (nthz w 0) in
  ([add32 t1 t2; a; b; c; add32 d t1; e; f; g], (tl w ++ [next])%list).

Definition compress (h : list Z) (block : list Z) : list Z :=
  let '(v, _) := fold_left round K (h, block) in
  map (fun p => add32 (fst p) (snd p)) (combine h v).

Definition digest (msg : list Z) : list Z :=
  let p := pad msg in
  fold_left compress (blocks (List.length p) (words (List.length p) p)) H0.

Definition hex_digit (x : Z) : ascii :=
  nth (Z.to_nat x) (list_ascii_of_string "0123456789abcdef") "0"%char.

Definition hex_word (x : Z) : list ascii :=
  map (fun i => hex_digit (Z.land (Z.shiftr x (4 * Z.of_nat i)) 15))
    (rev (seq 0 8)).

Definition bytes_of_string (s : string) : list Z :=
  map (fun c => Z.of_N (N_of_ascii c)) (list_ascii_of_string s).

(** [hashlib.sha256(s.encode()).hexdigest()]. *)
Definition hexdigest (s : string) : string :=
  string_of_list_ascii (flat_map hex_word (digest (bytes_of_string s))).

End Sha256.

(** ** The format [f"{value:.6f}"] of a binary64 number *)

Definition string_of_N (n : N) : string :=
  NilZero.string_of_uint (N.to_uint n).

(** [value * 10^6] rounded to the nearest integer, ties to even, computed
    exactly on the mantissa and exponent. *)
Definition scaled_6 (m : positive) (e : Z) : Z :=
  let num := (Zpos m * 1000000)%Z in
  match e with
  | Zneg p =>
      let den := Z.pow_pos 2 p in
      let q := (num / den)%Z in
      let r := (num mod den)%Z in
      if (den <? 2 * r)%Z then (q + 1)%Z
      else if (den =? 2 * r)%Z && Z.odd q then (q + 1)%Z
      else q
  | _ => (num * 2 ^ e)%Z
  end.

(** The six digits of [n mod 10^6], most significant first. *)
Definition fraction_6 (n : Z) : string :=
  string_of_list_ascii
    (map (fun i => ascii_of_N (48 + Z.to_N ((n / 10 ^ Z.of_nat i) mod 10)))
       [5; 4; 3; 2; 1; 0]%nat).

Definition fixed_6 (n : Z) : string :=
  string_of_N (Z.to_N (n / 1000000)) ++ "." ++ fraction_6 n.

Definition format_6f (value : float) : string :=
  match Prim2SF value with
  | S754_nan => "nan"
  | S754_infinity s => if s then "-inf" else "inf"
  | S754_zero s => (if s then "-" else "") ++ "0.000000"
  | S754_finite s m e => (if s then "-" else "") ++ fixed_6 (scaled_6 m e)
  end.

(** ** [sorted] and the order of Python tuples *)

Section Sorted.

Variable A : Type.
Variable lt : A -> A -> bool.

(** A stable insertion sort that only asks [<], as [list.sort] does. *)
Fixpoint insert (x : A) (l : list A) : list A :=
  match l with
  | [] => [x]
  | y :: rest => if lt x y then x :: y :: rest else y :: insert x rest
  end.

Definition sorted (l : list A) : list A :=
  fold_right insert [] (rev l).

End Sorted.

Arguments insert {A} lt x l.
Arguments sorted {A} lt l.

(** [(k1, v1) < (k2, v2)]: the first components decide unless they are
    equal, then the second ones do. *)
Definition item_lt (a b : string * float) : bool :=
  if String.eqb (fst a) (fst b) then
    if PrimFloat.eqb (snd a) (snd b) then false
    else PrimFloat.ltb (snd a) (snd b)
  else String.ltb (fst a) (fst b).

(** [generate_palm_signature], lines 200-219. *)
Definition generate_palm_signature (distances : Dict.t float) : string :=
  let sorted_distances := sorted item_lt (Dict.items distances) in
  let distance_string :=
    String.concat "|"
      (map (fun kv => fst kv ++ ":" ++ format_6f (snd kv)) sorted_distances) in
  substring 0 16 (Sha256.hexdigest distance_string).

(** The record [create_palm_template] returns ([person_name], [image_path]
    and the file's [timestamp] are left out: nothing below reads them). *)
Record template : Type := {
  t_signature : string;
  t_raw_distances : Dict.t float;
  t_normalized_distances : Dict.t float;
  t_keypoints : list point;
  t_confidences : list float
}.

(** [[confidences[idx] for idx in self.knuckle_indices.values()]]. *)
Fixpoint knuckle_confidences (confidences : list float)
    (its : list (string * nat)) : result (list float) :=
  match its with
  | [] => Ok []
  | (_, idx) :: rest =>
      (let* c := index confidences idx in
       let* cs := knuckle_confidences confidences rest in
       Ok (c :: cs))%result
  end.

(** The confidence gate of [detect_hand_keypoints] (lines 127-136), applied
    to what the keypoint model returned ([None] when it returned nothing).
    Any exception is caught there and becomes [None]. *)
Definition detect_hand_keypoints (raw : option (list point * list float))
    : option (list point * list float) :=
  match raw with
  | None => None
  | Some (keypoints, confidences) =>
      match (let* kc := knuckle_confidences confidences
                          (Dict.items knuckle_indices) in
             py_min kc)%result with
      | Raise _ => None
      | Ok m => if PrimFloat.ltb m f_half then None
                else Some (keypoints, confidences)
      end
  end.

(** [create_palm_template], lines 221-264. *)
Definition create_palm_template (raw : option (list point * list float))
    : result (option template) :=
  match detect_hand_keypoints raw with
  | None => Ok None
  | Some (keypoints, confidences) =>
      (let* raw_distances := calculate_knuckle_distances keypoints in
       let* normalized_distances := normalize_distances raw_distances in
       let signature := generate_palm_signature normalized_distances in
       Ok (Some {| t_signature := signature;
                   t_raw_distances := raw_distances;
                   t_normalized_distances := normalized_distances;
                   t_keypoints := keypoints;
                   t_confidences := confidences |}))%result
  end.

(** ** JSON values and the files of the store *)

(** What [json.load] returns.  A number is carried by its float value (the
    integer literal [0] and [0.0] agree on everything used here). *)
#[warnings="-register-all"]
Inductive json : Type :=
| JNull
| JBool (b : bool)
| JNum (x : float)
| JStr (s : string)
| JArr (l : list json)
| JObj (o : list (string * json)).

(** Python truthiness, as in [if existing_data:]. *)
Definition truthy (v : json) : bool :=
  match v with
  | JNull => false
  | JBool b => b
  | JNum x => negb (PrimFloat.eqb x f_zero)
  | JStr s => negb (String.eqb s "")
  | JArr l => match l with [] => false | _ => true end
  | JObj o => match o with [] => false | _ => true end
  end.

(** [v[k]] for a string key: only a dict can be subscripted so. *)
Definition getitem (v : json) (k : string) : result json :=
  match v with
  | JObj o => Dict.get o k
  | _ => Raise TypeError
  end.

(** [v[k] = x]. *)
Definition setitem (v : json) (k : string) (x : json) : result json :=
  match v with
  | JObj o => Ok (JObj (Dict.set o k x))
  | _ => Raise TypeError
  end.

Definition json_of_distances (d : Dict.t float) : json :=
  JObj (map (fun kv => (fst kv, JNum (snd kv))) d).

Inductive content : Type :=
| Corrupt
| Failing (e : exn)
| Parsed (v : json).

(** The directory [palm_data]: the file [<phone_number>.json] is the entry
    under [phone_number]. *)
Definition store : Type := list (string * content).

Fixpoint lookup (s : store) (name : string) : option content :=
  match s with
  | [] => None
  | (n, c) :: rest => if String.eqb n name then Some c else lookup rest name
  end.

(** [os.remove(path)]. *)
Fixpoint remove (s : store) (name : string) : store :=
  match s with
  | [] => []
  | (n, c) :: rest =>
      if String.eqb n name then remove rest name else (n, c) :: remove rest name
  end.

(** [open(path, 'w')] followed by [json.dump]. *)
Definition write (s : store) (name : string) (v : json) : store :=
  Dict.set s name (Parsed v).

(** The state the commands run in: the store, the clock read by
    [datetime.utcnow()], and the collaborators (the image files, the
    keypoint model and what it detects on an image). *)
Record world : Type := {
  files : store;
  ticks : nat;
  clock : nat -> string;
  image_exists : string -> bool;
  model_loaded : bool;
  detector : string -> option (list point * list float);
  creatable : string -> bool;
  str_of : json -> string
}.

Definition with_files (w : world) (s : store) : world :=
  {| files := s; ticks := ticks w; clock := clock w;
     image_exists := image_exists w; model_loaded := model_loaded w;
     detector := detector w; creatable := creatable w; str_of := str_of w |}.

(** [os.remove(path)] on the record file of [phone_number]: the file is
    gone, and a file of that name can be created again. *)
Definition without_file (w : world) (phone_number : string) : world :=
  {| files := remove (files w) phone_number;
     ticks := ticks w; clock := clock w;
     image_exists := image_exists w; model_loaded := model_loaded w;
     detector := detector w;
     creatable := fun name => String.eqb name phone_number || creatable w name;
     str_of := str_of w |}.

(** [datetime.utcnow().isoformat()]. *)
Definition utcnow (w : world) : string * world :=
  (clock w (ticks w),
   {| files := files w; ticks := S (ticks w); clock := clock w;
      image_exists := image_exists w; model_loaded := model_loaded w;
      detector := detector w; creatable := creatable w; str_of := str_of w |}).

(** [f"{phone_number}.json"] for the phone number a record holds. *)
Definition file_name (w : world) (phone_number : json) : string :=
  match phone_number with
  | JStr s => s
  | other => str_of w other
  end.

(** ** TemplateStore: [palm_api.py], lines 28-83 *)

(** [load_palm_data]: [None] when there is no file, and when the file is no
    JSON text, in which case it is removed; only [json.JSONDecodeError] is
    caught, any other exception leaves the file and reaches the caller. *)
Definition load_palm_data (w : world) (phone_number : string)
    : result (option json) * world :=
  match lookup (files w) phone_number with
  | Some (Parsed v) => (Ok (Some v), w)
  | Some Corrupt => (Ok None, without_file w phone_number)
  | Some (Failing e) => (Raise e, w)
  | None => (Ok None, w)
  end.

(** [save_palm_data]: [False], and nothing written, when [open(path, 'w')]
    raises, as it does for a phone number that has no file and for which
    none can be created. *)
Definition save_palm_data (w : world) (phone_number : string) (palm_data : json)
    : bool * world :=
  match lookup (files w) phone_number with
  | None =>
      if creatable w phone_number
      then (true, with_files w (write (files w) phone_number palm_data))
      else (false, w)
  | Some _ => (true, with_files w (write (files w) phone_number palm_data))
  end.

(** The dictionary a command returns. *)
Record response : Type := {
  success : bool;
  is_match : option bool;
  message : string;
  data : Dict.t json
}.

Definition failure (msg : string) : response :=
  {| success := false; is_match := None; message := msg; data := [] |}.

Definition msg_already_registered : string :=
  "Palm already registered for this phone number. Please delete existing registration first.".

Definition is_truthy (v : option json) : bool :=
  match v with
  | None => false
  | Some x => truthy x
  end.

(** [register_palm], lines 85-171. *)
Definition register_palm (w : world) (image_path phone_number : string)
    : result response * world :=
  if negb (image_exists w image_path) then
    (Ok (failure ("Image not found: " ++ image_path)), w)
  else if negb (model_loaded w) then
    (Ok (failure "Palm recognition model not available"), w)
  else
    match load_palm_data w phone_number with
    | (Raise e, w1) => (Raise e, w1)
    | (Ok existing_data, w1) =>
    if is_truthy existing_data then
      (Ok (failure msg_already_registered), w1)
    else
      match create_palm_template (detector w1 image_path) with
      | Raise e => (Raise e, w1)
      | Ok None =>
          (Ok (failure "Failed to detect hand keypoints in image. Please ensure your palm is clearly visible."), w1)
      | Ok (Some t) =>
          let '(registered_at, w2) := utcnow w1 in
          let '(last_used, w3) := utcnow w2 in
          let palm_data :=
            JObj [ ("phoneNumber", JStr phone_number);
                   ("signature", JStr (t_signature t));
                   ("normalizedDistances",
                      json_of_distances (t_normalized_distances t));
                   ("rawDistances", json_of_distances (t_raw_distances t));
                   ("registeredAt", JStr registered_at);
                   ("lastUsed", JStr last_used) ] in
          let '(saved, w4) := save_palm_data w3 phone_number palm_data in
          if saved then
            (Ok {| success := true; is_match := None;
                   message := "Palm registered successfully";
                   data := [ ("phoneNumber", JStr phone_number);
                             ("signature", JStr (t_signature t));
                             ("registeredAt", JStr registered_at) ] |}, w4)
          else (Ok (failure "Failed to save palm data"), w4)
      end
    end.

(** [delete_palm], lines 313-330. *)
Definition delete_palm (w : world) (phone_number : string) : response * world :=
  match lookup (files w) phone_number with
  | Some _ =>
      ({| success := true; is_match := None;
          message := "Palm registration deleted successfully"; data := [] |},
       without_file w phone_number)
  | None => (failure "No palm registered for this phone number", w)
  end.

(** One entry of the listing. *)
Definition palm_entry (v : json) : result json :=
  (let* phone := getitem v "phoneNumber" in
   let* registered_at := getitem v "registeredAt" in
   let last_used :=
     match getitem v "lastUsed" with
     | Ok x => x
     | Raise _ => registered_at
     end in
   Ok (JObj [ ("phoneNumber", phone);
              ("registeredAt", registered_at);
              ("lastUsed", last_used) ]))%result.

(** The loop of [list_registered_palms]: a file that is no JSON text is
    skipped; any other exception ends the loop. *)
Fixpoint list_loop (palm_files : list (string * content)) (palms : list json)
    : result (list json) :=
  match palm_files with
  | [] => Ok palms
  | (_, Corrupt) :: rest => list_loop rest palms
  | (_, Failing e) :: rest => Raise e
  | (_, Parsed v) :: rest =>
      (let* entry := palm_entry v in list_loop rest (palms ++ [entry])%list)%result
  end.

Record listing : Type := {
  l_success : bool;
  l_count : nat;
  l_palms : list json
}.

(** [list_registered_palms], lines 332-356. *)
Definition list_registered_palms (w : world) : result listing :=
  (let* palms := list_loop (files w) [] in
   Ok {| l_success := true; l_count := List.length palms; l_palms := palms |})%result.

(** ** MatchEngine and RecognitionPipeline *)

Section Matching.

(** The order in which a Python [set] of strings is iterated. *)
Variable set_order : list string -> list string.

(** [set(distances1.keys()) & set(distances2.keys())], as iterated. *)
Definition common_keys {V W : Type} (distances1 : Dict.t V)
    (distances2 : Dict.t W) : list string :=
  set_order
    (filter (fun k => Dict.mem k distances2)
       (nodup string_dec (Dict.keys distances1))).

(** The accumulation [distance += diff ** 2]. *)
Fixpoint sum_squares (distances1 distances2 : Dict.t float)
    (ks : list string) (distance : float) : result float :=
  match ks with
  | [] => Ok distance
  | key :: rest =>
      (let* a := Dict.get distances1 key in
       let* b := Dict.get distances2 key in
       let diff := PrimFloat.sub a b in
       sum_squares distances1 distances2 rest
         (PrimFloat.add distance (PrimFloat.mul diff diff)))%result
  end.

(** [calculate_template_distance], lines 350-373 of
    [palm_recognition_system.py]. *)
Definition calculate_template_distance (distances1 distances2 : Dict.t float)
    : result float :=
  let ks := common_keys distances1 distances2 in
  if Nat.eqb (List.length ks) 0 then Ok infinity
  else
    (let* distance := sum_squares distances1 distances2 ks f_zero in
     Ok (PrimFloat.sqrt distance))%result.

(** [distances1[key] - distances2[key]] when the second dictionary comes
    from a record file: the first operand is a NumPy scalar, the second any
    JSON value.  A number subtracts, and so does a boolean, which counts for
    [1.0] or [0.0]; a string, [None] and a dictionary raise [TypeError]; a
    list becomes an array, and the comparison ends with an exception, from
    NumPy or from the format [{distance:.6f}] of line 270. *)
Definition py_sub (a : float) (b : json) : result float :=
  match b with
  | JNum y => Ok (PrimFloat.sub a y)
  | JBool true => Ok (PrimFloat.sub a f_one)
  | JBool false => Ok (PrimFloat.sub a f_zero)
  | JNull | JStr _ | JArr _ | JObj _ => Raise TypeError
  end.

(** The accumulation of [calculate_template_distance] over the values of a
    record file: only the values under the common keys are read. *)
Fixpoint sum_squares_json (distances1 : Dict.t float)
    (distances2 : Dict.t json) (ks : list string) (distance : float)
    : result float :=
  match ks with
  | [] => Ok distance
  | key :: rest =>
      (let* a := Dict.get distances1 key in
       let* b := Dict.get distances2 key in
       let* diff := py_sub a b in
       sum_squares_json distances1 distances2 rest
         (PrimFloat.add distance (PrimFloat.mul diff diff)))%result
  end.

(** [calculate_template_distance] as [recognize_palm] of [palm_api.py]
    calls it, on the [normalizedDistances] of a record file: a value that
    is no dictionary has no [keys()]. *)
Definition calculate_template_distance_json (distances1 : Dict.t float)
    (stored : json) : result float :=
  match stored with
  | JObj distances2 =>
      let ks := common_keys distances1 distances2 in
      if Nat.eqb (List.length ks) 0 then Ok infinity
      else
        (let* distance := sum_squares_json distances1 distances2 ks f_zero in
         Ok (PrimFloat.sqrt distance))%result
  | JNull | JBool _ | JNum _ | JStr _ | JArr _ => Raise AttributeError
  end.

(** The comparison loop of [recognize_palm] in [palm_api.py], lines 256-277:
    the state is [(best_match, best_distance)].  Only
    [json.JSONDecodeError] is caught. *)
Fixpoint compare_loop (query : Dict.t float)
    (palm_files : list (string * content))
    (best : option json * float) : result (option json * float) :=
  match palm_files with
  | [] => Ok best
  | (_, Corrupt) :: rest => compare_loop query rest best
  | (_, Failing e) :: rest => Raise e
  | (_, Parsed stored_data) :: rest =>
      (let* nd := getitem stored_data "normalizedDistances" in
       let* distance := calculate_template_distance_json query nd in
       let* _ := getitem stored_data "phoneNumber" in
       if PrimFloat.ltb distance (snd best)
       then compare_loop query rest (Some stored_data, distance)
       else compare_loop query rest best)%result
  end.

(** [if phone_number:] on an optional string. *)
Definition given (phone_number : option string) : option string :=
  match phone_number with
  | Some s => if String.eqb s "" then None else Some s
  | None => None
  end.

Definition no_match_failure (msg : string) : response :=
  {| success := false; is_match := Some false; message := msg; data := [] |}.

(** The decision of [recognize_palm], lines 279-311. *)
Definition decide (w : world) (best : option json * float) (threshold : float)
    : result response * world :=
  let '(best_match, best_distance) := best in
  match best_match with
  | Some bm =>
      if truthy bm && PrimFloat.leb best_distance threshold then
        let '(now, w1) := utcnow w in
        match (let* bm' := setitem bm "lastUsed" (JStr now) in
               let* phone := getitem bm' "phoneNumber" in
               Ok (bm', phone))%result with
        | Raise e => (Raise e, w1)
        | Ok (bm', phone) =>
            let '(_, w2) := save_palm_data w1 (file_name w1 phone) bm' in
            (Ok {| success := true; is_match := Some true;
                   message := "Palm recognized successfully";
                   data := [ ("phoneNumber", phone);
                             ("distance", JNum best_distance);
                             ("confidence",
                                JNum (PrimFloat.sub f_one best_distance));
                             ("threshold", JNum threshold) ] |}, w2)
        end
      else
        (Ok {| success := true; is_match := Some false;
               message := "Palm not recognized";
               data := [ ("distance", JNum best_distance);
                         ("threshold", JNum threshold) ] |}, w)
  | None =>
      (Ok {| success := true; is_match := Some false;
             message := "Palm not recognized";
             data := [ ("distance", JNum best_distance);
                       ("threshold", JNum threshold) ] |}, w)
  end.

(** The files to compare against, lines 227-251: [inl] is an early return. *)
Definition select_files (w : world) (phone_number : option string)
    : response + list (string * content) :=
  match given phone_number with
  | Some p =>
      match lookup (files w) p with
      | Some c => inr [(p, c)]
      | None => inl (no_match_failure ("No palm registered for " ++ p))
      end
  | None =>
      match files w with
      | [] => inl (no_match_failure "No registered palms in database")
      | fs => inr fs
      end
  end.

(** [recognize_palm] of [palm_api.py], lines 173-311. *)
Definition recognize_palm (w : world) (image_path : string)
    (phone_number : option string) (threshold : float)
    : result response * world :=
  if negb (image_exists w image_path) then
    (Ok (failure ("Image not found: " ++ image_path)), w)
  else if negb (model_loaded w) then
    (Ok (failure "Palm recognition model not available"), w)
  else
    match create_palm_template (detector w image_path) with
    | Raise e => (Raise e, w)
    | Ok None => (Ok (failure "Failed to detect hand keypoints in image"), w)
    | Ok (Some t) =>
        match select_files w phone_number with
        | inl r => (Ok r, w)
        | inr palm_files =>
            match compare_loop (t_normalized_distances t) palm_files
                    (None, infinity) with
            | Raise e => (Raise e, w)
            | Ok best => decide w best threshold
            end
        end
    end.

(** The loop of [PalmRecognitionSystem.recognize_palm], lines 312-324, over
    [self.palm_database.items()]. *)
Fixpoint database_loop (query : Dict.t float)
    (database : list (string * template))
    (best : option template * float) : result (option template * float) :=
  match database with
  | [] => Ok best
  | (_, stored_template) :: rest =>
      (let* distance :=
         calculate_template_distance query
           (t_normalized_distances stored_template) in
       if PrimFloat.ltb distance (snd best)
       then database_loop query rest (Some stored_template, distance)
       else database_loop query rest best)%result
  end.

End Matching.

(** ** Definitions used to state the properties *)

(** The unordered pairs of knuckle points and their canonical keys. *)
Definition knuckle_names : list string := Dict.keys knuckle_indices.

Fixpoint unordered_pairs (names : list string) : list (string * string) :=
  match names with
  | [] => []
  | a :: rest => (map (fun b => (a, b)) rest ++ unordered_pairs rest)%list
  end.

Definition canonical_key (p : string * string) : string :=
  if String.leb (fst p) (snd p) then fst p ++ "_" ++ snd p
  else snd p ++ "_" ++ fst p.

(** A hand of 21 landmarks, every confidence [0.75]. *)
Definition example_keypoints : list point :=
  [ (0, 0); (1, 1); (2, 4); (3, 9); (4, 16); (5, 25); (6, 36); (7, 49);
    (8, 64); (9, 81); (10, 100); (11, 121); (12, 144); (13, 169); (14, 196);
    (15, 225); (16, 256); (17, 289); (18, 324); (19, 361); (20, 400) ]%float.

Definition example_confidences : list float := repeat 0.75%float 21.

(** The Euclidean distance of two vectors over the keys [ks], taken in that
    order: the square root of the sum of the squared differences. *)
Definition component (v : Dict.t float) (k : string) : float :=
  match Dict.get v k with
  | Ok x => x
  | Raise _ => nan
  end.

Definition euclidean_over (a b : Dict.t float) (ks : list string) : float :=
  PrimFloat.sqrt
    (fold_left
       (fun acc k =>
          let diff := PrimFloat.sub (component a k) (component b k) in
          PrimFloat.add acc (PrimFloat.mul diff diff))
       ks f_zero).

(** The distance of a stored record to a query, as the comparison loop
    computes it. *)
Definition record_distance (set_order : list string -> list string)
    (query : Dict.t float) (stored_data : json) : result float :=
  (let* nd := getitem stored_data "normalizedDistances" in
   calculate_template_distance_json set_order query nd)%result.

(** A parseable registered record: an object that holds a phone number and
    a dictionary of normalized distances. *)
Definition registered (v : json) : Prop :=
  exists d p,
    getitem v "normalizedDistances" = Ok (json_of_distances d) /\
    getitem v "phoneNumber" = Ok (JStr p).

(** The records of the files that parse, in enumeration order. *)
Fixpoint parsed_values (palm_files : list (string * content)) : list json :=
  match palm_files with
  | [] => []
  | (_, Corrupt) :: rest => parsed_values rest
  | (_, Failing _) :: rest => parsed_values rest
  | (_, Parsed v) :: rest => v :: parsed_values rest
  end.

(** [best] is what a search retaining the first minimum leaves after the
    candidates [cds] (each with its distance): no candidate is strictly
    closer than the best distance; the best candidate, when there is one, is
    below [+infinity] and no candidate before it is as close; without a best
    candidate the best distance is still [+infinity]. *)
Definition first_minimum (cds : list (json * float))
    (best : option json * float) : Prop :=
  (forall c d, In (c, d) cds -> PrimFloat.ltb d (snd best) = false) /\
  match fst best with
  | None => snd best = infinity
  | Some bm =>
      PrimFloat.ltb (snd best) infinity = true /\
      exists pre post,
        cds = (pre ++ (bm, snd best) :: post)%list /\
        forall c d, In (c, d) pre -> PrimFloat.leb d (snd best) = false
  end.

(** A store record as [register_palm] writes it, and a state of the world in
    which the image ["palm.jpg"] exists and shows the example hand, and in
    which a record file can be created for every phone number without a
    [/].  Of the values that are no strings, the examples name a file after
    [None], [True] and [False] only, and [str_of] is Python's for these. *)
Definition example_record (phone : string) (nd : Dict.t float) : json :=
  JObj [ ("phoneNumber", JStr phone);
         ("signature", JStr "0123456789abcdef");
         ("normalizedDistances", json_of_distances nd);
         ("rawDistances", json_of_distances nd);
         ("registeredAt", JStr "2025-10-04T12:00:00");
         ("lastUsed", JStr "2025-10-04T12:00:00") ].

Definition example_world (fs : store) : world :=
  {| files := fs;
     ticks := 0;
     clock := fun n => "2025-10-05T09:00:00." ++ string_of_N (N.of_nat n);
     image_exists := fun path => String.eqb path "palm.jpg";
     model_loaded := true;
     detector := fun _ => Some (example_keypoints, example_confidences);
     creatable :=
       fun name =>
         match String.index 0 "/" name with
         | Some _ => false
         | None => true
         end;
     str_of :=
       fun v =>
         match v with
         | JBool true => "True"
         | JBool false => "False"
         | _ => "None"
         end |}.

(** A store whose only record shares no measurement with a fresh template. *)
Definition legacy_store : store :=
  [ ("555-1111", Parsed (example_record "555-1111" [("thumb_wrist", 1%float)])) ].

Definition two_palms : store :=
  [ ("555-1111",
     Parsed (example_record "555-1111"
               [("middle_knuckle_wrist", 1%float);
                ("index_knuckle_wrist", 0.5%float)]));
    ("555-2222",
     Parsed (example_record "555-2222"
               [("middle_knuckle_wrist", 1%float);
                ("index_knuckle_wrist", 0.3125%float)])) ].

(** The Registration that [register_palm] persists. *)
Definition registration (phone_number : string) (t : template)
    (registered_at last_used : string) : json :=
  JObj [ ("phoneNumber", JStr phone_number);
         ("signature", JStr (t_signature t));
         ("normalizedDistances", json_of_distances (t_normalized_distances t));
         ("rawDistances", json_of_distances (t_raw_distances t));
         ("registeredAt", JStr registered_at);
         ("lastUsed", JStr last_used) ].

(** The identity is the primary key of the store: a record that names a
    phone number is in the file of that phone number. *)
Definition store_consistent (s : store) : Prop :=
  forall name v p,
    In (name, Parsed v) s -> getitem v "phoneNumber" = Ok p -> p = JStr name.

(** A record that [list_registered_palms] can list. *)
Definition listable (v : json) : Prop :=
  exists p r,
    getitem v "phoneNumber" = Ok p /\ getitem v "registeredAt" = Ok r.

(** The store without the files that do not parse. *)
Fixpoint drop_corrupt (s : store) : store :=
  match s with
  | [] => []
  | (_, Corrupt) :: rest => drop_corrupt rest
  | (name, Failing e) :: rest => (name, Failing e) :: drop_corrupt rest
  | (name, Parsed v) :: rest => (name, Parsed v) :: drop_corrupt rest
  end.

(** A store with a file that is not valid JSON. *)
Definition corrupt_store : store :=
  [ ("555-1111",
     Parsed (example_record "555-1111" [("middle_knuckle_wrist", 1%float)]));
    ("555-2222", Corrupt) ].

(** A store with a file whose bytes are no text in the expected encoding. *)
Definition undecodable_store : store :=
  [ ("555-1111",
     Parsed (example_record "555-1111" [("middle_knuckle_wrist", 1%float)]));
    ("555-2222", Failing UnicodeDecodeError) ].

(** A store with a record that [register_palm] did not write: no phone
    number, and among the stored distances a text under a key that no
    template has and a boolean under one that every template has. *)
Definition untidy_store : store :=
  [ ("555-7777",
     Parsed (JObj [ ("phoneNumber", JNull);
                    ("normalizedDistances",
                     JObj [ ("middle_knuckle_wrist", JNum 1%float);
                            ("note", JStr "left hand");
                            ("index_knuckle_wrist", JBool true) ]) ])) ].

(** The JSON values that Python takes for false. *)
Definition falsy_values : list json :=
  [ JNull; JBool false; JNum 0%float; JStr ""; JArr []; JObj [] ].

(** A store in which the file of ["555-4444"] holds the JSON value [{}]. *)
Definition falsy_store : store := [ ("555-4444", Parsed (JObj [])) ].

(** No file of the store makes [json.load] raise anything but
    [json.JSONDecodeError]. *)
Definition readable (s : store) : Prop :=
  forall name e, ~ In (name, Failing e) s.


(** Sorting by key, rendering and hashing, as the specification words the
    derivation of a signature. *)
Definition key_lt (a b : string * float) : bool :=
  String.ltb (fst a) (fst b).

Definition render (kv : string * float) : string :=
  fst kv ++ ":" ++ format_6f (snd kv).

Definition by_key_ascending (entries : list (string * float)) : Prop :=
  StronglySorted (fun a b => String.ltb (fst a) (fst b) = true) entries.

(** A number that is neither [nan] nor infinite. *)
Definition finite (value : float) : bool :=
  match Prim2SF value with
  | S754_zero _ | S754_finite _ _ _ => true
  | _ => false
  end.



(** The characters of a lowercase hexadecimal numeral. *)
Definition lowercase_hex (c : ascii) : bool :=
  existsb (Ascii.eqb c) (list_ascii_of_string "0123456789abcdef").

(** The entry that the listing shows for a record: its phone number, its
    registration time, and its last use, for which the registration time
    stands in when the record has none. *)
Definition listed (v e : json) : Prop :=
  exists p r,
    getitem v "phoneNumber" = Ok p /\
    getitem v "registeredAt" = Ok r /\
    e = JObj [ ("phoneNumber", p);
               ("registeredAt", r);
               ("lastUsed",
                  match getitem v "lastUsed" with
                  | Ok x => x
                  | Raise _ => r
                  end) ].

(** ** The in-memory database of [PalmRecognitionSystem], lines 24-87 and
    266-348 *)

Module PalmRecognitionSystem.

(** A template as the class keeps it: with the [person_name] it was created
    for ([None] for the template of a query). *)
Record palm_template : Type := {
  tpl : template;
  person_name : option string
}.

(** The file [palm_database.pkl]: absent, not loadable by [pickle.load], or
    the pickled dictionary. *)
Inductive pickle_file : Type :=
| NoFile
| Unreadable
| Pickled (database : Dict.t palm_template).

(** The object: [self.model is not None], [self.palm_database], the
    database file, and what the model detects on an image. *)
Record system : Type := {
  model : bool;
  palm_database : Dict.t palm_template;
  database_file : pickle_file;
  inference : string -> option (list point * list float)
}.

(** [load_database]: an absent file and a failing [pickle.load] both leave
    an empty dictionary. *)
Definition load_database (s : system) : system :=
  {| model := model s;
     palm_database :=
       match database_file s with
       | Pickled database => database
       | NoFile | Unreadable => []
       end;
     database_file := database_file s;
     inference := inference s |}.

(** [save_database]. *)
Definition save_database (s : system) : system :=
  {| model := model s;
     palm_database := palm_database s;
     database_file := Pickled (palm_database s);
     inference := inference s |}.

(** [__init__]: the model is loaded when its file is there and loads, then
    the database is read. *)
Definition init (model_available : bool) (file : pickle_file)
    (detect : string -> option (list point * list float)) : system :=
  load_database
    {| model := model_available; palm_database := [];
       database_file := file; inference := detect |}.

(** [create_palm_template(image_path, person_name)]: without a model
    [detect_hand_keypoints] returns [None] at once. *)
Definition create_template (s : system) (image_path : string)
    (name : option string) : result (option palm_template) :=
  if model s then
    match create_palm_template (inference s image_path) with
    | Raise e => Raise e
    | Ok None => Ok None
    | Ok (Some t) => Ok (Some {| tpl := t; person_name := name |})
    end
  else Ok None.

(** [register_palm], lines 266-291. *)
Definition register_palm (s : system) (image_path name : string)
    : result bool * system :=
  match create_template s image_path (Some name) with
  | Raise e => (Raise e, s)
  | Ok None => (Ok false, s)
  | Ok (Some t) =>
      let signature := t_signature (tpl t) in
      if Dict.mem signature (palm_database s) then (Ok false, s)
      else
        (Ok true,
         save_database
           {| model := model s;
              palm_database := Dict.set (palm_database s) signature t;
              database_file := database_file s;
              inference := inference s |})
  end.

(** The dictionary [recognize_palm] returns. *)
Record recognition : Type := {
  r_match : bool;
  r_person_name : option (option string);
  r_distance : float;
  r_threshold : float;
  r_signature : option string
}.

(** The loop of lines 312-324 over [self.palm_database.items()]. *)
Fixpoint search (set_order : list string -> list string)
    (query : Dict.t float) (database : list (string * palm_template))
    (best : option palm_template * float)
    : result (option palm_template * float) :=
  match database with
  | [] => Ok best
  | (_, stored_template) :: rest =>
      (let* distance :=
         calculate_template_distance set_order query
           (t_normalized_distances (tpl stored_template)) in
       if PrimFloat.ltb distance (snd best)
       then search set_order query rest (Some stored_template, distance)
       else search set_order query rest best)%result
  end.

(** [recognize_palm], lines 293-348. *)
Definition recognize_palm (set_order : list string -> list string)
    (s : system) (image_path : string) (threshold : float)
    : result (option recognition) :=
  match create_template s image_path None with
  | Raise e => Raise e
  | Ok None => Ok None
  | Ok (Some t) =>
      (let* best :=
         search set_order (t_normalized_distances (tpl t))
           (Dict.items (palm_database s)) (None, infinity) in
       let no_match :=
         {| r_match := false; r_person_name := None;
            r_distance := snd best; r_threshold := threshold;
            r_signature := None |} in
       match fst best with
       | Some best_match =>
           if PrimFloat.leb (snd best) threshold then
             Ok (Some {| r_match := true;
                         r_person_name := Some (person_name best_match);
                         r_distance := snd best;
                         r_threshold := threshold;
                         r_signature := Some (t_signature (tpl best_match)) |})
           else Ok (Some no_match)
       | None => Ok (Some no_match)
       end)%result
  end.

End PalmRecognitionSystem.

(** A system with a model that sees the example hand on every image. *)
Definition example_system (database : Dict.t PalmRecognitionSystem.palm_template)
    : PalmRecognitionSystem.system :=
  {| PalmRecognitionSystem.model := true;
     PalmRecognitionSystem.palm_database := database;
     PalmRecognitionSystem.database_file := PalmRecognitionSystem.NoFile;
     PalmRecognitionSystem.inference :=
       fun _ => Some (example_keypoints, example_confidences) |}.

(** ** A value in six decimals, as the specification words it

    What it is for a string to be a number formatted to exactly 6 decimal
    digits, said without the code: the string is read back digit by digit
    and compared with the exact value of the number. *)

Definition digit_value (c : ascii) : option Z :=
  match c with
  | "0"%char => Some 0%Z
  | "1"%char => Some 1%Z
  | "2"%char => Some 2%Z
  | "3"%char => Some 3%Z
  | "4"%char => Some 4%Z
  | "5"%char => Some 5%Z
  | "6"%char => Some 6%Z
  | "7"%char => Some 7%Z
  | "8"%char => Some 8%Z
  | "9"%char => Some 9%Z
  | _ => None
  end.

(** The number a string of decimal digits denotes, read from the left. *)
Fixpoint decimal_acc (s : string) (acc : Z) : option Z :=
  match s with
  | EmptyString => Some acc
  | String c rest =>
      match digit_value c with
      | Some d => decimal_acc rest (10 * acc + d)
      | None => None
      end
  end.

Definition decimal_value (s : string) : option Z :=
  match s with
  | EmptyString => None
  | _ => decimal_acc s 0
  end.

(** A numeral as one writes it: ["0"], or digits that do not start with a
    zero. *)
Definition no_leading_zero (s : string) : Prop :=
  s = "0" \/ exists c rest, s = String c rest /\ c <> "0"%char.

(** [n] is the integer nearest to the fraction [num / den], and the even one
    when two integers are equally near. *)
Definition nearest_even (num den n : Z) : Prop :=
  (2 * Z.abs (n * den - num) <= den)%Z /\
  ((2 * Z.abs (n * den - num) = den)%Z -> Z.even n = true).

(** [s] is [value] with six decimals.  A number [m * 2^e] times [10^6] is
    the fraction with numerator [m * 10^6 * 2^max(e,0)] and denominator
    [2^max(-e,0)]; [s] is a sign, the digits of the whole part, a point and
    six digits, and the digits without the point read as the integer nearest
    to that fraction.  Zero is the case [0 / 1]; an infinite value and [nan]
    have no decimals and are written by name. *)
Definition six_decimals (value : float) (s : string) : Prop :=
  match Prim2SF value with
  | S754_nan => s = "nan"
  | S754_infinity sg => s = if sg then "-inf" else "inf"
  | S754_zero sg => s = (if sg then "-" else "") ++ "0.000000"
  | S754_finite sg m e =>
      exists n whole frac,
        nearest_even (Zpos m * 10 ^ 6 * 2 ^ Z.max e 0) (2 ^ Z.max (- e) 0) n /\
        s = (if sg then "-" else "") ++ whole ++ "." ++ frac /\
        decimal_value whole = Some (n / 10 ^ 6)%Z /\
        no_leading_zero whole /\
        String.length frac = 6%nat /\
        decimal_value frac = Some (n mod 10 ^ 6)%Z
  end.

(** [s] is the entry [kv] rendered as [key:value] with the value in six
    decimals. *)
Definition key_value_text (kv : string * float) (s : string) : Prop :=
  exists value_text,
    six_decimals (snd kv) value_text /\ s = fst kv ++ ":" ++ value_text.

(** * Properties *)

(** ** Order and division of binary64 numbers *)

Lemma SFcompare_antisym (x y : spec_float) :
  SFcompare y x = option_map CompOpp (SFcompare x y).
Proof.
  destruct x as [sx|sx| |sx mx ex], y as [sy|sy| |sy my ey]; simpl; try reflexivity;
    try (destruct sx; reflexivity); try (destruct sy; reflexivity);
    try (destruct sx, sy; reflexivity).
  destruct sx, sy; simpl; try reflexivity; f_equal;
    rewrite (Z.compare_antisym ex ey); destruct (ex ?= ey)%Z; simpl; try reflexivity;
    rewrite (Pos.compare_cont_antisym mx my Eq); simpl;
    rewrite ?CompOpp_involutive; reflexivity.
Qed.

Lemma leb_not_ltb (a b : float) : PrimFloat.leb a b = true -> PrimFloat.ltb b a = false.
Proof.
  rewrite leb_spec, ltb_spec. unfold SFleb, SFltb.
  rewrite (SFcompare_antisym (Prim2SF a) (Prim2SF b)).
  destruct (SFcompare (Prim2SF a) (Prim2SF b)) as [[ | | ]|]; simpl; congruence.
Qed.

Lemma ltb_irrefl (a : float) : PrimFloat.ltb a a = false.
Proof.
  rewrite ltb_spec. unfold SFltb.
  pose proof (SFcompare_antisym (Prim2SF a) (Prim2SF a)) as H.
  destruct (SFcompare (Prim2SF a) (Prim2SF a)) as [[ | | ]|]; simpl in *; congruence.
Qed.

Lemma div_self (r : float) (s : bool) (m : positive) (e : Z) :
  Prim2SF r = S754_finite s m e -> PrimFloat.div r r = f_one.
Proof.
  intros H. apply Prim2SF_inj. rewrite div_spec, H.
  unfold SF64div, SFdiv, SFdiv_core_binary.
  replace (Zdigits2 (Z.pos m) + e - (Zdigits2 (Z.pos m) + e))%Z with 0%Z by lia.
  replace (e - e)%Z with 0%Z by lia.
  change (Z.min (fexp prec emax 0) 0) with (-53)%Z.
  change (0 - -53)%Z with 53%Z. cbv iota beta.
  rewrite Z.shiftl_mul_pow2 by lia.
  assert (Hd : Z.div_eucl (Z.pos m * 2 ^ 53) (Z.pos m) = (2 ^ 53, 0)%Z).
  { pose proof (Z.div_eucl_eq (Z.pos m * 2 ^ 53) (Z.pos m)) as E.
    pose proof (Z.mod_pos_bound (Z.pos m * 2 ^ 53) (Z.pos m)) as B.
    unfold Z.modulo in B.
    destruct (Z.div_eucl (Z.pos m * 2 ^ 53) (Z.pos m)) as [q r0].
    specialize (E ltac:(lia)). specialize (B ltac:(lia)).
    assert (q = 2 ^ 53)%Z by nia. subst q. f_equal. lia. }
  rewrite Hd. rewrite xorb_nilpotent.
  assert (Hl : new_location (Z.pos m) 0 = loc_Exact).
  { unfold new_location, new_location_even, new_location_odd.
    destruct (Z.even (Z.pos m)); reflexivity. }
  rewrite Hl. vm_compute. reflexivity.
Qed.

Ltac sf_cases :=
  repeat match goal with
  | |- context [Z.compare ?a ?b] => destruct (Z.compare_spec a b)
  | H : context [Z.compare ?a ?b] |- _ => destruct (Z.compare_spec a b)
  | |- context [Pos.compare ?a ?b] => destruct (Pos.compare_spec a b)
  | H : context [Pos.compare ?a ?b] |- _ => destruct (Pos.compare_spec a b)
  end.

Lemma SFcompare_lt_trans (a b c : spec_float) :
  SFcompare a b = Some Lt -> SFcompare b c = Some Lt -> SFcompare a c = Some Lt.
Proof.
  destruct a as [sa|sa| |sa ma ea], b as [sb|sb| |sb mb eb],
    c as [sc|sc| |sc mc ec]; simpl;
    try discriminate; try congruence;
    try (destruct sa; discriminate); try (destruct sb; discriminate);
    try (destruct sc; discriminate);
    try (destruct sa, sb; simpl; congruence);
    try (destruct sa, sc; simpl; congruence);
    try (destruct sb, sc; simpl; congruence);
    try (destruct sa, sb, sc; simpl; congruence).
  change (Pos.compare_cont Eq) with Pos.compare.
  destruct sa, sb, sc; simpl; try discriminate; try congruence;
    intros H1 H2; f_equal; sf_cases; simpl in *;
    try discriminate; try congruence; try lia.
Qed.

Lemma SFcompare_le_lt_trans (c a b : spec_float) :
  (SFcompare c a = Some Lt \/ SFcompare c a = Some Eq) ->
  SFcompare a b = Some Lt -> SFcompare c b = Some Lt.
Proof.
  destruct a as [sa|sa| |sa ma ea], b as [sb|sb| |sb mb eb],
    c as [sc|sc| |sc mc ec]; simpl; intros [H1|H1] H2; revert H1 H2;
    try discriminate; try congruence;
    try (destruct sa; discriminate); try (destruct sb; discriminate);
    try (destruct sc; discriminate);
    try (destruct sa, sb; simpl; congruence);
    try (destruct sa, sc; simpl; congruence);
    try (destruct sb, sc; simpl; congruence);
    try (destruct sa, sb, sc; simpl; congruence).
  all: change (Pos.compare_cont Eq) with Pos.compare.
  all: destruct sa, sb, sc; simpl; try discriminate; try congruence;
    intros H1 H2; f_equal; sf_cases; simpl in *;
    try discriminate; try congruence; try lia.
Qed.

Lemma ltb_trans (a b c : float) :
  PrimFloat.ltb a b = true -> PrimFloat.ltb b c = true -> PrimFloat.ltb a c = true.
Proof.
  rewrite !ltb_spec. unfold SFltb. intros H1 H2.
  destruct (SFcompare (Prim2SF a) (Prim2SF b)) as [[ | | ]|] eqn:E1; try discriminate.
  destruct (SFcompare (Prim2SF b) (Prim2SF c)) as [[ | | ]|] eqn:E2; try discriminate.
  now rewrite (SFcompare_lt_trans _ _ _ E1 E2).
Qed.

Lemma leb_ltb_trans (c a b : float) :
  PrimFloat.leb c a = true -> PrimFloat.ltb a b = true -> PrimFloat.ltb c b = true.
Proof.
  rewrite leb_spec, !ltb_spec. unfold SFleb, SFltb. intros H1 H2.
  destruct (SFcompare (Prim2SF a) (Prim2SF b)) as [[ | | ]|] eqn:E2; try discriminate.
  destruct (SFcompare (Prim2SF c) (Prim2SF a)) as [[ | | ]|] eqn:E1; try discriminate.
  - now rewrite (SFcompare_le_lt_trans _ _ _ (or_intror E1) E2).
  - now rewrite (SFcompare_le_lt_trans _ _ _ (or_introl E1) E2).
Qed.

Lemma ltb_leb (a b : float) :
  PrimFloat.ltb a b = true -> PrimFloat.leb a b = true.
Proof.
  rewrite leb_spec, ltb_spec. unfold SFleb, SFltb.
  destruct (SFcompare (Prim2SF a) (Prim2SF b)) as [[ | | ]|]; congruence.
Qed.

(** ** Normalization (C6) *)

Lemma get_map_values {V W : Type} (f : V -> W) (d : Dict.t V) (k : string) :
  Dict.get (map (fun kv => (fst kv, f (snd kv))) d) k =
  match Dict.get d k with Ok v => Ok (f v) | Raise e => Raise e end.
Proof.
  induction d as [|[k' v] d IH]; simpl; [reflexivity|].
  destruct (String.eqb k' k); [reflexivity|exact IH].
Qed.

Lemma set_fresh {V : Type} (d : Dict.t V) (k : string) (v : V) :
  ~ In k (Dict.keys d) -> Dict.set d k v = (d ++ [(k, v)])%list.
Proof.
  induction d as [|[k' v'] d IH]; simpl; intros H; [reflexivity|].
  destruct (String.eqb_spec k' k) as [->|Hne]; [tauto|].
  rewrite IH; [reflexivity|tauto].
Qed.

Lemma fold_set_map {V W : Type} (f : V -> W) (d acc : Dict.t V) (acc' : Dict.t W) :
  NoDup (Dict.keys acc ++ Dict.keys d) ->
  Dict.keys acc' = Dict.keys acc ->
  fold_left (fun n kv => Dict.set n (fst kv) (f (snd kv))) d acc' =
  (acc' ++ map (fun kv => (fst kv, f (snd kv))) d)%list.
Proof.
  revert acc acc'. induction d as [|[k v] d IH]; intros acc acc' Hnd Hk; simpl.
  - now rewrite app_nil_r.
  - rewrite set_fresh.
    + rewrite (IH (acc ++ [(k, v)])%list).
      * now rewrite <- app_assoc.
      * unfold Dict.keys in *. rewrite map_app, <- app_assoc. exact Hnd.
      * unfold Dict.keys in *. rewrite !map_app, Hk. reflexivity.
    + rewrite Hk. apply NoDup_remove_2 in Hnd. intros Hin. apply Hnd.
      apply in_or_app. now left.
Qed.

Lemma mem_get {V : Type} (d : Dict.t V) (k : string) :
  Dict.mem k d = true -> exists v, Dict.get d k = Ok v.
Proof.
  induction d as [|[k' v] d IH]; simpl; [discriminate|].
  destruct (String.eqb k' k); simpl; eauto.
Qed.

Lemma normalize_wf (distances : Dict.t float) (r : float) :
  Dict.wf distances ->
  Dict.get distances reference_key = Ok r ->
  normalize_distances distances =
    Ok (map (fun kv => (fst kv, PrimFloat.div (snd kv) r)) distances).
Proof.
  intros Hwf Hr. unfold normalize_distances.
  assert (Hm : Dict.mem reference_key distances = true).
  { clear Hwf. induction distances as [|[k v] d IH]; simpl in *; [discriminate|].
    destruct (String.eqb k reference_key); simpl; auto. }
  rewrite Hm. simpl. rewrite Hr. simpl. f_equal.
  unfold Dict.items.
  rewrite (fold_set_map (fun v => PrimFloat.div v r) distances [] []); auto.
Qed.

(** C6 (as amended).  For a dictionary of raw distances that holds the
    reference key with a finite, non-zero value [r], normalization succeeds,
    every entry of the result is the raw value divided by [r], and the entry
    at the reference key is exactly [1.0]. *)
Theorem normalize_reference_is_one (distances : Dict.t float) (r : float)
    (s : bool) (m : positive) (e : Z) :
  Dict.wf distances ->
  Dict.get distances reference_key = Ok r ->
  Prim2SF r = S754_finite s m e ->
  exists normalized,
    normalize_distances distances = Ok normalized /\
    (forall k v, Dict.get distances k = Ok v ->
                 Dict.get normalized k = Ok (PrimFloat.div v r)) /\
    Dict.get normalized reference_key = Ok f_one.
Proof.
  intros Hwf Hr Hfin. eexists. split; [apply normalize_wf; eassumption|]. split.
  - intros k v Hk. rewrite (get_map_values (fun x => PrimFloat.div x r)), Hk.
    reflexivity.
  - rewrite (get_map_values (fun x => PrimFloat.div x r)), Hr. f_equal.
    eapply div_self; eassumption.
Qed.

(** C6 (counterexample).  When the wrist and the middle knuckle coincide the
    reference distance is [0.0], and the normalized entry at the reference
    key is [0.0 / 0.0], which is not [1.0]. *)
Lemma normalize_zero_reference :
  exists normalized,
    normalize_distances [(reference_key, 0%float); ("index_knuckle_wrist", 3%float)] = Ok normalized /\
    Dict.get normalized reference_key <> Ok f_one.
Proof.
  eexists. split; [vm_compute; reflexivity|]. vm_compute. intros H.
  apply (f_equal (fun r => match r with Ok x => Prim2SF x | Raise _ => S754_nan end)) in H.
  vm_compute in H. discriminate H.
Qed.

Lemma normalize_reference_is_one_witness :
  exists normalized,
    normalize_distances
      [("index_knuckle_wrist", 3%float); (reference_key, 4%float)] =
      Ok normalized /\
    (forall k v,
       Dict.get [("index_knuckle_wrist", 3%float); (reference_key, 4%float)] k
         = Ok v ->
       Dict.get normalized k = Ok (PrimFloat.div v 4%float)) /\
    Dict.get normalized reference_key = Ok f_one.
Proof.
  apply (normalize_reference_is_one
           [("index_knuckle_wrist", 3%float); (reference_key, 4%float)]
           4%float false 4503599627370496%positive (-50)%Z).
  - unfold Dict.wf. simpl. repeat constructor; simpl; intuition discriminate.
  - reflexivity.
  - vm_compute. reflexivity.
Defined.

(** ** Template building (C5) *)

Lemma py_min_ge (l : list float) (m : float) :
  py_min l = Ok m ->
  (forall c, In c l -> PrimFloat.leb f_half c = true) ->
  PrimFloat.ltb m f_half = false.
Proof.
  destruct l as [|x rest]; simpl; [discriminate|].
  intros H Hall. injection H as <-.
  assert (Hx : PrimFloat.leb f_half x = true) by (apply Hall; now left).
  assert (Hr : forall c, In c rest -> PrimFloat.leb f_half c = true)
    by (intros c Hc; apply Hall; now right).
  clear Hall. revert x Hx. induction rest as [|y rest IH]; intros x Hx; simpl.
  - now apply leb_not_ltb.
  - assert (Hy : PrimFloat.leb f_half y = true) by (apply Hr; now left).
    assert (Hr' : forall c, In c rest -> PrimFloat.leb f_half c = true)
      by (intros c Hc; apply Hr; now right).
    destruct (PrimFloat.ltb y x); apply IH; assumption.
Qed.

Lemma knuckle_confidences_in (confidences : list float)
    (its : list (string * nat)) (kc : list float) :
  knuckle_confidences confidences its = Ok kc ->
  forall c, In c kc ->
  exists name idx, In (name, idx) its /\ nth_error confidences idx = Some c.
Proof.
  revert kc. induction its as [|[name idx] its IH]; simpl; intros kc H c Hc.
  - injection H as <-. destruct Hc.
  - unfold index in H. destruct (nth_error confidences idx) as [x|] eqn:Hx;
      simpl in H; [|discriminate H].
    destruct (knuckle_confidences confidences its) as [cs|] eqn:Hcs;
      simpl in H; [|discriminate H].
    injection H as <-. destruct Hc as [<-|Hc].
    + exists name, idx. split; [now left|assumption].
    + destruct (IH cs eq_refl c Hc) as (n & i & Hin & Hn).
      exists n, i. split; [now right|assumption].
Qed.

Lemma knuckle_confidences_total (confidences : list float)
    (its : list (string * nat)) :
  (forall name idx, In (name, idx) its ->
     exists c, nth_error confidences idx = Some c) ->
  exists kc, knuckle_confidences confidences its = Ok kc /\
             List.length kc = List.length its.
Proof.
  induction its as [|[name idx] its IH]; simpl; intros H.
  - exists []. split; reflexivity.
  - destruct (H name idx (or_introl eq_refl)) as [c Hc].
    destruct IH as (kc & Hkc & Hlen); [intros n i Hi; apply (H n i); now right|].
    exists (c :: kc). unfold index. rewrite Hc. simpl. rewrite Hkc. simpl.
    split; [reflexivity|now rewrite Hlen].
Qed.

Lemma detect_confident (keypoints : list point) (confidences : list float) :
  (forall name idx, In (name, idx) knuckle_indices ->
     exists c, nth_error confidences idx = Some c /\
               PrimFloat.leb f_half c = true) ->
  detect_hand_keypoints (Some (keypoints, confidences)) =
    Some (keypoints, confidences).
Proof.
  intros H. unfold detect_hand_keypoints, Dict.items.
  destruct (knuckle_confidences_total confidences knuckle_indices)
    as (kc & Hkc & Hlen).
  { intros n i Hi. destruct (H n i Hi) as (c & Hc & _). eauto. }
  rewrite Hkc. simpl.
  destruct (py_min kc) as [m|e] eqn:Hm.
  - rewrite (py_min_ge kc m Hm); [reflexivity|].
    intros c Hc.
    destruct (knuckle_confidences_in _ _ _ Hkc c Hc) as (n & i & Hi & Hn).
    destruct (H n i Hi) as (c' & Hc' & Hle). congruence.
  - destruct kc; [discriminate Hlen|discriminate Hm].
Qed.

Lemma calculate_knuckle_distances_keys (keypoints : list point) :
  List.length keypoints = 21%nat ->
  exists raw,
    calculate_knuckle_distances keypoints = Ok raw /\
    Dict.keys raw = map canonical_key (unordered_pairs knuckle_names).
Proof.
  intros Hlen.
  do 21 (destruct keypoints as [|? keypoints]; [discriminate Hlen|]).
  destruct keypoints; [|discriminate Hlen].
  eexists. split; [reflexivity|]. vm_compute. reflexivity.
Qed.


Lemma mem_in_keys {V : Type} (d : Dict.t V) (k : string) :
  Dict.mem k d = true <-> In k (Dict.keys d).
Proof.
  induction d as [|[k' v] d IH]; simpl; [split; [discriminate|tauto]|].
  rewrite orb_true_iff, IH, String.eqb_eq. tauto.
Qed.

Lemma keys_map_values {V W : Type} (f : V -> W) (d : Dict.t V) :
  Dict.keys (map (fun kv => (fst kv, f (snd kv))) d) = Dict.keys d.
Proof.
  unfold Dict.keys. rewrite map_map. reflexivity.
Qed.

Lemma canonical_keys_nodup :
  NoDup (map canonical_key (unordered_pairs knuckle_names)).
Proof.
  vm_compute. repeat constructor; simpl; intuition discriminate.
Qed.

(** C5.  For 21 landmarks whose five knuckle confidences are all at least
    [0.5], a template is built, and both its raw and its normalized distance
    vectors have exactly 10 entries: one for each unordered pair of the five
    knuckle points, under the key made of the lexically smaller name, an
    underscore and the lexically larger name. *)
Theorem build_yields_ten_canonical_entries
    (keypoints : list point) (confidences : list float) :
  List.length keypoints = 21%nat ->
  List.length confidences = 21%nat ->
  (forall name idx, In (name, idx) knuckle_indices ->
     exists c, nth_error confidences idx = Some c /\
               PrimFloat.leb f_half c = true) ->
  exists t,
    create_palm_template (Some (keypoints, confidences)) = Ok (Some t) /\
    Dict.keys (t_raw_distances t) =
      map canonical_key (unordered_pairs knuckle_names) /\
    Dict.keys (t_normalized_distances t) =
      map canonical_key (unordered_pairs knuckle_names) /\
    Dict.wf (t_raw_distances t) /\
    Dict.wf (t_normalized_distances t) /\
    List.length (t_raw_distances t) = 10%nat /\
    List.length (t_normalized_distances t) = 10%nat.
Proof.
  intros Hk _ Hconf.
  destruct (calculate_knuckle_distances_keys keypoints Hk) as (raw & Hraw & Hkeys).
  assert (Hwf : Dict.wf raw).
  { unfold Dict.wf. rewrite Hkeys. apply canonical_keys_nodup. }
  destruct (mem_get raw reference_key) as [r Hr].
  { apply mem_in_keys. rewrite Hkeys. vm_compute. tauto. }
  pose proof (normalize_wf raw r Hwf Hr) as Hnorm.
  unfold create_palm_template.
  rewrite (detect_confident keypoints confidences Hconf), Hraw.
  cbn [rbind]. rewrite Hnorm. cbn [rbind].
  eexists. split; [reflexivity|]. cbn [t_raw_distances t_normalized_distances].
  rewrite (keys_map_values (fun x => PrimFloat.div x r)).
  repeat split; try assumption.
  - unfold Dict.wf. rewrite (keys_map_values (fun x => PrimFloat.div x r)).
    exact Hwf.
  - apply (f_equal (@List.length string)) in Hkeys. unfold Dict.keys in Hkeys.
    rewrite length_map in Hkeys. exact Hkeys.
  - rewrite length_map.
    apply (f_equal (@List.length string)) in Hkeys. unfold Dict.keys in Hkeys.
    rewrite length_map in Hkeys. exact Hkeys.
Qed.

Lemma build_yields_ten_canonical_entries_witness :
  exists t,
    create_palm_template (Some (example_keypoints, example_confidences)) =
      Ok (Some t) /\
    Dict.keys (t_raw_distances t) =
      map canonical_key (unordered_pairs knuckle_names) /\
    Dict.keys (t_normalized_distances t) =
      map canonical_key (unordered_pairs knuckle_names) /\
    Dict.wf (t_raw_distances t) /\
    Dict.wf (t_normalized_distances t) /\
    List.length (t_raw_distances t) = 10%nat /\
    List.length (t_normalized_distances t) = 10%nat.
Proof.
  apply (build_yields_ten_canonical_entries example_keypoints example_confidences).
  - reflexivity.
  - reflexivity.
  - intros name idx H. simpl in H.
    repeat (destruct H as [H|H];
            [injection H as <- <-; eexists; split; reflexivity|]).
    destruct H.
Defined.

(** ** Template distance (C7) *)

Section DistanceProperties.

Variable set_order : list string -> list string.

(** Iterating a set visits each of its elements once. *)
Hypothesis set_order_perm : forall l, Permutation (set_order l) l.

Lemma common_keys_spec (a b : Dict.t float) (k : string) :
  In k (common_keys set_order a b) <->
  In k (Dict.keys a) /\ In k (Dict.keys b).
Proof.
  unfold common_keys. split.
  - intros H. apply (Permutation_in _ (set_order_perm _)) in H.
    apply filter_In in H. destruct H as [H1 H2].
    apply nodup_In in H1. apply mem_in_keys in H2. tauto.
  - intros [H1 H2].
    apply (Permutation_in _ (Permutation_sym (set_order_perm _))).
    apply filter_In. split; [now apply nodup_In|now apply mem_in_keys].
Qed.

Lemma common_keys_nodup (a b : Dict.t float) :
  NoDup (common_keys set_order a b).
Proof.
  unfold common_keys.
  apply (Permutation_NoDup (Permutation_sym (set_order_perm _))).
  apply NoDup_filter, NoDup_nodup.
Qed.

Lemma in_keys_get {V : Type} (d : Dict.t V) (k : string) :
  In k (Dict.keys d) -> exists v, Dict.get d k = Ok v.
Proof.
  intros H. apply mem_get. now apply mem_in_keys.
Qed.

Lemma sum_squares_fold (a b : Dict.t float) (ks : list string) (acc : float) :
  (forall k, In k ks -> In k (Dict.keys a) /\ In k (Dict.keys b)) ->
  sum_squares a b ks acc =
    Ok (fold_left
          (fun acc k =>
             let diff := PrimFloat.sub (component a k) (component b k) in
             PrimFloat.add acc (PrimFloat.mul diff diff))
          ks acc).
Proof.
  revert acc. induction ks as [|k ks IH]; intros acc H; simpl; [reflexivity|].
  destruct (H k (or_introl eq_refl)) as [Ha Hb].
  destruct (in_keys_get a k Ha) as [x Hx].
  destruct (in_keys_get b k Hb) as [y Hy].
  rewrite Hx, Hy. cbn [rbind].
  assert (Ea : component a k = x) by (unfold component; now rewrite Hx).
  assert (Eb : component b k = y) by (unfold component; now rewrite Hy).
  rewrite Ea, Eb. apply IH. intros k' Hk'. apply H. now right.
Qed.

Lemma calculate_template_distance_common (a b : Dict.t float) :
  calculate_template_distance set_order a b =
    Ok (match common_keys set_order a b with
        | [] => infinity
        | _ :: _ => euclidean_over a b (common_keys set_order a b)
        end).
Proof.
  unfold calculate_template_distance.
  pose proof (common_keys_spec a b) as Hspec.
  destruct (common_keys set_order a b) as [|k ks]; [reflexivity|].
  cbn [List.length Nat.eqb]. rewrite sum_squares_fold; [reflexivity|].
  intros k' Hk'. now apply Hspec.
Qed.

(** C7.  The template distance of two vectors is the Euclidean distance over
    an enumeration without repetition of exactly the keys present in both,
    and it is [+infinity] when no key is present in both. *)
Theorem distance_over_common_keys (a b : Dict.t float) :
  exists ks,
    NoDup ks /\
    (forall k, In k ks <-> In k (Dict.keys a) /\ In k (Dict.keys b)) /\
    calculate_template_distance set_order a b =
      Ok (match ks with
          | [] => infinity
          | _ :: _ => euclidean_over a b ks
          end).
Proof.
  exists (common_keys set_order a b).
  split; [apply common_keys_nodup|]. split; [apply common_keys_spec|].
  apply calculate_template_distance_common.
Qed.

End DistanceProperties.

Lemma distance_over_common_keys_witness :
  exists ks,
    NoDup ks /\
    (forall k,
       In k ks <->
       In k (Dict.keys [("a", 1%float); ("b", 5%float)]) /\
       In k (Dict.keys [("b", 2%float); ("c", 7%float)])) /\
    calculate_template_distance (fun l => l)
      [("a", 1%float); ("b", 5%float)] [("b", 2%float); ("c", 7%float)] =
      Ok (match ks with
          | [] => infinity
          | _ :: _ =>
              euclidean_over [("a", 1%float); ("b", 5%float)]
                [("b", 2%float); ("c", 7%float)] ks
          end).
Proof.
  apply (distance_over_common_keys (fun l => l)).
  intros l. apply Permutation_refl.
Defined.

(** ** Open-set search (C1) *)

Lemma mem_map_values {V W : Type} (f : V -> W) (d : Dict.t V) (k : string) :
  Dict.mem k (map (fun kv => (fst kv, f (snd kv))) d) = Dict.mem k d.
Proof.
  induction d as [|[k' v] d IH]; simpl; [reflexivity|]. now rewrite IH.
Qed.

Lemma sum_squares_json_numbers (a b : Dict.t float) (ks : list string)
    (acc : float) :
  sum_squares_json a (map (fun kv => (fst kv, JNum (snd kv))) b) ks acc =
  sum_squares a b ks acc.
Proof.
  revert acc. induction ks as [|k ks IH]; intros acc; [reflexivity|].
  cbn [sum_squares_json sum_squares].
  destruct (Dict.get a k) as [x|e]; [|reflexivity]. cbn [rbind].
  rewrite (get_map_values JNum b k).
  destruct (Dict.get b k) as [y|e]; [|reflexivity]. cbn [rbind py_sub].
  apply IH.
Qed.

(** On the dictionary of numbers that a Registration holds, the distance the
    comparison loop computes is that of [calculate_template_distance]. *)
Lemma distance_json_of_distances (set_order : list string -> list string)
    (query d : Dict.t float) :
  calculate_template_distance_json set_order query (json_of_distances d) =
  calculate_template_distance set_order query d.
Proof.
  unfold calculate_template_distance_json, calculate_template_distance,
    json_of_distances.
  assert (E : common_keys set_order query
                (map (fun kv => (fst kv, JNum (snd kv))) d) =
              common_keys set_order query d).
  { unfold common_keys. f_equal. apply filter_ext. intros k.
    apply (mem_map_values JNum). }
  rewrite E. destruct (Nat.eqb _ 0); [reflexivity|].
  now rewrite sum_squares_json_numbers.
Qed.

Section SearchProperties.

Variable set_order : list string -> list string.
Hypothesis set_order_perm : forall l, Permutation (set_order l) l.

Lemma distance_total (a b : Dict.t float) :
  exists d, calculate_template_distance set_order a b = Ok d.
Proof.
  rewrite (calculate_template_distance_common set_order set_order_perm).
  eauto.
Qed.

Lemma record_distance_total (query : Dict.t float) (v : json) :
  registered v -> exists d, record_distance set_order query v = Ok d.
Proof.
  intros (d & p & Hnd & _). unfold record_distance.
  rewrite Hnd. cbn [rbind]. rewrite distance_json_of_distances.
  apply distance_total.
Qed.

Lemma first_minimum_keep (seen : list (json * float)) (best : option json * float)
    (v : json) (d : float) :
  first_minimum seen best ->
  PrimFloat.ltb d (snd best) = false ->
  first_minimum (seen ++ [(v, d)]) best.
Proof.
  intros [Hall Hfst] Hd. split.
  - intros c d' Hin. apply in_app_or in Hin. destruct Hin as [Hin|[Hin|[]]].
    + eauto.
    + injection Hin as <- <-. exact Hd.
  - destruct (fst best) as [bm|]; [|exact Hfst].
    destruct Hfst as (Hlt & pre & post & -> & Hpre). split; [exact Hlt|].
    exists pre, (post ++ [(v, d)])%list. split; [|exact Hpre].
    now rewrite <- app_assoc.
Qed.

Lemma first_minimum_replace (seen : list (json * float))
    (best : option json * float) (v : json) (d : float) :
  first_minimum seen best ->
  PrimFloat.ltb d (snd best) = true ->
  first_minimum (seen ++ [(v, d)]) (Some v, d).
Proof.
  intros [Hall Hfst] Hd. split; cbn [fst snd].
  - intros c d' Hin. apply in_app_or in Hin. destruct Hin as [Hin|[Hin|[]]].
    + destruct (PrimFloat.ltb d' d) eqn:E; [|reflexivity].
      now rewrite <- (Hall c d' Hin), (ltb_trans _ _ _ E Hd).
    + injection Hin as <- <-. apply ltb_irrefl.
  - split.
    + destruct (fst best) as [bm|].
      * destruct Hfst as [Hlt _]. exact (ltb_trans _ _ _ Hd Hlt).
      * now rewrite <- Hfst.
    + exists seen, []. split; [reflexivity|].
      intros c d' Hin. destruct (PrimFloat.leb d' d) eqn:E; [|reflexivity].
      now rewrite <- (Hall c d' Hin), (leb_ltb_trans _ _ _ E Hd).
Qed.

Lemma compare_loop_first_minimum (query : Dict.t float)
    (palm_files : list (string * content)) :
  forall seen best,
  readable palm_files ->
  Forall registered (parsed_values palm_files) ->
  first_minimum seen best ->
  exists cds best',
    compare_loop set_order query palm_files best = Ok best' /\
    map fst cds = parsed_values palm_files /\
    (forall c d, In (c, d) cds -> record_distance set_order query c = Ok d) /\
    first_minimum (seen ++ cds) best'.
Proof.
  induction palm_files as [|[name [|e|v]] rest IH];
    intros seen best Hread Hreg Hmin.
  - exists [], best. rewrite app_nil_r.
    split; [reflexivity|]. split; [reflexivity|]. split; [intros c d []|exact Hmin].
  - simpl in *. apply IH; try assumption.
    intros n e H. apply (Hread n e). now right.
  - elim (Hread name e). now left.
  - assert (Hread' : readable rest)
      by (intros n e H; apply (Hread n e); now right).
    simpl in Hreg. inversion Hreg as [|? ? Hv Hrest]; subst.
    destruct Hv as (dv & p & Hnd & Hp).
    destruct (distance_total query dv) as [d Hd].
    assert (Hrd : record_distance set_order query v = Ok d).
    { unfold record_distance. rewrite Hnd. cbn [rbind].
      rewrite distance_json_of_distances. exact Hd. }
    cbn [compare_loop]. rewrite Hnd. cbn [rbind].
    rewrite distance_json_of_distances. rewrite Hd. cbn [rbind].
    rewrite Hp. cbn [rbind].
    destruct (PrimFloat.ltb d (snd best)) eqn:Hlt.
    + destruct (IH (seen ++ [(v, d)])%list (Some v, d) Hread' Hrest
                  (first_minimum_replace seen best v d Hmin Hlt))
        as (cds & best' & Hloop & Hmap & Hdist & Hmin').
      exists ((v, d) :: cds), best'. rewrite <- app_assoc in Hmin'.
      split; [exact Hloop|]. split; [simpl; now rewrite Hmap|].
      split; [|exact Hmin'].
      intros c d' [Hin|Hin]; [injection Hin as <- <-; exact Hrd|eauto].
    + destruct (IH (seen ++ [(v, d)])%list best Hread' Hrest
                  (first_minimum_keep seen best v d Hmin Hlt))
        as (cds & best' & Hloop & Hmap & Hdist & Hmin').
      exists ((v, d) :: cds), best'. rewrite <- app_assoc in Hmin'.
      split; [exact Hloop|]. split; [simpl; now rewrite Hmap|].
      split; [|exact Hmin'].
      intros c d' [Hin|Hin]; [injection Hin as <- <-; exact Hrd|eauto].
Qed.

Lemma registered_truthy (v : json) : registered v -> truthy v = true.
Proof.
  intros (d & p & Hnd & _). destruct v as [| | | | |o]; try discriminate Hnd.
  destruct o; [discriminate Hnd|reflexivity].
Qed.

Lemma get_set_other {V : Type} (d : Dict.t V) (k k' : string) (x : V) :
  k <> k' -> Dict.get (Dict.set d k x) k' = Dict.get d k'.
Proof.
  intros Hne. induction d as [|[k0 v0] d IH]; simpl.
  - destruct (String.eqb_spec k k'); [contradiction|reflexivity].
  - destruct (String.eqb_spec k0 k) as [->|Hk0]; simpl.
    + destruct (String.eqb_spec k k'); [contradiction|reflexivity].
    + now rewrite IH.
Qed.

Lemma parsed_values_in (palm_files : list (string * content)) (v : json) :
  In v (parsed_values palm_files) -> exists name, In (name, Parsed v) palm_files.
Proof.
  induction palm_files as [|[name [|e'|v']] rest IH]; simpl; intros H.
  - destruct H.
  - destruct (IH H) as [n Hn]. eauto.
  - destruct (IH H) as [n Hn]. eauto.
  - destruct H as [<-|H]; [eauto|]. destruct (IH H) as [n Hn]. eauto.
Qed.

Lemma decide_registered (w : world) (bm : json) (bd threshold : float) :
  registered bm ->
  exists r w',
    decide w (Some bm, bd) threshold = (Ok r, w') /\
    is_match r = Some (PrimFloat.leb bd threshold) /\
    Dict.get (data r) "distance" = Ok (JNum bd) /\
    (PrimFloat.leb bd threshold = true ->
     Dict.get (data r) "phoneNumber" = getitem bm "phoneNumber").
Proof.
  intros Hreg. pose proof (registered_truthy bm Hreg) as Ht.
  destruct Hreg as (d & p & Hnd & Hp).
  destruct bm as [| | | | |o]; try discriminate Hnd.
  unfold decide. rewrite Ht. cbn [andb].
  destruct (PrimFloat.leb bd threshold) eqn:Hle.
  - cbn [utcnow setitem rbind getitem].
    rewrite (get_set_other o "lastUsed" "phoneNumber") by discriminate.
    simpl in Hp. rewrite Hp. cbn [rbind].
    destruct (save_palm_data _ _ _) as [saved w2].
    eexists. eexists. split; [reflexivity|]. cbn [is_match data].
    split; [reflexivity|]. split; [reflexivity|]. intros _. reflexivity.
  - eexists. eexists. split; [reflexivity|]. cbn [is_match data].
    split; [reflexivity|]. split; [reflexivity|]. intros H. discriminate H.
Qed.

(** C1 (as amended).  In open-set mode, over a non-empty store of parseable
    registered records, recognition computes the distance of the query to
    each record, retains the first minimum (no record is strictly closer
    than the best one, and no record enumerated before it is as close), and
    reports a match exactly when a best record exists and its distance is at
    most the threshold; for every threshold other than [+infinity] that is
    exactly when the best distance is at most the threshold. *)
Theorem open_set_recognition (w : world) (image_path : string)
    (phone_number : option string) (threshold : float) (t : template) :
  image_exists w image_path = true ->
  model_loaded w = true ->
  create_palm_template (detector w image_path) = Ok (Some t) ->
  given phone_number = None ->
  files w <> [] ->
  (forall name c, In (name, c) (files w) ->
     exists v, c = Parsed v /\ registered v) ->
  exists cds best r w',
    map fst cds = parsed_values (files w) /\
    (forall c d, In (c, d) cds ->
       record_distance set_order (t_normalized_distances t) c = Ok d) /\
    first_minimum cds best /\
    recognize_palm set_order w image_path phone_number threshold = (Ok r, w') /\
    is_match r =
      Some (match fst best with
            | Some _ => PrimFloat.leb (snd best) threshold
            | None => false
            end) /\
    Dict.get (data r) "distance" = Ok (JNum (snd best)) /\
    (is_match r = Some true ->
     exists bm, fst best = Some bm /\
       Dict.get (data r) "phoneNumber" = getitem bm "phoneNumber") /\
    (PrimFloat.leb infinity threshold = false ->
     is_match r = Some (PrimFloat.leb (snd best) threshold)).
Proof.
  intros Himg Hmodel Htpl Hopen Hne Hfiles.
  assert (Hreg : Forall registered (parsed_values (files w))).
  { apply Forall_forall. intros v Hv.
    destruct (parsed_values_in _ _ Hv) as [name Hin].
    destruct (Hfiles name _ Hin) as (v' & Hv' & Hr). now injection Hv' as ->. }
  assert (Hread : readable (files w)).
  { intros name e Hin. destruct (Hfiles name _ Hin) as (v' & Hv' & _).
    discriminate Hv'. }
  assert (Hinit : first_minimum [] (None, infinity)).
  { split; [intros c d []|reflexivity]. }
  destruct (compare_loop_first_minimum (t_normalized_distances t) (files w)
              [] (None, infinity) Hread Hreg Hinit)
    as (cds & [bm bd] & Hloop & Hmap & Hdist & Hmin).
  cbn [app] in Hmin.
  unfold recognize_palm, select_files.
  rewrite Himg, Hmodel, Htpl, Hopen. cbn [negb].
  destruct (files w) as [|f fs] eqn:Hfs; [contradiction|].
  rewrite Hloop.
  destruct bm as [bm|].
  - assert (Hbm : registered bm).
    { destruct Hmin as (_ & _ & pre & post & Hcds & _). cbn [fst snd] in Hcds.
      rewrite Forall_forall in Hreg. apply Hreg. rewrite <- Hmap, Hcds.
      rewrite map_app. apply in_or_app. right. now left. }
    destruct (decide_registered w bm bd threshold Hbm)
      as (r & w' & Hdec & Hm & Hdist' & Hphone).
    exists cds, (Some bm, bd), r, w'. cbn [fst snd].
    repeat (split; [assumption|]). split.
    + intros Hmatch. exists bm. split; [reflexivity|]. apply Hphone.
      rewrite Hm in Hmatch. now injection Hmatch.
    + intros _. exact Hm.
  - destruct Hmin as [Hall Hinf]. cbn [fst snd] in Hinf. subst bd.
    eexists cds, (None, infinity), _, _. cbn [fst snd].
    split; [exact Hmap|]. split; [exact Hdist|].
    split; [split; [exact Hall|reflexivity]|].
    split; [reflexivity|]. cbn [is_match data].
    split; [reflexivity|]. split; [reflexivity|]. split.
    + intros H. discriminate H.
    + intros Hthr. now rewrite Hthr.
Qed.

End SearchProperties.

(** C1 (counterexample).  With the threshold [+infinity] and a store whose
    only record shares no key with the query, the best distance is
    [+infinity], which is at most the threshold, and yet no match is
    reported. *)
Lemma open_set_infinite_threshold :
  exists r w',
    recognize_palm (fun l => l) (example_world legacy_store) "palm.jpg" None
      infinity = (Ok r, w') /\
    Dict.get (data r) "distance" = Ok (JNum infinity) /\
    PrimFloat.leb infinity infinity = true /\
    is_match r = Some false.
Proof.
  eexists. eexists. split; [vm_compute; reflexivity|].
  repeat split.
Qed.

Lemma open_set_recognition_witness :
  exists t,
    create_palm_template
      (detector (example_world two_palms) "palm.jpg") = Ok (Some t) /\
    exists cds best r w',
      map fst cds = parsed_values (files (example_world two_palms)) /\
      (forall c d, In (c, d) cds ->
         record_distance (fun l => l) (t_normalized_distances t) c = Ok d) /\
      first_minimum cds best /\
      recognize_palm (fun l => l) (example_world two_palms) "palm.jpg" None
        0.125%float = (Ok r, w') /\
      is_match r =
        Some (match fst best with
              | Some _ => PrimFloat.leb (snd best) 0.125%float
              | None => false
              end) /\
      Dict.get (data r) "distance" = Ok (JNum (snd best)) /\
      (is_match r = Some true ->
       exists bm, fst best = Some bm /\
         Dict.get (data r) "phoneNumber" = getitem bm "phoneNumber") /\
      (PrimFloat.leb infinity 0.125%float = false ->
       is_match r = Some (PrimFloat.leb (snd best) 0.125%float)).
Proof.
  eexists. split; [vm_compute; reflexivity|].
  apply (open_set_recognition (fun l => l) (fun l => Permutation_refl l)
           (example_world two_palms) "palm.jpg" None 0.125%float).
  - reflexivity.
  - reflexivity.
  - vm_compute. reflexivity.
  - reflexivity.
  - discriminate.
  - intros name c H. simpl in H.
    destruct H as [H|[H|[]]]; injection H as <- <-;
      (eexists; split; [reflexivity|]); eexists; eexists; split; reflexivity.
Defined.

(** ** The store and registration (C3, C10) *)

(** *** The store as a map *)

Lemma lookup_in (s : store) (name : string) (c : content) :
  lookup s name = Some c -> In (name, c) s.
Proof.
  induction s as [|[n c'] s IH]; simpl; [discriminate|].
  destruct (String.eqb_spec n name) as [->|Hne].
  - intros H. injection H as ->. now left.
  - intros H. right. auto.
Qed.

Lemma lookup_remove_same (s : store) (name : string) :
  lookup (remove s name) name = None.
Proof.
  induction s as [|[n c] s IH]; simpl; [reflexivity|].
  destruct (String.eqb_spec n name) as [->|Hne]; [exact IH|].
  simpl. destruct (String.eqb_spec n name); [contradiction|exact IH].
Qed.

Lemma lookup_remove_other (s : store) (name n : string) :
  n <> name -> lookup (remove s name) n = lookup s n.
Proof.
  intros Hne. induction s as [|[n' c] s IH]; simpl; [reflexivity|].
  destruct (String.eqb_spec n' name) as [->|Hn'].
  - destruct (String.eqb_spec name n); [congruence|exact IH].
  - simpl. now rewrite IH.
Qed.

Lemma in_remove (s : store) (name n : string) (c : content) :
  In (n, c) (remove s name) -> In (n, c) s /\ n <> name.
Proof.
  induction s as [|[n' c'] s IH]; simpl; [tauto|].
  destruct (String.eqb_spec n' name) as [->|Hn'].
  - intros H. destruct (IH H). tauto.
  - intros [H|H].
    + injection H as -> ->. tauto.
    + destruct (IH H). tauto.
Qed.

Lemma lookup_write_same (s : store) (name : string) (v : json) :
  lookup (write s name v) name = Some (Parsed v).
Proof.
  unfold write. induction s as [|[n c] s IH]; simpl.
  - now rewrite String.eqb_refl.
  - destruct (String.eqb_spec n name) as [->|Hne]; simpl.
    + now rewrite String.eqb_refl.
    + destruct (String.eqb_spec n name); [contradiction|exact IH].
Qed.

Lemma lookup_write_other (s : store) (name n : string) (v : json) :
  n <> name -> lookup (write s name v) n = lookup s n.
Proof.
  intros Hne. unfold write. induction s as [|[n' c] s IH]; simpl.
  - destruct (String.eqb_spec name n); [congruence|reflexivity].
  - destruct (String.eqb_spec n' name) as [->|Hn']; simpl.
    + destruct (String.eqb_spec name n); [congruence|reflexivity].
    + now rewrite IH.
Qed.

Lemma write_fresh (s : store) (name : string) (v : json) :
  lookup s name = None -> write s name v = (s ++ [(name, Parsed v)])%list.
Proof.
  unfold write. induction s as [|[n c] s IH]; simpl; [reflexivity|].
  destruct (String.eqb_spec n name); [discriminate|].
  intros H. now rewrite IH.
Qed.

(** *** Registration (C3, C10) *)


(** Registration up to the write: the outcome is that of [save_palm_data]
    on the new Registration, after two readings of the clock. *)
Lemma register_saves (w : world) (image_path phone_number : string)
    (existing : option json) (w1 : world) (t : template) :
  image_exists w image_path = true ->
  model_loaded w = true ->
  load_palm_data w phone_number = (Ok existing, w1) ->
  is_truthy existing = false ->
  create_palm_template (detector w image_path) = Ok (Some t) ->
  register_palm w image_path phone_number =
    (let reg := registration phone_number t (clock w (ticks w))
                  (clock w (S (ticks w))) in
     let saved := save_palm_data (snd (utcnow (snd (utcnow w1))))
                    phone_number reg in
     if fst saved then
       (Ok {| success := true; is_match := None;
              message := "Palm registered successfully";
              data := [ ("phoneNumber", JStr phone_number);
                        ("signature", JStr (t_signature t));
                        ("registeredAt", JStr (clock w (ticks w))) ] |},
        snd saved)
     else (Ok (failure "Failed to save palm data"), snd saved)).
Proof.
  intros Hi Hm Hload Hf Ht. unfold register_palm.
  rewrite Hi, Hm, Hload, Hf. cbn [negb].
  assert (Hw1 : detector w1 = detector w /\ clock w1 = clock w /\
                ticks w1 = ticks w).
  { unfold load_palm_data in Hload.
    destruct (lookup (files w) phone_number) as [[|e|v]|];
      try discriminate Hload; injection Hload as _ <-; repeat split. }
  destruct Hw1 as (Hd & Hc & Hk).
  rewrite Hd, Ht.
  destruct w1 as [fs tk ck ie ml dt cr so]. cbn [clock ticks] in Hc, Hk.
  subst ck tk. cbv zeta. unfold utcnow, registration.
  cbn [fst snd files ticks clock image_exists model_loaded detector creatable
    str_of].
  destruct (save_palm_data _ _ _) as [[|] w4]; reflexivity.
Qed.

Lemma register_fresh (w : world) (image_path phone_number : string)
    (existing : option json) (w1 : world) (t : template) :
  image_exists w image_path = true ->
  model_loaded w = true ->
  load_palm_data w phone_number = (Ok existing, w1) ->
  is_truthy existing = false ->
  create_palm_template (detector w image_path) = Ok (Some t) ->
  lookup (files w1) phone_number <> None \/ creatable w1 phone_number = true ->
  exists r w',
    register_palm w image_path phone_number = (Ok r, w') /\
    success r = true /\
    message r = "Palm registered successfully" /\
    files w' =
      write (files w1) phone_number
        (registration phone_number t (clock w (ticks w))
           (clock w (S (ticks w)))).
Proof.
  intros Hi Hm Hload Hf Ht Hw.
  rewrite (register_saves w image_path phone_number existing w1 t Hi Hm Hload Hf Ht).
  cbv zeta. unfold save_palm_data, utcnow.
  cbn [snd files creatable].
  destruct (lookup (files w1) phone_number) as [c|] eqn:Hl.
  - cbn [fst snd]. eexists. eexists. split; [reflexivity|].
    cbn [success message files with_files]. auto.
  - destruct Hw as [Hw|Hw]; [now elim Hw|]. rewrite Hw. cbn [fst snd].
    eexists. eexists. split; [reflexivity|].
    cbn [success message files with_files]. auto.
Qed.




(** C10.  When the file of an identity parses to a value that Python takes
    for false, registration never answers with the duplicate-registration
    error, and, given the image, the model and a template, it overwrites the
    file with a new Registration. *)
Theorem register_overwrites_falsy (w : world)
    (image_path phone_number : string) (v : json) :
  lookup (files w) phone_number = Some (Parsed v) ->
  truthy v = false ->
  (forall r,
     fst (register_palm w image_path phone_number) = Ok r ->
     message r <> msg_already_registered) /\
  (forall t,
     image_exists w image_path = true ->
     model_loaded w = true ->
     create_palm_template (detector w image_path) = Ok (Some t) ->
     exists r w',
       register_palm w image_path phone_number = (Ok r, w') /\
       success r = true /\
       files w' =
         write (files w) phone_number
           (registration phone_number t (clock w (ticks w))
              (clock w (S (ticks w)))) /\
       lookup (files w') phone_number =
         Some (Parsed (registration phone_number t (clock w (ticks w))
                         (clock w (S (ticks w)))))) /\
  Forall (fun x => truthy x = false) falsy_values.
Proof.
  intros Hl Hf. split; [|split].
  - intros r. unfold register_palm, load_palm_data.
    destruct (image_exists w image_path); cbn [negb fst].
    + destruct (model_loaded w); cbn [negb fst].
      * rewrite Hl. cbn [is_truthy]. rewrite Hf.
        destruct (create_palm_template (detector w image_path)) as [[t|]|e];
          cbn [utcnow fst]; [| |intros H; discriminate H].
        -- destruct (save_palm_data _ _ _) as [[|] w4]; intros H;
             injection H as <-; cbn [message failure]; discriminate.
        -- intros H. injection H as <-. cbn [message failure]. discriminate.
      * intros H. injection H as <-. cbn [message failure]. discriminate.
    + intros H. injection H as <-. cbn [message failure]. simpl. discriminate.
  - intros t Hi Hm Ht.
    destruct (register_fresh w image_path phone_number (Some v) w t Hi Hm)
      as (r & w' & Hr & Hs & _ & Hfiles); auto.
    { unfold load_palm_data. now rewrite Hl. }
    { left. rewrite Hl. discriminate. }
    exists r, w'. split; [exact Hr|]. split; [exact Hs|].
    split; [exact Hfiles|]. rewrite Hfiles. apply lookup_write_same.
  - unfold falsy_values. repeat constructor.
Qed.


Lemma register_overwrites_falsy_witness :
  (forall r,
     fst (register_palm (example_world falsy_store) "palm.jpg" "555-4444") =
       Ok r ->
     message r <> msg_already_registered) /\
  exists t r w',
    create_palm_template (detector (example_world falsy_store) "palm.jpg") =
      Ok (Some t) /\
    register_palm (example_world falsy_store) "palm.jpg" "555-4444" =
      (Ok r, w') /\
    success r = true /\
    files w' =
      [("555-4444",
        Parsed (registration "555-4444" t "2025-10-05T09:00:00.0"
                  "2025-10-05T09:00:00.1"))].
Proof.
  destruct (register_overwrites_falsy (example_world falsy_store) "palm.jpg"
              "555-4444" (JObj []) eq_refl eq_refl) as (A & B & _).
  split; [exact A|].
  eexists.
  assert (Ht : create_palm_template
                 (detector (example_world falsy_store) "palm.jpg") =
               Ok (Some ?[t])) by (vm_compute; reflexivity).
  destruct (B _ eq_refl eq_refl Ht) as (r & w' & H1 & H2 & H3 & _).
  exists r, w'. split; [exact Ht|]. split; [exact H1|].
  split; [exact H2|]. exact H3.
Defined.

(** ** Corrupt records (C4) *)

Lemma list_loop_drop_corrupt (palm_files : store) (palms : list json) :
  list_loop palm_files palms = list_loop (drop_corrupt palm_files) palms.
Proof.
  revert palms. induction palm_files as [|[name [|e|v]] rest IH]; intros palms.
  - reflexivity.
  - simpl. apply IH.
  - reflexivity.
  - simpl. destruct (palm_entry v) as [e|x]; simpl; [apply IH|reflexivity].
Qed.

Lemma compare_loop_drop_corrupt (set_order : list string -> list string)
    (query : Dict.t float) (palm_files : store) (best : option json * float) :
  compare_loop set_order query palm_files best =
  compare_loop set_order query (drop_corrupt palm_files) best.
Proof.
  revert best. induction palm_files as [|[name [|e|v]] rest IH]; intros best.
  - reflexivity.
  - simpl. apply IH.
  - reflexivity.
  - cbn [compare_loop drop_corrupt].
    destruct (getitem v "normalizedDistances") as [nd|]; cbn [rbind];
      [|reflexivity].
    destruct (calculate_template_distance_json set_order query nd) as [d|];
      cbn [rbind]; [|reflexivity].
    destruct (getitem v "phoneNumber"); cbn [rbind]; [|reflexivity].
    destruct (PrimFloat.ltb d (snd best)); apply IH.
Qed.

Lemma palm_entry_phone (v e : json) :
  palm_entry v = Ok e -> getitem e "phoneNumber" = getitem v "phoneNumber".
Proof.
  unfold palm_entry.
  destruct (getitem v "phoneNumber") as [p|]; simpl; [|discriminate].
  destruct (getitem v "registeredAt") as [r|]; simpl; [|discriminate].
  intros H. injection H as <-. reflexivity.
Qed.

Lemma list_loop_entries (palm_files : store) :
  forall palms l e,
  list_loop palm_files palms = Ok l ->
  In e l ->
  In e palms \/
  exists name v, In (name, Parsed v) palm_files /\ palm_entry v = Ok e.
Proof.
  induction palm_files as [|[name [|x|v]] rest IH]; intros palms l e Hl He.
  - simpl in Hl. injection Hl as <-. now left.
  - simpl in Hl. destruct (IH _ _ _ Hl He) as [H|(n & v & Hin & Hv)];
      [now left|]. right. exists n, v. split; [now right|exact Hv].
  - discriminate Hl.
  - simpl in Hl. destruct (palm_entry v) as [e'|] eqn:Hv; simpl in Hl;
      [|discriminate Hl].
    destruct (IH _ _ _ Hl He) as [H|(n & v' & Hin & Hv')].
    + apply in_app_or in H. destruct H as [H|[<-|[]]]; [now left|].
      right. exists name, v. split; [now left|exact Hv].
    + right. exists n, v'. split; [now right|exact Hv'].
Qed.

Lemma list_loop_total (palm_files : store) :
  forall palms,
  readable palm_files ->
  Forall listable (parsed_values palm_files) ->
  exists l, list_loop palm_files palms = Ok l.
Proof.
  induction palm_files as [|[name [|e|v]] rest IH]; intros palms Hr H;
    simpl in *.
  - eauto.
  - apply IH; [|exact H]. intros n e Hin. apply (Hr n e). now right.
  - elim (Hr name e). now left.
  - inversion H as [|? ? (p & r & Hp & Hr') Hrest]; subst.
    unfold palm_entry. rewrite Hp, Hr'. simpl. apply IH; [|exact Hrest].
    intros n e Hin. apply (Hr n e). now right.
Qed.

Lemma parsed_values_remove (s : store) (name : string) (v : json) :
  In v (parsed_values (remove s name)) -> In v (parsed_values s).
Proof.
  induction s as [|[n [|e|v']] rest IH]; simpl; [tauto| | |].
  - destruct (String.eqb n name); simpl; auto.
  - destruct (String.eqb n name); simpl; auto.
  - destruct (String.eqb n name); simpl; [auto|]. intros [H|H]; auto.
Qed.

Lemma readable_remove (s : store) (name : string) :
  readable s -> readable (remove s name).
Proof.
  intros H n e Hin. apply in_remove in Hin. now apply (H n e).
Qed.

(** A file on which [json.load] raises something else than
    [json.JSONDecodeError] ends the listing and the comparison loop. *)
Lemma list_loop_failing (palm_files : store) (name : string) (e : exn) :
  In (name, Failing e) palm_files ->
  forall palms, exists e', list_loop palm_files palms = Raise e'.
Proof.
  induction palm_files as [|[n [|x|v]] rest IH]; intros Hin palms;
    cbn [list_loop].
  - destruct Hin.
  - destruct Hin as [E|Hin]; [discriminate E|]. now apply IH.
  - eauto.
  - destruct Hin as [E|Hin]; [discriminate E|].
    destruct (palm_entry v) as [entry|x]; cbn [rbind]; [now apply IH|eauto].
Qed.

Lemma compare_loop_failing (set_order : list string -> list string)
    (query : Dict.t float) (palm_files : store) (name : string) (e : exn) :
  In (name, Failing e) palm_files ->
  forall best, exists e', compare_loop set_order query palm_files best = Raise e'.
Proof.
  induction palm_files as [|[n [|x|v]] rest IH]; intros Hin best;
    cbn [compare_loop].
  - destruct Hin.
  - destruct Hin as [E|Hin]; [discriminate E|]. now apply IH.
  - eauto.
  - destruct Hin as [E|Hin]; [discriminate E|].
    destruct (getitem v "normalizedDistances") as [nd|]; cbn [rbind]; [|eauto].
    destruct (calculate_template_distance_json set_order query nd) as [d|];
      cbn [rbind]; [|eauto].
    destruct (getitem v "phoneNumber"); cbn [rbind]; [|eauto].
    destruct (PrimFloat.ltb d (snd best)); now apply IH.
Qed.

(** C4 (as amended).  Loading an identity whose file is no JSON text, so
    that [json.load] raises [json.JSONDecodeError], removes the file and
    returns [None] without raising; in a store keyed by identity a listing
    taken afterwards does not include that identity; and neither the
    listing nor the comparison loop depends on such files: they run as on
    the store without them.  A file on which [json.load] raises another
    exception is not removed: loading it raises that exception and leaves
    the store as it was, and the listing and the comparison loop end with
    an exception. *)
Theorem corrupt_record_is_dropped (w : world) (phone_number : string) :
  (lookup (files w) phone_number = Some Corrupt ->
   fst (load_palm_data w phone_number) = Ok None /\
   files (snd (load_palm_data w phone_number)) =
     remove (files w) phone_number /\
   lookup (files (snd (load_palm_data w phone_number))) phone_number = None /\
   (store_consistent (files w) ->
    forall l e,
      list_registered_palms (snd (load_palm_data w phone_number)) = Ok l ->
      In e (l_palms l) ->
      getitem e "phoneNumber" <> Ok (JStr phone_number)) /\
   (readable (files w) ->
    Forall listable (parsed_values (files w)) ->
    exists l,
      list_registered_palms (snd (load_palm_data w phone_number)) = Ok l)) /\
  list_registered_palms w =
    list_registered_palms (with_files w (drop_corrupt (files w))) /\
  (forall set_order query best,
     compare_loop set_order query (files w) best =
     compare_loop set_order query (drop_corrupt (files w)) best) /\
  (forall e,
     lookup (files w) phone_number = Some (Failing e) ->
     load_palm_data w phone_number = (Raise e, w) /\
     (exists e', list_registered_palms w = Raise e') /\
     (forall set_order query best,
        exists e', compare_loop set_order query (files w) best = Raise e')).
Proof.
  split; [|split; [|split]].
  - intros Hl. unfold load_palm_data. rewrite Hl.
    cbn [fst snd without_file files].
    split; [reflexivity|]. split; [reflexivity|].
    split; [apply lookup_remove_same|]. split.
    + intros Hcons l e Hlist He. unfold list_registered_palms in Hlist.
      cbn [files without_file] in Hlist.
      destruct (list_loop (remove (files w) phone_number) []) as [palms|] eqn:Hp;
        simpl in Hlist; [|discriminate Hlist].
      injection Hlist as <-. cbn [l_palms] in He.
      destruct (list_loop_entries _ _ _ _ Hp He) as [[]|(n & v & Hin & Hv)].
      apply in_remove in Hin. destruct Hin as [Hin Hne].
      rewrite (palm_entry_phone _ _ Hv). intros Hphone.
      apply (Hcons n v _ Hin) in Hphone. injection Hphone as ->. now apply Hne.
    + intros Hread Hall. unfold list_registered_palms.
      cbn [files without_file].
      destruct (list_loop_total (remove (files w) phone_number) []) as [l Hlist].
      { now apply readable_remove. }
      { apply Forall_forall. intros v Hv. rewrite Forall_forall in Hall.
        apply Hall. eapply parsed_values_remove. exact Hv. }
      rewrite Hlist. simpl. eauto.
  - unfold list_registered_palms. cbn [files with_files].
    now rewrite list_loop_drop_corrupt.
  - intros. apply compare_loop_drop_corrupt.
  - intros e Hl. split; [unfold load_palm_data; now rewrite Hl|].
    apply lookup_in in Hl. split.
    + unfold list_registered_palms.
      destruct (list_loop_failing _ _ _ Hl []) as [e' He']. rewrite He'.
      cbn [rbind]. eauto.
    + intros set_order query best.
      now apply (compare_loop_failing set_order query _ _ _ Hl).
Qed.

(** C4 (counterexample).  The file of ["555-2222"] holds bytes that are no
    UTF-8 text: reading it raises [UnicodeDecodeError], which is no
    [json.JSONDecodeError].  Loading that identity raises the error and
    deletes nothing, and the listing and the search over all palms raise it
    too. *)
Lemma undecodable_record_is_kept :
  load_palm_data (example_world undecodable_store) "555-2222" =
    (Raise UnicodeDecodeError, example_world undecodable_store) /\
  list_registered_palms (example_world undecodable_store) =
    Raise UnicodeDecodeError /\
  recognize_palm (fun l => l) (example_world undecodable_store) "palm.jpg"
    None 0.125%float =
    (Raise UnicodeDecodeError, example_world undecodable_store).
Proof.
  split; [reflexivity|]. split; [reflexivity|]. vm_compute. reflexivity.
Qed.

Lemma corrupt_record_is_dropped_witness :
  fst (load_palm_data (example_world corrupt_store) "555-2222") = Ok None /\
  files (snd (load_palm_data (example_world corrupt_store) "555-2222")) =
    [ ("555-1111",
       Parsed (example_record "555-1111" [("middle_knuckle_wrist", 1%float)])) ] /\
  (forall l e,
     list_registered_palms
       (snd (load_palm_data (example_world corrupt_store) "555-2222")) = Ok l ->
     In e (l_palms l) ->
     getitem e "phoneNumber" <> Ok (JStr "555-2222")) /\
  (exists l,
     list_registered_palms
       (snd (load_palm_data (example_world corrupt_store) "555-2222")) = Ok l) /\
  load_palm_data (example_world undecodable_store) "555-2222" =
    (Raise UnicodeDecodeError, example_world undecodable_store).
Proof.
  destruct (proj1 (corrupt_record_is_dropped (example_world corrupt_store)
                     "555-2222") eq_refl) as (H1 & H2 & _ & H4 & H5).
  split; [exact H1|]. split; [exact H2|]. split; [|split].
  - apply H4. intros name v p Hin Hp. simpl in Hin.
    destruct Hin as [Hin|[Hin|[]]]; [|discriminate Hin].
    injection Hin as <- <-. simpl in Hp. now injection Hp as <-.
  - apply H5.
    + intros name e Hin. simpl in Hin.
      destruct Hin as [Hin|[Hin|[]]]; discriminate Hin.
    + simpl. repeat constructor. eexists. eexists. split; reflexivity.
  - apply (proj2 (proj2 (proj2 (corrupt_record_is_dropped
             (example_world undecodable_store) "555-2222")))
             UnicodeDecodeError eq_refl).
Defined.

(** ** The [lastUsed] field (C9) *)

Lemma compare_loop_member (set_order : list string -> list string)
    (query : Dict.t float) (palm_files : store) :
  forall best best',
  compare_loop set_order query palm_files best = Ok best' ->
  fst best' = fst best \/
  exists name v p,
    In (name, Parsed v) palm_files /\ fst best' = Some v /\
    getitem v "phoneNumber" = Ok p.
Proof.
  induction palm_files as [|[name [|e|v]] rest IH]; intros best best' H.
  - simpl in H. injection H as <-. now left.
  - simpl in H. destruct (IH _ _ H) as [E|(n & v & p & Hin & E & Hp)];
      [now left|]. right. exists n, v, p. split; [now right|tauto].
  - discriminate H.
  - cbn [compare_loop] in H.
    destruct (getitem v "normalizedDistances") as [nd|]; cbn [rbind] in H;
      [|discriminate H].
    destruct (calculate_template_distance_json set_order query nd) as [d|];
      cbn [rbind] in H; [|discriminate H].
    destruct (getitem v "phoneNumber") as [p|] eqn:Hp; cbn [rbind] in H;
      [|discriminate H].
    destruct (PrimFloat.ltb d (snd best)).
    + destruct (IH _ _ H) as [E|(n & v' & p' & Hin & E & Hp')].
      * right. exists name, v, p. split; [now left|]. split; [exact E|exact Hp].
      * right. exists n, v', p'. split; [now right|tauto].
    + destruct (IH _ _ H) as [E|(n & v' & p' & Hin & E & Hp')];
        [now left|]. right. exists n, v', p'. split; [now right|tauto].
Qed.



Lemma getitem_setitem_other (v v' x : json) (k k' : string) :
  setitem v k x = Ok v' -> k' <> k -> getitem v' k' = getitem v k'.
Proof.
  destruct v as [| | | | |o]; try discriminate. simpl. intros H Hne.
  injection H as <-. simpl. apply get_set_other. congruence.
Qed.












(** ** The signature (C2, C8) *)

(** The hash function on the test vectors of the standard: the empty
    message, a one-block message and a message that takes two blocks. *)
Example sha256_empty :
  Sha256.hexdigest "" = "e3b0c44298fc1c149afbf4c8996fb92427ae41e4649b934ca495991b7852b855".
Proof. vm_compute. reflexivity. Qed.

Example sha256_abc :
  Sha256.hexdigest "abc" = "ba7816bf8f01cfea414140de5dae2223b00361a396177a9cb410ff61f20015ad".
Proof. vm_compute. reflexivity. Qed.

Example sha256_two_blocks :
  Sha256.hexdigest
    "aaaaaaaaaaaaaaaaaaaaaaaaaaaaaaaaaaaaaaaaaaaaaaaaaaaaaaaaaaaaaaaaaaaaaa" =
  "6bd5e5034855a11241f0dee8fc72850ffd9955b28347a86428b5fa19119f6ad0".
Proof. vm_compute. reflexivity. Qed.


(** *** The order of strings *)

Lemma string_compare_refl (s : string) : String.compare s s = Eq.
Proof.
  induction s as [|c s IH]; simpl; [reflexivity|].
  unfold Ascii.compare. now rewrite N.compare_refl.
Qed.

Lemma string_compare_lt_trans (a b c : string) :
  String.compare a b = Lt -> String.compare b c = Lt -> String.compare a c = Lt.
Proof.
  revert b c. induction a as [|x a IH]; intros [|y b] [|z c]; simpl;
    try discriminate; try reflexivity.
  unfold Ascii.compare.
  destruct (N.compare_spec (N_of_ascii x) (N_of_ascii y)) as [Exy|Lxy|Gxy];
    try discriminate;
    destruct (N.compare_spec (N_of_ascii y) (N_of_ascii z)) as [Eyz|Lyz|Gyz];
    try discriminate; intros H1 H2.
  - rewrite Exy, Eyz, N.compare_refl. eauto.
  - rewrite Exy. now apply N.compare_lt_iff in Lyz as ->.
  - rewrite <- Eyz. now apply N.compare_lt_iff in Lxy as ->.
  - assert (L : (N_of_ascii x < N_of_ascii z)%N) by lia.
    now apply N.compare_lt_iff in L as ->.
Qed.

Lemma string_ltb_irrefl (s : string) : String.ltb s s = false.
Proof. unfold String.ltb. now rewrite string_compare_refl. Qed.

Lemma string_ltb_trans (a b c : string) :
  String.ltb a b = true -> String.ltb b c = true -> String.ltb a c = true.
Proof.
  unfold String.ltb.
  destruct (String.compare a b) eqn:E1; try discriminate.
  destruct (String.compare b c) eqn:E2; try discriminate.
  now rewrite (string_compare_lt_trans _ _ _ E1 E2).
Qed.

Lemma string_ltb_total (a b : string) :
  String.ltb a b = false -> a <> b -> String.ltb b a = true.
Proof.
  unfold String.ltb. rewrite (String.compare_antisym b a).
  destruct (String.compare a b) eqn:E; simpl; try discriminate; auto.
  apply String.compare_eq_iff in E. contradiction.
Qed.

(** *** Insertion sort *)

Section SortProperties.

Variable A : Type.
Variable lt : A -> A -> bool.

Lemma insert_perm (x : A) (l : list A) : Permutation (insert lt x l) (x :: l).
Proof.
  induction l as [|y l IH]; simpl; [reflexivity|].
  destruct (lt x y); [reflexivity|].
  rewrite IH. apply perm_swap.
Qed.

Lemma fold_insert_perm (l : list A) :
  Permutation (fold_right (insert lt) [] l) l.
Proof.
  induction l as [|x l IH]; simpl; [reflexivity|].
  rewrite insert_perm. now constructor.
Qed.

Lemma sorted_perm (l : list A) : Permutation (sorted lt l) l.
Proof.
  unfold sorted. rewrite fold_insert_perm. symmetry. apply Permutation_rev.
Qed.

End SortProperties.

Lemma item_lt_key_lt (a b : string * float) :
  fst a <> fst b -> item_lt a b = key_lt a b.
Proof.
  intros H. unfold item_lt, key_lt.
  destruct (String.eqb_spec (fst a) (fst b)); [contradiction|reflexivity].
Qed.

Lemma insert_item_key (x : string * float) (s : list (string * float)) :
  ~ In (fst x) (map fst s) -> insert item_lt x s = insert key_lt x s.
Proof.
  induction s as [|y s IH]; simpl; intros H; [reflexivity|].
  rewrite item_lt_key_lt by (intros E; apply H; left; now symmetry).
  rewrite IH by (intros E; apply H; now right). reflexivity.
Qed.

Lemma fold_insert_item_key (l : list (string * float)) :
  NoDup (map fst l) ->
  fold_right (insert item_lt) [] l = fold_right (insert key_lt) [] l.
Proof.
  induction l as [|x l IH]; simpl; intros H; [reflexivity|].
  inversion H as [|? ? Hx Hl]; subst. rewrite IH by assumption.
  apply insert_item_key. intros Hin. apply Hx.
  eapply Permutation_in; [|exact Hin].
  apply Permutation_map. apply fold_insert_perm.
Qed.

Lemma sorted_item_key (d : Dict.t float) :
  Dict.wf d -> sorted item_lt d = sorted key_lt d.
Proof.
  intros H. unfold sorted. apply fold_insert_item_key.
  rewrite map_rev. apply NoDup_rev. exact H.
Qed.

Lemma insert_key_sorted (x : string * float) (s : list (string * float)) :
  ~ In (fst x) (map fst s) ->
  by_key_ascending s -> by_key_ascending (insert key_lt x s).
Proof.
  unfold by_key_ascending.
  induction s as [|y s IH]; simpl; intros Hx Hs.
  - constructor; constructor.
  - inversion Hs as [|? ? Hs' Hy]; subst.
    destruct (key_lt x y) eqn:E.
    + constructor; [exact Hs|]. constructor; [exact E|].
      rewrite Forall_forall in *. intros z Hz.
      exact (string_ltb_trans _ _ _ E (Hy z Hz)).
    + constructor; [apply IH; [intros Hin; apply Hx; now right|exact Hs']|].
      rewrite Forall_forall in *. intros z Hz.
      apply (Permutation_in _ (insert_perm _ key_lt x s)) in Hz.
      destruct Hz as [<-|Hz]; [|auto].
      apply string_ltb_total; [exact E|]. intros Heq. apply Hx. left.
      now symmetry.
Qed.

Lemma fold_insert_key_sorted (l : list (string * float)) :
  NoDup (map fst l) -> by_key_ascending (fold_right (insert key_lt) [] l).
Proof.
  induction l as [|x l IH]; simpl; intros H; [constructor|].
  inversion H as [|? ? Hx Hl]; subst.
  apply insert_key_sorted; [|auto]. intros Hin. apply Hx.
  eapply Permutation_in; [|exact Hin].
  apply Permutation_map. apply fold_insert_perm.
Qed.

Lemma sorted_key_ascending (d : Dict.t float) :
  Dict.wf d -> by_key_ascending (sorted key_lt d).
Proof.
  intros H. unfold sorted. apply fold_insert_key_sorted.
  rewrite map_rev. apply NoDup_rev. exact H.
Qed.

Lemma ascending_unique (l1 l2 : list (string * float)) :
  by_key_ascending l1 -> by_key_ascending l2 -> Permutation l1 l2 -> l1 = l2.
Proof.
  unfold by_key_ascending. revert l2.
  induction l1 as [|a l1 IH]; intros l2 H1 H2 Hp.
  - apply Permutation_nil in Hp. now subst.
  - destruct l2 as [|b l2].
    { symmetry in Hp. apply Permutation_nil in Hp. discriminate Hp. }
    inversion H1 as [|? ? H1' Ha]; subst.
    inversion H2 as [|? ? H2' Hb]; subst.
    rewrite Forall_forall in Ha, Hb.
    assert (Hab : a = b).
    { assert (Ina : In a (b :: l2))
        by (apply (Permutation_in _ Hp); now left).
      assert (Inb : In b (a :: l1))
        by (apply (Permutation_in _ (Permutation_sym Hp)); now left).
      destruct Ina as [E|Ina]; [now symmetry|].
      destruct Inb as [E|Inb]; [exact E|].
      pose proof (string_ltb_trans _ _ _ (Ha b Inb) (Hb a Ina)) as Hc.
      rewrite string_ltb_irrefl in Hc. discriminate Hc. }
    subst b. f_equal. apply IH; auto.
    now apply Permutation_cons_inv in Hp.
Qed.

(** *** Reading decimal digits *)

Lemma digit_value_range (c : ascii) (d : Z) :
  digit_value c = Some d -> (0 <= d < 10)%Z.
Proof.
  destruct c as [[] [] [] [] [] [] [] []]; simpl; intros H;
    try discriminate H; injection H as <-; lia.
Qed.

Lemma digit_value_inj (c1 c2 : ascii) (d : Z) :
  digit_value c1 = Some d -> digit_value c2 = Some d -> c1 = c2.
Proof.
  destruct c1 as [[] [] [] [] [] [] [] []]; simpl; intros H1;
    try discriminate H1; injection H1 as <-;
    destruct c2 as [[] [] [] [] [] [] [] []]; simpl; intros H2;
    try discriminate H2; reflexivity.
Qed.

Lemma digit_value_zero (c : ascii) :
  digit_value c = Some 0%Z -> c = "0"%char.
Proof. intros H. now apply (digit_value_inj c "0"%char 0%Z). Qed.

Lemma decimal_acc_split (s : string) :
  forall acc v,
    decimal_acc s acc = Some v ->
    exists u,
      decimal_acc s 0 = Some u /\
      (v = acc * 10 ^ Z.of_nat (String.length s) + u)%Z /\
      (0 <= u < 10 ^ Z.of_nat (String.length s))%Z.
Proof.
  induction s as [|c rest IH]; intros acc v H.
  - cbn [decimal_acc] in *. injection H as <-. exists 0%Z.
    cbn [String.length]. change (10 ^ Z.of_nat 0)%Z with 1%Z.
    split; [reflexivity|]. lia.
  - cbn [decimal_acc] in *.
    destruct (digit_value c) as [d|] eqn:Hd; [|discriminate H].
    pose proof (digit_value_range c d Hd) as Hr.
    destruct (IH _ _ H) as (u & Hu & Hv & Hb).
    replace (10 * 0 + d)%Z with d by lia.
    destruct (decimal_acc rest d) as [u'|] eqn:Hu'.
    + destruct (IH _ _ Hu') as (u0 & Hu0 & Hv0 & Hb0).
      rewrite Hu0 in Hu. injection Hu as <-.
      exists u'. split; [reflexivity|].
      cbn [String.length]. rewrite Nat2Z.inj_succ, Z.pow_succ_r by lia.
      subst v u'. split; nia.
    + exfalso.
      assert (Hnone : forall s a b, decimal_acc s a = None ->
                                    decimal_acc s b = None).
      { clear. induction s as [|c s IHs]; intros a b Hn; cbn [decimal_acc] in *.
        - discriminate Hn.
        - destruct (digit_value c); [eapply IHs; exact Hn|reflexivity]. }
      rewrite (Hnone _ _ (10 * acc + d)%Z Hu') in H. discriminate H.
Qed.

Lemma decimal_acc_inj (s1 : string) :
  forall s2 v,
    String.length s1 = String.length s2 ->
    decimal_acc s1 0 = Some v -> decimal_acc s2 0 = Some v -> s1 = s2.
Proof.
  induction s1 as [|c1 r1 IH]; intros [|c2 r2] v Hlen H1 H2;
    try discriminate Hlen; [reflexivity|].
  cbn [String.length] in Hlen. injection Hlen as Hlen.
  cbn [decimal_acc] in H1, H2.
  destruct (digit_value c1) as [d1|] eqn:Hd1; [|discriminate H1].
  destruct (digit_value c2) as [d2|] eqn:Hd2; [|discriminate H2].
  pose proof (digit_value_range _ _ Hd1) as Hr1.
  pose proof (digit_value_range _ _ Hd2) as Hr2.
  destruct (decimal_acc_split _ _ _ H1) as (u1 & Hu1 & Hv1 & Hb1).
  destruct (decimal_acc_split _ _ _ H2) as (u2 & Hu2 & Hv2 & Hb2).
  rewrite <- Hlen in Hv2, Hb2.
  set (p := (10 ^ Z.of_nat (String.length r1))%Z) in *.
  assert (Hd : d1 = d2) by nia.
  subst d2. assert (Hu : u1 = u2) by nia. subst u2.
  f_equal.
  - exact (digit_value_inj _ _ _ Hd1 Hd2).
  - exact (IH r2 u1 Hlen Hu1 Hu2).
Qed.

Lemma decimal_leading_bounds (c : ascii) (rest : string) (v : Z) :
  c <> "0"%char ->
  decimal_acc (String c rest) 0 = Some v ->
  (10 ^ Z.of_nat (String.length rest) <= v
   < 10 ^ Z.of_nat (S (String.length rest)))%Z.
Proof.
  intros Hc H. cbn [decimal_acc] in H.
  destruct (digit_value c) as [d|] eqn:Hd; [|discriminate H].
  pose proof (digit_value_range _ _ Hd) as Hr.
  assert (Hd0 : d <> 0%Z).
  { intros ->. apply Hc. now apply digit_value_zero. }
  destruct (decimal_acc_split _ _ _ H) as (u & _ & Hv & Hb).
  rewrite Nat2Z.inj_succ, Z.pow_succ_r by lia.
  set (p := (10 ^ Z.of_nat (String.length rest))%Z) in *. nia.
Qed.

(** A numeral without leading zero is the only one for its number. *)
Lemma numeral_unique (s1 s2 : string) (v : Z) :
  no_leading_zero s1 -> no_leading_zero s2 ->
  decimal_value s1 = Some v -> decimal_value s2 = Some v -> s1 = s2.
Proof.
  intros [->|(c1 & r1 & -> & Hc1)] [->|(c2 & r2 & -> & Hc2)] H1 H2;
    unfold decimal_value in H1, H2.
  - reflexivity.
  - cbn in H1. injection H1 as <-.
    pose proof (decimal_leading_bounds _ _ _ Hc2 H2) as [Hb _].
    assert (0 < 10 ^ Z.of_nat (String.length r2))%Z
      by (apply Z.pow_pos_nonneg; lia).
    lia.
  - cbn in H2. injection H2 as <-.
    pose proof (decimal_leading_bounds _ _ _ Hc1 H1) as [Hb _].
    assert (0 < 10 ^ Z.of_nat (String.length r1))%Z
      by (apply Z.pow_pos_nonneg; lia).
    lia.
  - pose proof (decimal_leading_bounds _ _ _ Hc1 H1) as [Hl1 Hu1].
    pose proof (decimal_leading_bounds _ _ _ Hc2 H2) as [Hl2 Hu2].
    assert (Hlen : String.length r1 = String.length r2).
    { destruct (Nat.lt_trichotomy (String.length r1) (String.length r2))
        as [Hlt|[E|Hgt]]; [exfalso|exact E|exfalso].
      - assert (10 ^ Z.of_nat (S (String.length r1))
                <= 10 ^ Z.of_nat (String.length r2))%Z
          by (apply Z.pow_le_mono_r; lia).
        lia.
      - assert (10 ^ Z.of_nat (S (String.length r2))
                <= 10 ^ Z.of_nat (String.length r1))%Z
          by (apply Z.pow_le_mono_r; lia).
        lia. }
    apply (decimal_acc_inj _ _ v); [cbn [String.length]; now f_equal| |];
      assumption.
Qed.

Lemma decimals_unique (s1 s2 : string) (v : Z) :
  String.length s1 = 6%nat -> String.length s2 = 6%nat ->
  decimal_value s1 = Some v -> decimal_value s2 = Some v -> s1 = s2.
Proof.
  intros L1 L2 H1 H2.
  destruct s1 as [|c1 r1]; [discriminate L1|].
  destruct s2 as [|c2 r2]; [discriminate L2|].
  unfold decimal_value in H1, H2.
  apply (decimal_acc_inj _ _ v); [congruence| |]; assumption.
Qed.

Lemma nearest_even_unique (num den n1 n2 : Z) :
  (0 < den)%Z ->
  nearest_even num den n1 -> nearest_even num den n2 -> n1 = n2.
Proof.
  intros Hden [Hb1 He1] [Hb2 He2].
  assert (Hclose : (n1 = n2 \/ n1 = n2 + 1 \/ n2 = n1 + 1)%Z) by nia.
  destruct Hclose as [E|[E|E]]; [exact E| |]; exfalso; subst.
  - assert (E1 : (2 * Z.abs ((n2 + 1) * den - num) = den)%Z) by nia.
    assert (E2 : (2 * Z.abs (n2 * den - num) = den)%Z) by nia.
    specialize (He1 E1). specialize (He2 E2).
    rewrite Z.even_add in He1. rewrite He2 in He1. discriminate He1.
  - assert (E1 : (2 * Z.abs (n1 * den - num) = den)%Z) by nia.
    assert (E2 : (2 * Z.abs ((n1 + 1) * den - num) = den)%Z) by nia.
    specialize (He1 E1). specialize (He2 E2).
    rewrite Z.even_add in He2. rewrite He1 in He2. discriminate He2.
Qed.

(** [six_decimals] leaves no choice: a value has one text in six decimals. *)
Lemma six_decimals_unique (value : float) (s1 s2 : string) :
  six_decimals value s1 -> six_decimals value s2 -> s1 = s2.
Proof.
  unfold six_decimals.
  destruct (Prim2SF value) as [sg|sg| |sg m e]; try congruence.
  intros (n1 & w1 & f1 & Hn1 & -> & Hw1 & Hz1 & Hl1 & Hf1)
         (n2 & w2 & f2 & Hn2 & -> & Hw2 & Hz2 & Hl2 & Hf2).
  assert (Hden : (0 < 2 ^ Z.max (- e) 0)%Z) by (apply Z.pow_pos_nonneg; lia).
  pose proof (nearest_even_unique _ _ _ _ Hden Hn1 Hn2) as E. subst n2.
  rewrite (numeral_unique w1 w2 _ Hz1 Hz2 Hw1 Hw2).
  now rewrite (decimals_unique f1 f2 _ Hl1 Hl2 Hf1 Hf2).
Qed.

(** *** The format of the code gives that text *)

Lemma digit_of_value (d : Z) :
  (0 <= d < 10)%Z -> digit_value (ascii_of_N (48 + Z.to_N d)) = Some d.
Proof.
  intros H.
  assert (E : (d = 0 \/ d = 1 \/ d = 2 \/ d = 3 \/ d = 4 \/ d = 5 \/ d = 6 \/
               d = 7 \/ d = 8 \/ d = 9)%Z) by lia.
  repeat (destruct E as [->|E]; [reflexivity|]). subst d. reflexivity.
Qed.

Lemma fraction_6_length (n : Z) : String.length (fraction_6 n) = 6%nat.
Proof. reflexivity. Qed.

Lemma fraction_6_value (n : Z) :
  (0 <= n)%Z -> decimal_value (fraction_6 n) = Some (n mod 10 ^ 6)%Z.
Proof.
  intros Hn. unfold fraction_6.
  cbn [map string_of_list_ascii decimal_value decimal_acc].
  assert (Hd : forall i, (0 <= (n / 10 ^ Z.of_nat i) mod 10 < 10)%Z)
    by (intros i; apply Z.mod_pos_bound; lia).
  repeat (rewrite digit_of_value by apply Hd).
  f_equal.
  change (Z.of_nat 5) with 5%Z. change (Z.of_nat 4) with 4%Z.
  change (Z.of_nat 3) with 3%Z. change (Z.of_nat 2) with 2%Z.
  change (Z.of_nat 1) with 1%Z. change (Z.of_nat 0) with 0%Z.
  change (10 ^ 0)%Z with 1%Z. change (10 ^ 1)%Z with 10%Z.
  change (10 ^ 2)%Z with 100%Z. change (10 ^ 3)%Z with 1000%Z.
  change (10 ^ 4)%Z with 10000%Z. change (10 ^ 5)%Z with 100000%Z.
  change (10 ^ 6)%Z with 1000000%Z.
  Z.div_mod_to_equations. lia.
Qed.

Lemma scaled_6_nearest (m : positive) (e : Z) :
  nearest_even (Zpos m * 10 ^ 6 * 2 ^ Z.max e 0) (2 ^ Z.max (- e) 0)
    (scaled_6 m e) /\
  (0 <= scaled_6 m e)%Z.
Proof.
  unfold nearest_even, scaled_6.
  change (10 ^ 6)%Z with 1000000%Z.
  destruct e as [|p|p].
  - change (Z.max 0 0) with 0%Z. change (Z.max (- 0) 0) with 0%Z.
    change (2 ^ 0)%Z with 1%Z. split; [split|]; [lia| |lia].
    intros H. exfalso. lia.
  - assert (E1 : Z.max (Z.pos p) 0 = Z.pos p) by lia.
    assert (E2 : Z.max (- Z.pos p) 0 = 0%Z) by lia.
    rewrite E1, E2. change (2 ^ 0)%Z with 1%Z.
    assert (0 < 2 ^ Z.pos p)%Z by (apply Z.pow_pos_nonneg; lia).
    split; [split|]; [lia| |nia].
    intros H'. exfalso. lia.
  - assert (E1 : Z.max (Z.neg p) 0 = 0%Z) by lia.
    assert (E2 : Z.max (- Z.neg p) 0 = Z.pos p) by lia.
    rewrite E1, E2. change (2 ^ 0)%Z with 1%Z.
    change (Z.pow_pos 2 p) with (2 ^ Z.pos p)%Z.
    assert (Hden : (0 < 2 ^ Z.pos p)%Z) by (apply Z.pow_pos_nonneg; lia).
    set (den := (2 ^ Z.pos p)%Z) in *.
    set (num := (Z.pos m * 1000000)%Z).
    replace (Z.pos m * 1000000 * 1)%Z with num by (unfold num; lia).
    assert (Hnum : (0 < num)%Z) by (unfold num; lia).
    pose proof (Z.div_mod num den ltac:(lia)) as Hdm.
    pose proof (Z.mod_pos_bound num den Hden) as Hr.
    assert (Hq : (0 <= num / den)%Z) by (apply Z.div_pos; lia).
    set (q := (num / den)%Z) in *. set (r := (num mod den)%Z) in *.
    destruct (Z.ltb_spec den (2 * r)) as [Hlt|Hge].
    + split; [split|]; [nia| |lia]. intros H. exfalso. nia.
    + destruct (Z.eqb_spec den (2 * r)) as [Heq|Hne]; cbn [andb].
      * destruct (Z.odd q) eqn:Hodd.
        -- split; [split|]; [nia| |lia]. intros _.
           rewrite Z.even_add, <- Z.negb_odd, Hodd. reflexivity.
        -- split; [split|]; [nia| |lia]. intros _.
           now rewrite <- Z.negb_odd, Hodd.
      * split; [split|]; [nia| |lia]. intros H. exfalso. nia.
Qed.

Lemma nzhead_shape (d : Decimal.uint) :
  match Decimal.nzhead d with Decimal.D0 _ => False | _ => True end.
Proof. induction d; simpl; auto. Qed.

Lemma string_of_N_numeral (k : N) :
  decimal_value (string_of_N k) = Some (Z.of_N k) /\
  no_leading_zero (string_of_N k).
Proof.
  unfold string_of_N.
  assert (Hacc : forall d acc,
            decimal_acc (NilEmpty.string_of_uint d) (Z.pos acc) =
            Some (Z.pos (Pos.of_uint_acc d acc))).
  { induction d; intros acc; cbn [NilEmpty.string_of_uint decimal_acc
      digit_value Pos.of_uint_acc]; try reflexivity;
      rewrite <- IHd; f_equal; lia. }
  assert (Hval : forall d,
            decimal_acc (NilEmpty.string_of_uint d) 0 =
            Some (Z.of_N (Pos.of_uint d))).
  { induction d; cbn [NilEmpty.string_of_uint decimal_acc digit_value
      Pos.of_uint]; try reflexivity; try exact IHd;
      cbn [Z.of_N]; rewrite <- Hacc; reflexivity. }
  pose proof (DecimalN.Unsigned.of_to k) as Hof.
  pose proof (DecimalN.Unsigned.to_of (N.to_uint k)) as Hto.
  rewrite Hof in Hto.
  set (d := N.to_uint k) in *. unfold N.of_uint in Hof.
  split.
  - rewrite <- Hof.
    destruct d; [reflexivity|..];
      match goal with |- context [Pos.of_uint ?x] => exact (Hval x) end.
  - unfold Decimal.unorm in Hto. pose proof (nzhead_shape d) as Hs.
    destruct (Decimal.nzhead d); [| contradiction | | | | | | | | |];
      rewrite Hto; unfold no_leading_zero;
      cbn [NilZero.string_of_uint NilEmpty.string_of_uint];
      [left; reflexivity| right; eexists; eexists; split;
                           [reflexivity|discriminate] ..].
Qed.

(** [format_6f] writes every value in six decimals. *)
Lemma format_6f_six_decimals (value : float) :
  six_decimals value (format_6f value).
Proof.
  unfold six_decimals, format_6f.
  destruct (Prim2SF value) as [sg|sg| |sg m e]; try reflexivity.
  destruct (scaled_6_nearest m e) as [Hn Hpos].
  exists (scaled_6 m e), (string_of_N (Z.to_N (scaled_6 m e / 1000000))),
    (fraction_6 (scaled_6 m e)).
  assert (Hq : (0 <= scaled_6 m e / 1000000)%Z) by (apply Z.div_pos; lia).
  destruct (string_of_N_numeral (Z.to_N (scaled_6 m e / 1000000)))
    as [Hv Hz].
  rewrite Z2N.id in Hv by exact Hq.
  split; [exact Hn|]. split; [reflexivity|]. split; [exact Hv|].
  split; [exact Hz|]. split; [reflexivity|].
  now apply fraction_6_value.
Qed.

Lemma rendered_entries (entries : list (string * float)) :
  Forall2 key_value_text entries (map render entries).
Proof.
  induction entries as [|kv entries IH]; constructor; [|exact IH].
  exists (format_6f (snd kv)). split; [apply format_6f_six_decimals|reflexivity].
Qed.

Lemma key_value_text_unique (entries : list (string * float)) :
  forall rendered1 rendered2,
    Forall2 key_value_text entries rendered1 ->
    Forall2 key_value_text entries rendered2 ->
    rendered1 = rendered2.
Proof.
  induction entries as [|kv entries IH]; intros r1 r2 H1 H2;
    inversion H1 as [|? s1 ? t1 (v1 & Hv1 & E1) Ht1]; subst;
    inversion H2 as [|? s2 ? t2 (v2 & Hv2 & E2) Ht2]; subst;
    [reflexivity|].
  rewrite (six_decimals_unique _ _ _ Hv1 Hv2). f_equal. now apply IH.
Qed.

(** C2.  The signature of a dictionary of normalized distances is the first
    16 hexadecimal characters of the SHA-256 hash of the string made of the
    entries sorted by ascending key, each rendered as [key:value] with the
    value in six decimals (the digits of the value times [10^6] rounded to
    the nearest integer, ties to even; [inf], [-inf] and [nan] for the values
    that have no decimals), joined with [|].  The description leaves no
    choice: whatever entries and texts fit it are the ones hashed. *)
Theorem signature_derivation (distances : Dict.t float) :
  Dict.wf distances ->
  exists entries rendered,
    Permutation entries (Dict.items distances) /\
    by_key_ascending entries /\
    Forall2 key_value_text entries rendered /\
    generate_palm_signature distances =
      substring 0 16 (Sha256.hexdigest (String.concat "|" rendered)) /\
    forall entries' rendered',
      Permutation entries' (Dict.items distances) ->
      by_key_ascending entries' ->
      Forall2 key_value_text entries' rendered' ->
      entries' = entries /\ rendered' = rendered.
Proof.
  intros Hwf.
  assert (Hasc : by_key_ascending (sorted item_lt (Dict.items distances))).
  { unfold Dict.items. rewrite (sorted_item_key _ Hwf).
    now apply sorted_key_ascending. }
  exists (sorted item_lt (Dict.items distances)),
    (map render (sorted item_lt (Dict.items distances))).
  split; [apply sorted_perm|]. split; [exact Hasc|].
  split; [apply rendered_entries|]. split; [reflexivity|].
  intros entries' rendered' Hp Ha Hr.
  assert (E : entries' = sorted item_lt (Dict.items distances)).
  { apply ascending_unique; [exact Ha|exact Hasc|].
    apply (Permutation_trans Hp). apply Permutation_sym. apply sorted_perm. }
  subst entries'. split; [reflexivity|].
  exact (key_value_text_unique _ _ _ Hr (rendered_entries _)).
Qed.

Lemma signature_derivation_witness :
  exists entries rendered,
    Permutation entries
      [("ring_knuckle_wrist", 2%float); ("index_knuckle_wrist", 0.5%float);
       ("middle_knuckle_wrist", 1%float)] /\
    by_key_ascending entries /\
    Forall2 key_value_text entries rendered /\
    generate_palm_signature
      [("ring_knuckle_wrist", 2%float); ("index_knuckle_wrist", 0.5%float);
       ("middle_knuckle_wrist", 1%float)] =
      substring 0 16 (Sha256.hexdigest (String.concat "|" rendered)) /\
    forall entries' rendered',
      Permutation entries'
        [("ring_knuckle_wrist", 2%float); ("index_knuckle_wrist", 0.5%float);
         ("middle_knuckle_wrist", 1%float)] ->
      by_key_ascending entries' ->
      Forall2 key_value_text entries' rendered' ->
      entries' = entries /\ rendered' = rendered.
Proof.
  apply (signature_derivation
           [("ring_knuckle_wrist", 2%float); ("index_knuckle_wrist", 0.5%float);
            ("middle_knuckle_wrist", 1%float)]).
  unfold Dict.wf. simpl. repeat constructor; simpl; intuition discriminate.
Defined.

(** The texts of some values: a half, two ties that go to the even digit
    ([1/128] down, [3/128] up), a value below the last decimal, and the
    values without decimals; and six decimals are not any six digits. *)
Example six_decimals_examples :
  six_decimals 0.5%float "0.500000" /\
  six_decimals 0.0078125%float "0.007812" /\
  six_decimals 0.0234375%float "0.023438" /\
  six_decimals 0x1p-22%float "0.000000" /\
  six_decimals 1234.5%float "1234.500000" /\
  six_decimals (-0.25)%float "-0.250000" /\
  six_decimals infinity "inf" /\
  six_decimals nan "nan" /\
  ~ six_decimals 0.5%float "0.000000".
Proof.
  assert (H : forall v, six_decimals v (format_6f v))
    by exact format_6f_six_decimals.
  repeat split;
    try match goal with
        | |- six_decimals ?v ?s => change s with (format_6f v); apply H
        end.
  intros Hbad.
  pose proof (six_decimals_unique _ _ _ Hbad (H 0.5%float)) as E.
  vm_compute in E. discriminate E.
Qed.

Example signature_example :
  generate_palm_signature
    [("ring_knuckle_wrist", 2%float); ("index_knuckle_wrist", 0.5%float);
     ("middle_knuckle_wrist", 1%float)] = "31ad4412d3c2a5db".
Proof. vm_compute. reflexivity. Qed.

(** *** Order independence *)


(** *** Dependence on the rendering only *)










(** ** Further properties of template building *)

Lemma knuckle_distances_short (keypoints : list point) :
  List.length keypoints < 18 ->
  calculate_knuckle_distances keypoints = Raise IndexError.
Proof.
  intros H.
  do 18 (destruct keypoints as [|? keypoints]; [reflexivity|]).
  simpl in H. lia.
Qed.

(** The knuckle points are read at the indices 0, 5, 9, 13 and 17: an array
    of fewer than 18 landmarks makes [keypoints[idx]] raise [IndexError], and
    any array of at least 18 yields the ten canonical entries. *)
Theorem knuckle_distances_bounds (keypoints : list point) :
  (List.length keypoints < 18 ->
   calculate_knuckle_distances keypoints = Raise IndexError) /\
  (18 <= List.length keypoints ->
   exists raw,
     calculate_knuckle_distances keypoints = Ok raw /\
     Dict.keys raw = map canonical_key (unordered_pairs knuckle_names)).
Proof.
  split; intros H.
  - now apply knuckle_distances_short.
  - do 18 (destruct keypoints as [|? keypoints]; [simpl in H; lia|]).
    eexists. split; [reflexivity|]. vm_compute. reflexivity.
Qed.

Lemma knuckle_distances_bounds_witness :
  calculate_knuckle_distances (firstn 17 example_keypoints) = Raise IndexError /\
  exists raw,
    calculate_knuckle_distances (firstn 18 example_keypoints) = Ok raw /\
    Dict.keys raw = map canonical_key (unordered_pairs knuckle_names).
Proof.
  split.
  - apply (proj1 (knuckle_distances_bounds (firstn 17 example_keypoints))).
    simpl. lia.
  - apply (proj2 (knuckle_distances_bounds (firstn 18 example_keypoints))).
    simpl. lia.
Defined.



(** *** The confidence gate *)

Lemma SFcompare_refl (x : spec_float) :
  x <> S754_nan -> SFcompare x x = Some Eq.
Proof.
  destruct x as [s|s| |s m e]; simpl; intros H; try reflexivity;
    try (destruct s; reflexivity); try (now elim H).
  assert (Hm : PosDef.Pos.compare_cont Eq m m = Eq) by apply Pos.compare_refl.
  assert (He : (e ?= e)%Z = Eq) by apply Z.compare_refl.
  destruct s; rewrite He, Hm; reflexivity.
Qed.

Lemma is_nan_spec (x : float) :
  PrimFloat.is_nan x = true <-> Prim2SF x = S754_nan.
Proof.
  unfold PrimFloat.is_nan. rewrite FloatAxioms.eqb_spec. unfold SFeqb. split.
  - intros H. destruct (Prim2SF x) as [s|s| |s m e] eqn:E; try reflexivity;
      rewrite SFcompare_refl in H by discriminate; discriminate H.
  - intros ->. reflexivity.
Qed.

Lemma ltb_nan_r (x y : float) : PrimFloat.is_nan y = true -> PrimFloat.ltb x y = false.
Proof.
  intros H. apply is_nan_spec in H. rewrite ltb_spec, H. unfold SFltb.
  destruct (Prim2SF x); reflexivity.
Qed.

Lemma ltb_nan_l (x y : float) : PrimFloat.is_nan x = true -> PrimFloat.ltb x y = false.
Proof.
  intros H. apply is_nan_spec in H. rewrite ltb_spec, H. reflexivity.
Qed.

Lemma SFcompare_total (x y : spec_float) :
  x <> S754_nan -> y <> S754_nan -> SFcompare x y <> None.
Proof.
  destruct x as [s|s| |s m e], y as [s'|s'| |s' m' e']; simpl; intros Hx Hy;
    try discriminate; try (now elim Hx); try (now elim Hy);
    try (destruct s; discriminate); try (destruct s'; discriminate);
    try (destruct s, s'; discriminate).
Qed.

Lemma not_ltb_leb (a b : float) :
  PrimFloat.is_nan a = false -> PrimFloat.is_nan b = false ->
  PrimFloat.ltb a b = false -> PrimFloat.leb b a = true.
Proof.
  intros Ha Hb. rewrite leb_spec, ltb_spec. unfold SFleb, SFltb.
  assert (Na : Prim2SF a <> S754_nan)
    by (intros E; apply is_nan_spec in E; congruence).
  assert (Nb : Prim2SF b <> S754_nan)
    by (intros E; apply is_nan_spec in E; congruence).
  pose proof (SFcompare_total _ _ Na Nb) as T.
  rewrite (SFcompare_antisym (Prim2SF a) (Prim2SF b)).
  destruct (SFcompare (Prim2SF a) (Prim2SF b)) as [[ | | ]|]; simpl; congruence.
Qed.

Lemma leb_trans (a b c : float) :
  PrimFloat.is_nan a = false -> PrimFloat.is_nan c = false ->
  PrimFloat.leb a b = true -> PrimFloat.leb b c = true ->
  PrimFloat.leb a c = true.
Proof.
  intros Na Nc Hab Hbc.
  destruct (PrimFloat.ltb c a) eqn:Hca; [|now apply not_ltb_leb].
  pose proof (leb_ltb_trans _ _ _ Hbc Hca) as Hba.
  rewrite (leb_not_ltb _ _ Hab) in Hba. discriminate Hba.
Qed.

(** What the loop of [min] leaves: a lower bound of the numbers seen, as
    long as none of them is a NaN. *)
Lemma min_fold_lower (rest : list float) (x : float) :
  PrimFloat.is_nan x = false ->
  (forall c, In c rest -> PrimFloat.is_nan c = false) ->
  PrimFloat.is_nan
    (fold_left (fun m y => if PrimFloat.ltb y m then y else m) rest x) = false /\
  forall c, In c (x :: rest) ->
    PrimFloat.leb
      (fold_left (fun m y => if PrimFloat.ltb y m then y else m) rest x) c = true.
Proof.
  revert x. induction rest as [|y rest IH]; intros x Nx Nr; simpl.
  - split; [exact Nx|]. intros c [<-|[]].
    apply not_ltb_leb; auto using ltb_irrefl.
  - assert (Ny : PrimFloat.is_nan y = false) by (apply Nr; now left).
    assert (Nr' : forall c, In c rest -> PrimFloat.is_nan c = false)
      by (intros c Hc; apply Nr; now right).
    destruct (PrimFloat.ltb y x) eqn:Hyx.
    + destruct (IH y Ny Nr') as [Nm Hm]. split; [exact Nm|].
      intros c [<-|[<-|Hc]].
      * apply ltb_leb.
        apply (leb_ltb_trans _ y); [apply Hm; now left|exact Hyx].
      * apply Hm. now left.
      * apply Hm. now right.
    + destruct (IH x Nx Nr') as [Nm Hm]. split; [exact Nm|].
      intros c [<-|[<-|Hc]].
      * apply Hm. now left.
      * apply (leb_trans _ x); auto.
        -- apply Hm. now left.
        -- now apply not_ltb_leb.
      * apply Hm. now right.
Qed.

Lemma py_min_low (l : list float) (m c : float) :
  py_min l = Ok m ->
  (forall x, In x l -> PrimFloat.is_nan x = false) ->
  In c l -> PrimFloat.ltb c f_half = true ->
  PrimFloat.ltb m f_half = true.
Proof.
  destruct l as [|x rest]; [intros _ _ []|].
  simpl. intros H Hn Hc Hlow. injection H as <-.
  destruct (min_fold_lower rest x) as [_ Hm].
  - apply Hn. now left.
  - intros y Hy. apply Hn. now right.
  - apply (leb_ltb_trans _ c); [now apply Hm|exact Hlow].
Qed.

Lemma knuckle_confidences_mem (confidences : list float)
    (its : list (string * nat)) (kc : list float)
    (name : string) (idx : nat) (c : float) :
  knuckle_confidences confidences its = Ok kc ->
  In (name, idx) its -> nth_error confidences idx = Some c -> In c kc.
Proof.
  revert kc. induction its as [|[n i] its IH]; simpl; intros kc H Hin Hc.
  - destruct Hin.
  - unfold index in H. destruct (nth_error confidences i) as [x|] eqn:Hx;
      simpl in H; [|discriminate H].
    destruct (knuckle_confidences confidences its) as [cs|] eqn:Hcs;
      simpl in H; [|discriminate H].
    injection H as <-. destruct Hin as [E|Hin].
    + injection E as -> ->. left. congruence.
    + right. now apply IH.
Qed.

Lemma knuckle_confidences_long (confidences : list float) :
  18 <= List.length confidences ->
  exists kc, knuckle_confidences confidences knuckle_indices = Ok kc.
Proof.
  intros H.
  destruct (knuckle_confidences_total confidences knuckle_indices)
    as (kc & Hkc & _); [|eauto].
  intros name idx Hin.
  assert (Hi : idx < List.length confidences).
  { simpl in Hin.
    repeat (destruct Hin as [Hin|Hin]; [injection Hin as <- <-; lia|]).
    destruct Hin. }
  apply nth_error_Some in Hi.
  destruct (nth_error confidences idx); [eauto|congruence].
Qed.

(** The gate of [detect_hand_keypoints]: a detection is kept when every one
    of the five knuckle confidences is at least [0.5], and dropped when
    there are fewer than 18 confidences (the exception is caught) or when one
    of the five, none of them a NaN, is below [0.5]. *)
Theorem confidence_gate (keypoints : list point) (confidences : list float) :
  (List.length confidences < 18 ->
   detect_hand_keypoints (Some (keypoints, confidences)) = None) /\
  ((forall name idx, In (name, idx) knuckle_indices ->
      exists c, nth_error confidences idx = Some c /\
                PrimFloat.leb f_half c = true) ->
   detect_hand_keypoints (Some (keypoints, confidences)) =
     Some (keypoints, confidences)) /\
  (18 <= List.length confidences ->
   (forall name idx c, In (name, idx) knuckle_indices ->
      nth_error confidences idx = Some c -> PrimFloat.is_nan c = false) ->
   (exists name idx c, In (name, idx) knuckle_indices /\
      nth_error confidences idx = Some c /\
      PrimFloat.ltb c f_half = true) ->
   detect_hand_keypoints (Some (keypoints, confidences)) = None).
Proof.
  split; [|split].
  - intros H.
    do 18 (destruct confidences as [|? confidences]; [reflexivity|]).
    simpl in H. lia.
  - apply detect_confident.
  - intros Hlen Hnan (name & idx & c & Hin & Hc & Hlow).
    destruct (knuckle_confidences_long confidences Hlen) as [kc Hkc].
    unfold detect_hand_keypoints, Dict.items. rewrite Hkc. cbn [rbind].
    destruct (py_min kc) as [m|e] eqn:Hm; [|reflexivity].
    rewrite (py_min_low kc m c Hm); [reflexivity| | |exact Hlow].
    + intros x Hx.
      destruct (knuckle_confidences_in _ _ _ Hkc x Hx) as (n & i & Hi & Hn).
      now apply (Hnan n i).
    + now apply (knuckle_confidences_mem confidences knuckle_indices kc name idx).
Qed.

Lemma confidence_gate_witness :
  detect_hand_keypoints (Some (example_keypoints, repeat 0.75%float 17)) = None /\
  detect_hand_keypoints (Some (example_keypoints, example_confidences)) =
    Some (example_keypoints, example_confidences) /\
  detect_hand_keypoints
    (Some (example_keypoints, (repeat 0.75%float 9 ++ 0.25%float :: repeat 0.75%float 11)%list)) =
    None.
Proof.
  split; [|split].
  - apply (proj1 (confidence_gate example_keypoints (repeat 0.75%float 17))).
    simpl. lia.
  - apply (proj1 (proj2 (confidence_gate example_keypoints example_confidences))).
    intros name idx H. simpl in H.
    repeat (destruct H as [H|H];
            [injection H as <- <-; eexists; split; reflexivity|]).
    destruct H.
  - apply (proj2 (proj2 (confidence_gate example_keypoints
             (repeat 0.75%float 9 ++ 0.25%float :: repeat 0.75%float 11)%list))).
    + simpl. lia.
    + intros name idx c H. simpl in H.
      repeat (destruct H as [H|H];
              [injection H as <- <-; simpl; intros E; injection E as <-;
               reflexivity|]).
      destruct H.
    + exists "middle_knuckle", 9%nat, 0.25%float.
      split; [simpl; tauto|]. split; reflexivity.
Defined.

(** Python's [min] keeps a NaN it starts from: when the confidence of the
    wrist, the first knuckle point, is a NaN, the gate lets the detection
    through whatever the four other confidences are. *)
Theorem nan_wrist_passes_gate (keypoints : list point)
    (confidences : list float) (c : float) :
  18 <= List.length confidences ->
  nth_error confidences 0 = Some c ->
  PrimFloat.is_nan c = true ->
  detect_hand_keypoints (Some (keypoints, confidences)) =
    Some (keypoints, confidences).
Proof.
  intros Hlen Hc Hnan.
  do 18 (destruct confidences as [|? confidences]; [simpl in Hlen; lia|]).
  simpl in Hc. injection Hc as ->.
  unfold detect_hand_keypoints. simpl.
  rewrite !(ltb_nan_r _ c Hnan). rewrite (ltb_nan_l c _ Hnan). reflexivity.
Qed.

Lemma nan_wrist_passes_gate_witness :
  detect_hand_keypoints
    (Some (example_keypoints, nan :: repeat 0.125%float 20)) =
  Some (example_keypoints, nan :: repeat 0.125%float 20).
Proof.
  apply (nan_wrist_passes_gate example_keypoints (nan :: repeat 0.125%float 20) nan).
  - simpl. lia.
  - reflexivity.
  - reflexivity.
Defined.

(** ** Further properties of normalization and of the signature *)

(** Without the reference key the first entry of the dictionary is the
    reference: every value is divided by the first value.  An empty
    dictionary has no first key, and [list(distances.keys())[0]] raises
    [IndexError]. *)
Theorem normalize_falls_back_to_first_key :
  normalize_distances [] = Raise IndexError /\
  forall (k : string) (r : float) (rest : Dict.t float),
    Dict.wf ((k, r) :: rest) ->
    Dict.mem reference_key ((k, r) :: rest) = false ->
    normalize_distances ((k, r) :: rest) =
      Ok (map (fun kv => (fst kv, PrimFloat.div (snd kv) r)) ((k, r) :: rest)).
Proof.
  split; [reflexivity|].
  intros k r rest Hwf Hmem. unfold normalize_distances.
  rewrite Hmem. cbn [Dict.keys map index nth_error rbind fst].
  cbn [Dict.get]. rewrite String.eqb_refl. cbn [rbind]. f_equal.
  unfold Dict.items.
  rewrite (fold_set_map (fun v => PrimFloat.div v r) ((k, r) :: rest) [] []);
    auto.
Qed.

Lemma normalize_falls_back_to_first_key_witness :
  normalize_distances [("index_knuckle_wrist", 4%float); ("pinky_knuckle_wrist", 3%float)] =
  Ok [("index_knuckle_wrist", PrimFloat.div 4%float 4%float);
      ("pinky_knuckle_wrist", PrimFloat.div 3%float 4%float)].
Proof.
  apply (proj2 normalize_falls_back_to_first_key
           "index_knuckle_wrist" 4%float [("pinky_knuckle_wrist", 3%float)]).
  - unfold Dict.wf. simpl. repeat constructor; simpl; intuition discriminate.
  - reflexivity.
Defined.

(** *** The shape of a signature *)

Lemma round_length (st : list Z * list Z) (k : Z) :
  List.length (fst (Sha256.round st k)) = 8%nat.
Proof. destruct st as [v w]. unfold Sha256.round. reflexivity. Qed.

Lemma rounds_length (ks : list Z) (st : list Z * list Z) :
  ks <> [] -> List.length (fst (fold_left Sha256.round ks st)) = 8%nat.
Proof.
  revert st. induction ks as [|k ks IH]; intros st H; [now elim H|].
  cbn [fold_left]. destruct ks as [|k' ks'].
  - apply round_length.
  - apply IH. discriminate.
Qed.

Lemma compress_length (h block : list Z) :
  List.length h = 8%nat -> List.length (Sha256.compress h block) = 8%nat.
Proof.
  intros H. unfold Sha256.compress.
  pose proof (rounds_length Sha256.K (h, block)) as Hr.
  destruct (fold_left Sha256.round Sha256.K (h, block)) as [v w].
  cbn [fst] in Hr. rewrite length_map, length_combine, H, Hr; [reflexivity|].
  discriminate.
Qed.

Lemma fold_left_step {A B : Type} (f : A -> B -> A) (b : B) (bs : list B)
    (a : A) :
  fold_left f (b :: bs) a = fold_left f bs (f a b).
Proof. reflexivity. Qed.

Lemma fold_compress_length (bs : list (list Z)) (h : list Z) :
  List.length h = 8%nat ->
  List.length (fold_left Sha256.compress bs h) = 8%nat.
Proof.
  revert h. induction bs as [|b bs IH]; intros h Hh; [exact Hh|].
  rewrite fold_left_step. apply IH. apply compress_length. exact Hh.
Qed.

Lemma digest_length (msg : list Z) : List.length (Sha256.digest msg) = 8%nat.
Proof.
  unfold Sha256.digest. apply fold_compress_length. reflexivity.
Qed.

Lemma hex_digit_lowercase (x : Z) : lowercase_hex (Sha256.hex_digit x) = true.
Proof.
  unfold Sha256.hex_digit.
  destruct (Z.to_nat x) as [|n]; [reflexivity|].
  do 15 (destruct n as [|n]; [reflexivity|]).
  simpl. destruct n; reflexivity.
Qed.

Lemma hex_word_shape (w : Z) :
  List.length (Sha256.hex_word w) = 8%nat /\
  Forall (fun c => lowercase_hex c = true) (Sha256.hex_word w).
Proof.
  unfold Sha256.hex_word. split.
  - rewrite length_map. reflexivity.
  - apply Forall_forall. intros c Hc.
    apply in_map_iff in Hc. destruct Hc as (i & <- & _).
    apply hex_digit_lowercase.
Qed.

Lemma hex_words_shape (ws : list Z) :
  List.length (flat_map Sha256.hex_word ws) = (8 * List.length ws)%nat /\
  Forall (fun c => lowercase_hex c = true) (flat_map Sha256.hex_word ws).
Proof.
  induction ws as [|w ws [IHl IHf]]; [split; [reflexivity|constructor]|].
  destruct (hex_word_shape w) as [Hl Hf].
  cbn [flat_map List.length]. split.
  - rewrite length_app, IHl, Hl. lia.
  - apply Forall_app. split; assumption.
Qed.

Lemma list_ascii_of_substring (n : nat) (s : string) :
  list_ascii_of_string (substring 0 n s) = firstn n (list_ascii_of_string s).
Proof.
  revert s. induction n as [|n IH]; intros s.
  - destruct s; reflexivity.
  - destruct s as [|c s]; simpl; [reflexivity|]. now rewrite IH.
Qed.

Lemma string_length_list (s : string) :
  String.length s = List.length (list_ascii_of_string s).
Proof. induction s as [|c s IH]; simpl; congruence. Qed.

(** Whatever the distances are, an empty dictionary included, the signature
    is sixteen lowercase hexadecimal characters. *)
Theorem signature_shape (distances : Dict.t float) :
  String.length (generate_palm_signature distances) = 16%nat /\
  Forall (fun c => lowercase_hex c = true)
    (list_ascii_of_string (generate_palm_signature distances)).
Proof.
  unfold generate_palm_signature.
  set (text := String.concat "|" _).
  rewrite string_length_list, list_ascii_of_substring.
  unfold Sha256.hexdigest. rewrite list_ascii_of_string_of_list_ascii.
  destruct (hex_words_shape (Sha256.digest (Sha256.bytes_of_string text)))
    as [Hl Hf].
  rewrite digest_length in Hl. split.
  - rewrite length_firstn, Hl. reflexivity.
  - apply Forall_forall. intros c Hc. rewrite Forall_forall in Hf.
    apply Hf. rewrite <- (firstn_skipn 16). apply in_or_app. left. exact Hc.
Qed.

(** ** Further properties of the template distance *)

Lemma sub_self (x : float) : finite x = true -> PrimFloat.sub x x = f_zero.
Proof.
  intros H. apply Prim2SF_inj. rewrite sub_spec. unfold finite in H.
  destruct (Prim2SF x) as [s|s| |s m e]; try discriminate H.
  - destruct s; reflexivity.
  - unfold SF64sub, SFsub. rewrite Z.min_id. unfold shl_align.
    rewrite (Z.sub_diag e). cbn [fst]. rewrite Z.sub_diag. reflexivity.
Qed.

Lemma add_nan_l (x y : float) :
  PrimFloat.is_nan x = true -> PrimFloat.is_nan (PrimFloat.add x y) = true.
Proof.
  intros H. apply is_nan_spec in H. apply is_nan_spec.
  rewrite add_spec, H. reflexivity.
Qed.

Lemma add_nan_r (x y : float) :
  PrimFloat.is_nan y = true -> PrimFloat.is_nan (PrimFloat.add x y) = true.
Proof.
  intros H. apply is_nan_spec in H. apply is_nan_spec.
  rewrite add_spec, H. destruct (Prim2SF x); reflexivity.
Qed.

Lemma sub_nan_l (x y : float) :
  PrimFloat.is_nan x = true -> PrimFloat.is_nan (PrimFloat.sub x y) = true.
Proof.
  intros H. apply is_nan_spec in H. apply is_nan_spec.
  rewrite sub_spec, H. reflexivity.
Qed.

Lemma sub_nan_r (x y : float) :
  PrimFloat.is_nan y = true -> PrimFloat.is_nan (PrimFloat.sub x y) = true.
Proof.
  intros H. apply is_nan_spec in H. apply is_nan_spec.
  rewrite sub_spec, H. destruct (Prim2SF x); reflexivity.
Qed.

Lemma mul_nan (x y : float) :
  PrimFloat.is_nan x = true -> PrimFloat.is_nan (PrimFloat.mul x y) = true.
Proof.
  intros H. apply is_nan_spec in H. apply is_nan_spec.
  rewrite mul_spec, H. reflexivity.
Qed.

Lemma sqrt_nan (x : float) :
  PrimFloat.is_nan x = true -> PrimFloat.is_nan (PrimFloat.sqrt x) = true.
Proof.
  intros H. apply is_nan_spec in H. apply is_nan_spec.
  rewrite sqrt_spec, H. reflexivity.
Qed.

Lemma leb_nan_l (x y : float) :
  PrimFloat.is_nan x = true -> PrimFloat.leb x y = false.
Proof.
  intros H. apply is_nan_spec in H. rewrite leb_spec, H. reflexivity.
Qed.

Section DistanceEdges.

Variable set_order : list string -> list string.
Hypothesis set_order_perm : forall l, Permutation (set_order l) l.

Lemma sum_squares_self (d : Dict.t float) (ks : list string) :
  (forall k, In k ks -> exists v, Dict.get d k = Ok v /\ finite v = true) ->
  sum_squares d d ks f_zero = Ok f_zero.
Proof.
  induction ks as [|k ks IH]; intros H; [reflexivity|].
  destruct (H k (or_introl eq_refl)) as (v & Hv & Hf).
  cbn [sum_squares]. rewrite Hv. cbn [rbind].
  rewrite (sub_self v Hf).
  change (PrimFloat.add f_zero (PrimFloat.mul f_zero f_zero)) with f_zero.
  apply IH. intros k' Hk'. apply H. now right.
Qed.

Lemma template_distance_self (d : Dict.t float) :
  d <> [] ->
  (forall k v, Dict.get d k = Ok v -> finite v = true) ->
  calculate_template_distance set_order d d = Ok f_zero.
Proof.
  intros Hne Hfin. unfold calculate_template_distance.
  destruct (common_keys set_order d d) as [|k0 ks0] eqn:E.
  - destruct d as [|[k v] rest]; [now elim Hne|].
    assert (Hin : In k (common_keys set_order ((k, v) :: rest) ((k, v) :: rest))).
    { apply (common_keys_spec set_order set_order_perm). simpl. tauto. }
    rewrite E in Hin. destruct Hin.
  - cbn [List.length Nat.eqb]. rewrite sum_squares_self; [reflexivity|].
    intros k Hk.
    assert (Hin : In k (common_keys set_order d d)) by (rewrite E; exact Hk).
    apply (common_keys_spec set_order set_order_perm) in Hin.
    destruct (in_keys_get d k (proj1 Hin)) as [v Hv]. eauto.
Qed.

(** A vector is at distance [0.0] from itself, as long as it is not empty
    and holds neither an infinity nor a NaN. *)
Theorem distance_to_itself (d : Dict.t float) :
  d <> [] ->
  (forall k v, Dict.get d k = Ok v -> finite v = true) ->
  calculate_template_distance set_order d d = Ok f_zero.
Proof.
  intros Hne Hfin.
  destruct d as [|kv rest]; [now elim Hne|].
  apply template_distance_self; [discriminate|exact Hfin].
Qed.

Lemma fold_squares_nan_acc (a b : Dict.t float) (ks : list string) (acc : float) :
  PrimFloat.is_nan acc = true ->
  PrimFloat.is_nan
    (fold_left
       (fun acc k =>
          let diff := PrimFloat.sub (component a k) (component b k) in
          PrimFloat.add acc (PrimFloat.mul diff diff))
       ks acc) = true.
Proof.
  revert acc. induction ks as [|k ks IH]; intros acc H; [exact H|].
  cbn [fold_left]. apply IH. now apply add_nan_l.
Qed.

Lemma fold_squares_nan (a b : Dict.t float) (ks : list string) (acc : float)
    (k : string) :
  In k ks ->
  PrimFloat.is_nan (component a k) = true \/
  PrimFloat.is_nan (component b k) = true ->
  PrimFloat.is_nan
    (fold_left
       (fun acc k =>
          let diff := PrimFloat.sub (component a k) (component b k) in
          PrimFloat.add acc (PrimFloat.mul diff diff))
       ks acc) = true.
Proof.
  revert acc. induction ks as [|k' ks IH]; intros acc Hin Hnan; [destruct Hin|].
  cbn [fold_left]. destruct Hin as [->|Hin]; [|now apply IH].
  apply fold_squares_nan_acc. apply add_nan_r, mul_nan.
  destruct Hnan as [H|H]; [now apply sub_nan_l|now apply sub_nan_r].
Qed.

(** A NaN under a key that both vectors hold makes the distance a NaN,
    which is neither below nor within any number: such a pair is never a
    best match and never within a threshold. *)
Theorem nan_poisons_distance (a b : Dict.t float) (k : string) (x y : float) :
  Dict.get a k = Ok x -> Dict.get b k = Ok y ->
  PrimFloat.is_nan x = true \/ PrimFloat.is_nan y = true ->
  exists d,
    calculate_template_distance set_order a b = Ok d /\
    PrimFloat.is_nan d = true /\
    forall z, PrimFloat.ltb d z = false /\ PrimFloat.leb d z = false.
Proof.
  intros Ha Hb Hnan.
  rewrite (calculate_template_distance_common set_order set_order_perm).
  assert (Hin : In k (common_keys set_order a b)).
  { apply (common_keys_spec set_order set_order_perm). split.
    - apply mem_in_keys. clear -Ha.
      induction a as [|[k' v] a IH]; simpl in *; [discriminate Ha|].
      destruct (String.eqb k' k); [reflexivity|]. simpl. now apply IH.
    - apply mem_in_keys. clear -Hb.
      induction b as [|[k' v] b IH]; simpl in *; [discriminate Hb|].
      destruct (String.eqb k' k); [reflexivity|]. simpl. now apply IH. }
  destruct (common_keys set_order a b) as [|k0 ks0] eqn:E; [destruct Hin|].
  eexists. split; [reflexivity|].
  assert (Hd : PrimFloat.is_nan (euclidean_over a b (k0 :: ks0)) = true).
  { unfold euclidean_over. apply sqrt_nan.
    apply (fold_squares_nan a b (k0 :: ks0) f_zero k Hin).
    unfold component. rewrite Ha, Hb. exact Hnan. }
  split; [exact Hd|]. intros z. split.
  - now apply ltb_nan_l.
  - now apply leb_nan_l.
Qed.

End DistanceEdges.

Lemma distance_to_itself_witness :
  calculate_template_distance (fun l => l)
    [("middle_knuckle_wrist", 1%float); ("index_knuckle_wrist", 0.5%float)]
    [("middle_knuckle_wrist", 1%float); ("index_knuckle_wrist", 0.5%float)] =
  Ok f_zero.
Proof.
  apply (distance_to_itself (fun l => l)).
  - intros l. apply Permutation_refl.
  - discriminate.
  - intros k v H. cbn [Dict.get] in H.
    destruct (String.eqb "middle_knuckle_wrist" k);
      [injection H as <-; reflexivity|].
    destruct (String.eqb "index_knuckle_wrist" k);
      [injection H as <-; reflexivity|discriminate H].
Defined.

Lemma nan_poisons_distance_witness :
  exists d,
    calculate_template_distance (fun l => l)
      [("middle_knuckle_wrist", nan); ("index_knuckle_wrist", 0.5%float)]
      [("middle_knuckle_wrist", 1%float); ("index_knuckle_wrist", 0.5%float)] =
      Ok d /\
    PrimFloat.is_nan d = true /\
    forall z, PrimFloat.ltb d z = false /\ PrimFloat.leb d z = false.
Proof.
  apply (nan_poisons_distance (fun l => l)
           (fun l => Permutation_refl l)
           [("middle_knuckle_wrist", nan); ("index_knuckle_wrist", 0.5%float)]
           [("middle_knuckle_wrist", 1%float); ("index_knuckle_wrist", 0.5%float)]
           "middle_knuckle_wrist" nan 1%float).
  - reflexivity.
  - reflexivity.
  - left. reflexivity.
Defined.

(** ** Further properties of the store commands *)

Lemma remove_absent (s : store) (name : string) :
  lookup s name = None -> remove s name = s.
Proof.
  induction s as [|[n c] s IH]; simpl; intros H; [reflexivity|].
  destruct (String.eqb n name); [discriminate H|]. now rewrite IH.
Qed.

Lemma remove_appended (s : store) (name : string) (c : content) :
  lookup s name = None -> remove (s ++ [(name, c)])%list name = s.
Proof.
  induction s as [|[n c'] s IH]; simpl; intros H.
  - now rewrite String.eqb_refl.
  - destruct (String.eqb n name); [discriminate H|]. now rewrite IH.
Qed.

(** What a first registration returns and the state it leaves, when the
    record file can be created: the clock has been read twice and the
    Registration is the last file of the store. *)
Lemma register_new (w : world) (image_path phone_number : string)
    (t : template) :
  lookup (files w) phone_number = None ->
  creatable w phone_number = true ->
  image_exists w image_path = true ->
  model_loaded w = true ->
  create_palm_template (detector w image_path) = Ok (Some t) ->
  register_palm w image_path phone_number =
    (Ok {| success := true; is_match := None;
           message := "Palm registered successfully";
           data := [ ("phoneNumber", JStr phone_number);
                     ("signature", JStr (t_signature t));
                     ("registeredAt", JStr (clock w (ticks w))) ] |},
     {| files :=
          (files w ++
           [(phone_number,
             Parsed (registration phone_number t (clock w (ticks w))
                       (clock w (S (ticks w)))))])%list;
        ticks := S (S (ticks w));
        clock := clock w;
        image_exists := image_exists w;
        model_loaded := model_loaded w;
        detector := detector w;
        creatable := creatable w;
        str_of := str_of w |}).
Proof.
  intros Hl Hc Hi Hm Ht.
  rewrite <- (write_fresh (files w) phone_number _ Hl).
  destruct w as [fs tk ck ie ml dt cr so].
  cbn [files image_exists model_loaded detector ticks clock creatable str_of]
    in *.
  subst ml. unfold register_palm, load_palm_data.
  cbn [files image_exists model_loaded detector ticks clock].
  rewrite Hi, Hl. cbn [negb is_truthy detector]. rewrite Ht.
  unfold utcnow, save_palm_data.
  cbn [files image_exists model_loaded detector ticks clock creatable str_of].
  rewrite Hl, Hc. reflexivity.
Qed.



(** Registering a new identity, for which a record file can be created, and
    deleting it again gives back the store as it was, file for file. *)
Theorem register_then_delete (w : world) (image_path phone_number : string)
    (t : template) :
  lookup (files w) phone_number = None ->
  creatable w phone_number = true ->
  image_exists w image_path = true ->
  model_loaded w = true ->
  create_palm_template (detector w image_path) = Ok (Some t) ->
  let w1 := snd (register_palm w image_path phone_number) in
  success (fst (delete_palm w1 phone_number)) = true /\
  files (snd (delete_palm w1 phone_number)) = files w.
Proof.
  intros Hl Hc Hi Hm Ht.
  rewrite (register_new w image_path phone_number t Hl Hc Hi Hm Ht).
  cbn [snd]. unfold delete_palm. cbn [files].
  assert (Hf : lookup (files w ++ [(phone_number,
                  Parsed (registration phone_number t (clock w (ticks w))
                            (clock w (S (ticks w)))))])%list phone_number
               = Some (Parsed (registration phone_number t (clock w (ticks w))
                                 (clock w (S (ticks w)))))).
  { rewrite <- (write_fresh (files w) phone_number _ Hl).
    apply lookup_write_same. }
  rewrite Hf. cbn [fst snd success files without_file].
  split; [reflexivity|]. now apply remove_appended.
Qed.

Lemma register_then_delete_witness :
  success
    (fst (delete_palm
            (snd (register_palm (example_world two_palms) "palm.jpg" "555-3333"))
            "555-3333")) = true /\
  files
    (snd (delete_palm
            (snd (register_palm (example_world two_palms) "palm.jpg" "555-3333"))
            "555-3333")) = files (example_world two_palms).
Proof.
  destruct (create_palm_template
              (detector (example_world two_palms) "palm.jpg")) as [[t|]|e] eqn:E;
    [|vm_compute in E; discriminate E|vm_compute in E; discriminate E].
  apply (register_then_delete (example_world two_palms) "palm.jpg" "555-3333" t).
  - reflexivity.
  - reflexivity.
  - reflexivity.
  - reflexivity.
  - exact E.
Defined.

(** An identity that is registered can register anew once its registration
    has been deleted, as the duplicate-registration message asks. *)
Theorem delete_then_register (w : world) (image_path phone_number : string)
    (c : content) (t : template) :
  lookup (files w) phone_number = Some c ->
  image_exists w image_path = true ->
  model_loaded w = true ->
  create_palm_template (detector w image_path) = Ok (Some t) ->
  let w1 := snd (delete_palm w phone_number) in
  exists r w2,
    register_palm w1 image_path phone_number = (Ok r, w2) /\
    success r = true /\
    lookup (files w2) phone_number =
      Some (Parsed (registration phone_number t (clock w (ticks w))
                      (clock w (S (ticks w))))) /\
    forall n, n <> phone_number -> lookup (files w2) n = lookup (files w) n.
Proof.
  intros Hl Hi Hm Ht. unfold delete_palm. rewrite Hl. cbn [snd].
  set (w1 := without_file w phone_number).
  assert (Hl1 : lookup (files w1) phone_number = None)
    by apply lookup_remove_same.
  assert (Hc1 : creatable w1 phone_number = true).
  { unfold w1. cbn [creatable without_file]. now rewrite String.eqb_refl. }
  rewrite (register_new w1 image_path phone_number t Hl1 Hc1 Hi Hm Ht).
  eexists. eexists. split; [reflexivity|]. cbn [success files].
  split; [reflexivity|]. split.
  - rewrite <- (write_fresh (files w1) phone_number _ Hl1).
    apply lookup_write_same.
  - intros n Hn.
    rewrite <- (write_fresh (files w1) phone_number _ Hl1).
    rewrite lookup_write_other by exact Hn.
    unfold w1. cbn [files without_file]. now apply lookup_remove_other.
Qed.

Lemma delete_then_register_witness :
  exists r w2,
    register_palm (snd (delete_palm (example_world two_palms) "555-1111"))
      "palm.jpg" "555-1111" = (Ok r, w2) /\
    success r = true.
Proof.
  destruct (create_palm_template
              (detector (example_world two_palms) "palm.jpg")) as [[t|]|e] eqn:E;
    [|vm_compute in E; discriminate E|vm_compute in E; discriminate E].
  destruct (delete_then_register (example_world two_palms) "palm.jpg" "555-1111"
              (Parsed (example_record "555-1111"
                         [("middle_knuckle_wrist", 1%float);
                          ("index_knuckle_wrist", 0.5%float)])) t)
    as (r & w2 & H1 & H2 & _).
  - reflexivity.
  - reflexivity.
  - reflexivity.
  - exact E.
  - exists r, w2. split; [exact H1|exact H2].
Defined.


(** ** Further properties of the listing *)

Lemma palm_entry_listed (v e : json) : palm_entry v = Ok e -> listed v e.
Proof.
  unfold palm_entry, listed. intros H.
  destruct (getitem v "phoneNumber") as [p|] eqn:Hp; [|discriminate H].
  destruct (getitem v "registeredAt") as [r|] eqn:Hr; [|discriminate H].
  cbn [rbind] in H. injection H as <-. exists p, r. auto.
Qed.

Lemma list_loop_listed (palm_files : store) :
  forall palms l,
  list_loop palm_files palms = Ok l ->
  exists es,
    l = (palms ++ es)%list /\ Forall2 listed (parsed_values palm_files) es.
Proof.
  induction palm_files as [|[name [|x|v]] rest IH]; intros palms l H;
    cbn [list_loop parsed_values] in *.
  - injection H as <-. exists []. split; [now rewrite app_nil_r|constructor].
  - now apply IH.
  - discriminate H.
  - destruct (palm_entry v) as [e|] eqn:He; [|discriminate H].
    cbn [rbind] in H. destruct (IH _ _ H) as (es & -> & Hes).
    exists (e :: es). split; [now rewrite <- app_assoc|].
    constructor; [now apply palm_entry_listed|exact Hes].
Qed.

(** When [list_registered_palms] returns, it reports success, the count is
    the number of files that parse, and the entries are those of these
    files, in the order of the directory enumeration. *)
Theorem listing_shows_parseable_files (w : world) (l : listing) :
  list_registered_palms w = Ok l ->
  l_success l = true /\
  l_count l = List.length (l_palms l) /\
  l_count l = List.length (parsed_values (files w)) /\
  Forall2 listed (parsed_values (files w)) (l_palms l).
Proof.
  unfold list_registered_palms. intros H.
  destruct (list_loop (files w) []) as [palms|] eqn:Hl; [|discriminate H].
  cbn [rbind] in H. injection H as <-. cbn [l_success l_count l_palms].
  destruct (list_loop_listed _ _ _ Hl) as (es & -> & Hes). cbn [app].
  repeat split; try reflexivity; [|exact Hes].
  symmetry. eapply Forall2_length. exact Hes.
Qed.

Lemma listing_shows_parseable_files_witness :
  exists l,
    list_registered_palms (example_world corrupt_store) = Ok l /\
    l_success l = true /\
    l_count l = List.length (l_palms l) /\
    l_count l = List.length (parsed_values (files (example_world corrupt_store))) /\
    Forall2 listed (parsed_values (files (example_world corrupt_store))) (l_palms l).
Proof.
  destruct (list_registered_palms (example_world corrupt_store)) as [l|e] eqn:E;
    [|vm_compute in E; discriminate E].
  exists l. split; [reflexivity|].
  apply (listing_shows_parseable_files (example_world corrupt_store) l).
  exact E.
Defined.

Lemma getitem_error (v : json) (k : string) (e : exn) :
  getitem v k = Raise e -> e = KeyError \/ e = TypeError.
Proof.
  destruct v as [| | | | |o]; simpl; intros H;
    try (injection H as <-; now right).
  induction o as [|[k' x] o IH]; simpl in H.
  - injection H as <-. now left.
  - destruct (String.eqb k' k); [discriminate H|now apply IH].
Qed.

Lemma palm_entry_unlistable (v : json) :
  ~ listable v ->
  exists e, palm_entry v = Raise e /\ (e = KeyError \/ e = TypeError).
Proof.
  intros H. unfold palm_entry.
  destruct (getitem v "phoneNumber") as [p|e] eqn:Hp.
  - destruct (getitem v "registeredAt") as [r|e] eqn:Hr.
    + elim H. exists p, r. auto.
    + exists e. split; [reflexivity|]. eapply getitem_error; exact Hr.
  - exists e. split; [reflexivity|]. eapply getitem_error; exact Hp.
Qed.

Lemma palm_entry_error (v : json) (e : exn) :
  palm_entry v = Raise e -> e = KeyError \/ e = TypeError.
Proof.
  unfold palm_entry. intros H.
  destruct (getitem v "phoneNumber") as [p|e1] eqn:Hp.
  - destruct (getitem v "registeredAt") as [r|e2] eqn:Hr.
    + discriminate H.
    + cbn [rbind] in H. injection H as <-. eapply getitem_error; exact Hr.
  - cbn [rbind] in H. injection H as <-. eapply getitem_error; exact Hp.
Qed.

Lemma list_loop_unlistable (palm_files : store) (name : string) (v : json) :
  In (name, Parsed v) palm_files ->
  ~ listable v ->
  forall palms,
  exists e, list_loop palm_files palms = Raise e /\
            (e = KeyError \/ e = TypeError \/
             exists n, In (n, Failing e) palm_files).
Proof.
  intros Hin Hv.
  induction palm_files as [|[n [|x|v']] rest IH]; intros palms;
    cbn [list_loop]; [destruct Hin| | |].
  - destruct Hin as [E|Hin]; [discriminate E|].
    destruct (IH Hin palms) as (e & He & [Hk|[Hk|[m Hm]]]);
      exists e; (split; [exact He|]); auto.
    right. right. exists m. now right.
  - exists x. split; [reflexivity|]. right. right. exists n. now left.
  - destruct (palm_entry v') as [e'|e'] eqn:He.
    + cbn [rbind]. destruct Hin as [E|Hin].
      * injection E as -> ->.
        destruct (palm_entry_unlistable v Hv) as (e & He' & _). congruence.
      * destruct (IH Hin (palms ++ [e'])%list) as (e & He2 & [Hk|[Hk|[m Hm]]]);
          exists e; (split; [exact He2|]); auto.
        right. right. exists m. now right.
    + cbn [rbind]. exists e'. split; [reflexivity|].
      destruct (palm_entry_error v' e' He) as [H|H]; auto.
Qed.

(** A file that parses but holds no phone number or no registration time,
    or is no JSON object at all, is not skipped as a file that is no JSON
    text is: the listing ends with an exception, the [KeyError] or
    [TypeError] of such a record, or the exception of a file that cannot be
    read. *)
Theorem unlistable_record_aborts_listing (w : world) (name : string) (v : json) :
  In (name, Parsed v) (files w) ->
  ~ listable v ->
  exists e,
    list_registered_palms w = Raise e /\
    (e = KeyError \/ e = TypeError \/ exists n, In (n, Failing e) (files w)).
Proof.
  intros Hin Hv. unfold list_registered_palms.
  destruct (list_loop_unlistable (files w) name v Hin Hv []) as (e & He & Hk).
  exists e. rewrite He. split; [reflexivity|exact Hk].
Qed.

Lemma unlistable_record_aborts_listing_witness :
  exists e,
    list_registered_palms (example_world (two_palms ++ falsy_store)%list) =
      Raise e /\
    (e = KeyError \/ e = TypeError \/
     exists n,
       In (n, Failing e)
         (files (example_world (two_palms ++ falsy_store)%list))).
Proof.
  apply (unlistable_record_aborts_listing
           (example_world (two_palms ++ falsy_store)%list) "555-4444" (JObj [])).
  - simpl. tauto.
  - intros (p & r & Hp & _). discriminate Hp.
Defined.

(** The exception is not always that of the record: a file that cannot be
    read and comes first in the enumeration ends the listing with its own. *)
Example unlistable_after_undecodable :
  list_registered_palms
    (example_world (undecodable_store ++ [("555-4444", Parsed (JObj []))])%list) =
    Raise UnicodeDecodeError.
Proof. vm_compute. reflexivity. Qed.

(** ** Further properties of recognition *)

Section RecognitionEdges.

Variable set_order : list string -> list string.


Lemma decide_match_phone (w : world) (bm : json) (bd threshold : float)
    (r : response) (w' : world) :
  decide w (Some bm, bd) threshold = (Ok r, w') ->
  is_match r = Some true ->
  Dict.get (data r) "phoneNumber" = getitem bm "phoneNumber" /\
  Dict.get (data r) "distance" = Ok (JNum bd) /\
  PrimFloat.leb bd threshold = true.
Proof.
  unfold decide. intros H Hmatch.
  destruct (truthy bm && PrimFloat.leb bd threshold) eqn:Hc.
  - apply andb_prop in Hc. destruct Hc as [_ Hle].
    destruct (utcnow w) as [now w1].
    destruct (setitem bm "lastUsed" (JStr now)) as [bm'|] eqn:Hs;
      cbn [rbind] in H; [|discriminate H].
    destruct (getitem bm' "phoneNumber") as [phone|] eqn:Hp;
      cbn [rbind] in H; [|discriminate H].
    destruct (save_palm_data w1 (file_name w1 phone) bm') as [saved w2].
    injection H as <- <-. cbn [data]. split; [|split; [reflexivity|exact Hle]].
    cbn [Dict.get]. cbn. rewrite <- Hp.
    apply (getitem_setitem_other bm bm' (JStr now) "lastUsed" "phoneNumber").
    + exact Hs.
    + discriminate.
  - injection H as <- <-. discriminate Hmatch.
Qed.

(** With a phone number, recognition compares against the file of that
    identity and no other: a reported match is a match with the record of
    that file, within the threshold, whatever other palms are registered. *)
Theorem closed_set_matches_named_file (w : world) (image_path p : string)
    (threshold : float) (r : response) (w' : world) :
  p <> "" ->
  recognize_palm set_order w image_path (Some p) threshold = (Ok r, w') ->
  is_match r = Some true ->
  exists v d,
    lookup (files w) p = Some (Parsed v) /\
    Dict.get (data r) "phoneNumber" = getitem v "phoneNumber" /\
    Dict.get (data r) "distance" = Ok (JNum d) /\
    PrimFloat.leb d threshold = true.
Proof.
  intros Hp H Hmatch. unfold recognize_palm in H.
  destruct (negb (image_exists w image_path));
    [injection H as <- <-; discriminate Hmatch|].
  destruct (negb (model_loaded w));
    [injection H as <- <-; discriminate Hmatch|].
  destruct (create_palm_template (detector w image_path)) as [[t|]|e];
    [|injection H as <- <-; discriminate Hmatch|discriminate H].
  unfold select_files, given in H.
  destruct (String.eqb_spec p "") as [E|_]; [contradiction|].
  destruct (lookup (files w) p) as [c|] eqn:Hl;
    [|injection H as <- <-; discriminate Hmatch].
  destruct c as [|x|v]; cbn [compare_loop] in H.
  - unfold decide in H. injection H as <- <-. discriminate Hmatch.
  - discriminate H.
  - destruct (getitem v "normalizedDistances") as [nd|]; cbn [rbind] in H;
      [|discriminate H].
    destruct (calculate_template_distance_json set_order
                (t_normalized_distances t) nd)
      as [distance|]; cbn [rbind] in H; [|discriminate H].
    destruct (getitem v "phoneNumber") as [ph|] eqn:Hph; cbn [rbind] in H;
      [|discriminate H].
    cbn [snd] in H.
    destruct (PrimFloat.ltb distance infinity).
    + destruct (decide_match_phone _ _ _ _ _ _ H Hmatch) as (H1 & H2 & H3).
      exists v, distance. repeat split; assumption.
    + unfold decide in H. injection H as <- <-. discriminate Hmatch.
Qed.

End RecognitionEdges.


Lemma closed_set_matches_named_file_witness :
  exists r w',
    recognize_palm (fun l => l) (example_world two_palms) "palm.jpg"
      (Some "555-2222") 1000%float = (Ok r, w') /\
    exists v d,
      lookup (files (example_world two_palms)) "555-2222" = Some (Parsed v) /\
      Dict.get (data r) "phoneNumber" = getitem v "phoneNumber" /\
      Dict.get (data r) "distance" = Ok (JNum d) /\
      PrimFloat.leb d 1000%float = true.
Proof.
  eexists. eexists. split; [vm_compute; reflexivity|].
  eapply (closed_set_matches_named_file (fun l => l) (example_world two_palms)
            "palm.jpg" "555-2222" 1000%float).
  - discriminate.
  - vm_compute. reflexivity.
  - reflexivity.
Defined.

(** A record need not be as [register_palm] writes it to be matched.  The
    text under a key the template does not have is never read, the boolean
    is subtracted as the number [1.0], and the match is reported with the
    phone number [None]; the record is then saved under the name Python
    gives that value, here a new file. *)
Example untidy_record_is_matched :
  exists r w',
    recognize_palm (fun l => l) (example_world untidy_store) "palm.jpg"
      (Some "555-7777") 1000%float = (Ok r, w') /\
    is_match r = Some true /\
    Dict.get (data r) "phoneNumber" = Ok JNull /\
    lookup (files w') "None" <> None /\
    lookup (files w') "555-7777" = lookup untidy_store "555-7777".
Proof.
  eexists. eexists. split; [vm_compute; reflexivity|].
  split; [reflexivity|]. split; [reflexivity|].
  split; [discriminate|reflexivity].
Qed.

(** ** Every template that is built *)

Lemma detect_returns_input (raw : option (list point * list float))
    (keypoints : list point) (confidences : list float) :
  detect_hand_keypoints raw = Some (keypoints, confidences) ->
  raw = Some (keypoints, confidences).
Proof.
  unfold detect_hand_keypoints. destruct raw as [[kp cf]|]; [|discriminate].
  destruct (rbind _ _) as [m|]; [|discriminate].
  destruct (PrimFloat.ltb m f_half); [discriminate|]. auto.
Qed.

Lemma knuckle_distances_keys_ok (keypoints : list point) (raw : Dict.t float) :
  calculate_knuckle_distances keypoints = Ok raw ->
  Dict.keys raw = map canonical_key (unordered_pairs knuckle_names).
Proof.
  intros H.
  destruct (Nat.ltb_spec (List.length keypoints) 18) as [Hlt|Hge].
  - rewrite (knuckle_distances_short keypoints Hlt) in H. discriminate H.
  - do 18 (destruct keypoints as [|? keypoints]; [simpl in Hge; lia|]).
    vm_compute in H. injection H as <-. vm_compute. reflexivity.
Qed.

(** The parts of a built template. *)
Lemma template_parts (raw : option (list point * list float)) (t : template) :
  create_palm_template raw = Ok (Some t) ->
  exists keypoints confidences raw_distances r,
    raw = Some (keypoints, confidences) /\
    calculate_knuckle_distances keypoints = Ok raw_distances /\
    Dict.keys raw_distances = map canonical_key (unordered_pairs knuckle_names) /\
    Dict.get raw_distances reference_key = Ok r /\
    t_keypoints t = keypoints /\
    t_confidences t = confidences /\
    t_raw_distances t = raw_distances /\
    t_normalized_distances t =
      map (fun kv => (fst kv, PrimFloat.div (snd kv) r)) raw_distances /\
    t_signature t = generate_palm_signature (t_normalized_distances t).
Proof.
  unfold create_palm_template. intros H.
  destruct (detect_hand_keypoints raw) as [[kp cf]|] eqn:Hd; [|discriminate H].
  apply detect_returns_input in Hd.
  destruct (calculate_knuckle_distances kp) as [rd|] eqn:Hr;
    cbn [rbind] in H; [|discriminate H].
  pose proof (knuckle_distances_keys_ok kp rd Hr) as Hk.
  assert (Hwf : Dict.wf rd).
  { unfold Dict.wf. rewrite Hk. apply canonical_keys_nodup. }
  destruct (mem_get rd reference_key) as [r Href].
  { apply mem_in_keys. rewrite Hk. vm_compute. tauto. }
  rewrite (normalize_wf rd r Hwf Href) in H. cbn [rbind] in H.
  injection H as <-.
  exists kp, cf, rd, r. cbn.
  repeat split; auto.
Qed.

(** Whatever the detector returned, a template that [create_palm_template]
    builds holds the ten canonical keys in its raw and in its normalized
    vector, every normalized value is the raw value divided by the raw
    value at ["middle_knuckle_wrist"], and the signature is that of the
    normalized vector. *)
Theorem built_template_invariant (raw : option (list point * list float))
    (t : template) :
  create_palm_template raw = Ok (Some t) ->
  Dict.keys (t_raw_distances t) =
    map canonical_key (unordered_pairs knuckle_names) /\
  Dict.keys (t_normalized_distances t) =
    map canonical_key (unordered_pairs knuckle_names) /\
  (exists r,
     Dict.get (t_raw_distances t) reference_key = Ok r /\
     forall k v, Dict.get (t_raw_distances t) k = Ok v ->
       Dict.get (t_normalized_distances t) k = Ok (PrimFloat.div v r)) /\
  t_signature t = generate_palm_signature (t_normalized_distances t).
Proof.
  intros H.
  destruct (template_parts raw t H)
    as (kp & cf & rd & r & _ & _ & Hk & Href & _ & _ & Hrd & Hnd & Hs).
  rewrite Hrd, Hnd. split; [exact Hk|]. split.
  - rewrite (keys_map_values (fun x => PrimFloat.div x r)). exact Hk.
  - split; [|rewrite <- Hnd; exact Hs].
    exists r. split; [exact Href|]. intros k v Hv.
    rewrite (get_map_values (fun x => PrimFloat.div x r)), Hv. reflexivity.
Qed.

Lemma built_template_invariant_witness :
  exists t,
    create_palm_template (Some (example_keypoints, example_confidences)) =
      Ok (Some t) /\
    Dict.keys (t_raw_distances t) =
      map canonical_key (unordered_pairs knuckle_names) /\
    Dict.keys (t_normalized_distances t) =
      map canonical_key (unordered_pairs knuckle_names) /\
    (exists r,
       Dict.get (t_raw_distances t) reference_key = Ok r /\
       forall k v, Dict.get (t_raw_distances t) k = Ok v ->
         Dict.get (t_normalized_distances t) k = Ok (PrimFloat.div v r)) /\
    t_signature t = generate_palm_signature (t_normalized_distances t).
Proof.
  destruct (create_palm_template (Some (example_keypoints, example_confidences)))
    as [[t|]|e] eqn:E;
    [|vm_compute in E; discriminate E|vm_compute in E; discriminate E].
  exists t. split; [reflexivity|].
  apply (built_template_invariant (Some (example_keypoints, example_confidences)) t).
  exact E.
Defined.

(** ** Registration followed by recognition *)

Section RegisterRecognize.

Variable set_order : list string -> list string.
Hypothesis set_order_perm : forall l, Permutation (set_order l) l.


End RegisterRecognize.


(** ** The in-memory database *)

Section InMemoryDatabase.

Import PalmRecognitionSystem.

Lemma get_set_same {V : Type} (d : Dict.t V) (k : string) (x : V) :
  Dict.get (Dict.set d k x) k = Ok x.
Proof.
  induction d as [|[k' v] d IH]; simpl.
  - now rewrite String.eqb_refl.
  - destruct (String.eqb k' k) eqn:E; simpl; rewrite E; [reflexivity|exact IH].
Qed.

Lemma mem_set_same {V : Type} (d : Dict.t V) (k : string) (x : V) :
  Dict.mem k (Dict.set d k x) = true.
Proof.
  induction d as [|[k' v] d IH]; simpl.
  - now rewrite String.eqb_refl.
  - destruct (String.eqb k' k) eqn:E; simpl; rewrite E; [reflexivity|exact IH].
Qed.

Lemma in_set_same {V : Type} (d : Dict.t V) (k : string) (x : V) :
  exists k', In (k', x) (Dict.set d k x).
Proof.
  induction d as [|[k0 v] d IH]; simpl.
  - exists k. now left.
  - destruct (String.eqb k0 k).
    + exists k0. now left.
    + destruct IH as [k' Hk']. exists k'. now right.
Qed.

(** What a successful [register_palm] has done. *)
Lemma register_true (s s1 : system) (image_path name : string) :
  PalmRecognitionSystem.register_palm s image_path name = (Ok true, s1) ->
  exists t,
    model s = true /\
    create_palm_template (inference s image_path) = Ok (Some t) /\
    Dict.mem (t_signature t) (palm_database s) = false /\
    s1 = {| model := model s;
            palm_database :=
              Dict.set (palm_database s) (t_signature t)
                {| tpl := t; person_name := Some name |};
            database_file :=
              Pickled (Dict.set (palm_database s) (t_signature t)
                         {| tpl := t; person_name := Some name |});
            inference := inference s |}.
Proof.
  unfold PalmRecognitionSystem.register_palm, create_template. intros H.
  destruct (model s) eqn:Hm; [|discriminate H].
  destruct (create_palm_template (inference s image_path)) as [[t|]|e] eqn:Ht;
    try discriminate H.
  cbn [tpl] in H.
  destruct (Dict.mem (t_signature t) (palm_database s)) eqn:Hmem;
    [discriminate H|].
  injection H as <-. exists t. unfold save_database.
  cbn [model palm_database database_file inference]. auto.
Qed.

(** A successful [register_palm] stores the template under its signature,
    leaves the other entries alone and saves the database; from then on a
    registration whose template has that signature, from the same image or
    from another one, under the same name or under another one, is refused
    and changes nothing. *)
Theorem signature_registers_once (s s1 : system) (image_path name : string) :
  PalmRecognitionSystem.register_palm s image_path name = (Ok true, s1) ->
  exists t,
    create_palm_template (inference s image_path) = Ok (Some t) /\
    Dict.get (palm_database s1) (t_signature t) =
      Ok {| tpl := t; person_name := Some name |} /\
    (forall k, k <> t_signature t ->
       Dict.get (palm_database s1) k = Dict.get (palm_database s) k) /\
    database_file s1 = Pickled (palm_database s1) /\
    forall image_path' name' t',
      create_palm_template (inference s image_path') = Ok (Some t') ->
      t_signature t' = t_signature t ->
      PalmRecognitionSystem.register_palm s1 image_path' name' = (Ok false, s1).
Proof.
  intros H. destruct (register_true s s1 image_path name H)
    as (t & Hm & Ht & Hmem & ->).
  exists t. cbn [palm_database database_file].
  split; [exact Ht|]. split; [apply get_set_same|].
  split; [intros k Hk; apply get_set_other; congruence|].
  split; [reflexivity|].
  intros image_path' name' t' Ht' Hsig.
  unfold PalmRecognitionSystem.register_palm, create_template.
  cbn [model inference palm_database]. rewrite Hm, Ht'. cbn [tpl].
  rewrite Hsig, mem_set_same. reflexivity.
Qed.

Lemma signature_registers_once_witness :
  exists s1 t,
    PalmRecognitionSystem.register_palm (example_system []) "palm.jpg" "Ada" =
      (Ok true, s1) /\
    create_palm_template (inference (example_system []) "palm.jpg") =
      Ok (Some t) /\
    Dict.get (palm_database s1) (t_signature t) =
      Ok {| tpl := t; person_name := Some "Ada" |} /\
    PalmRecognitionSystem.register_palm s1 "other.jpg" "Bob" = (Ok false, s1).
Proof.
  destruct (PalmRecognitionSystem.register_palm (example_system []) "palm.jpg" "Ada")
    as [res s1] eqn:E.
  assert (Hres : res = Ok true).
  { apply (f_equal fst) in E. vm_compute in E. now symmetry. }
  subst res.
  destruct (signature_registers_once (example_system []) s1 "palm.jpg" "Ada" E)
    as (t & Ht & Hg & _ & _ & Hdup).
  exists s1, t. split; [reflexivity|]. split; [exact Ht|]. split; [exact Hg|].
  apply (Hdup "other.jpg" "Bob" t); [exact Ht|reflexivity].
Defined.

(** The database a new object starts with is the one that was saved last:
    a successful registration is there after a restart.  Without a database
    file, or with one that does not load, the object starts empty. *)
Theorem database_survives_restart (s s1 : system) (image_path name : string)
    (model_available : bool)
    (detect : string -> option (list point * list float)) :
  PalmRecognitionSystem.register_palm s image_path name = (Ok true, s1) ->
  palm_database (init model_available (database_file s1) detect) =
    palm_database s1 /\
  palm_database (init model_available NoFile detect) = [] /\
  palm_database (init model_available Unreadable detect) = [].
Proof.
  intros H. destruct (register_true s s1 image_path name H)
    as (t & _ & _ & _ & ->).
  repeat split.
Qed.

Lemma database_survives_restart_witness :
  exists s1,
    PalmRecognitionSystem.register_palm (example_system []) "palm.jpg" "Ada" =
      (Ok true, s1) /\
    palm_database
      (init true (database_file s1)
         (fun _ => Some (example_keypoints, example_confidences))) =
      palm_database s1.
Proof.
  destruct (PalmRecognitionSystem.register_palm (example_system []) "palm.jpg" "Ada")
    as [res s1] eqn:E.
  assert (Hres : res = Ok true).
  { apply (f_equal fst) in E. vm_compute in E. now symmetry. }
  subst res. exists s1. split; [reflexivity|].
  apply (proj1 (database_survives_restart (example_system []) s1 "palm.jpg" "Ada"
                  true (fun _ => Some (example_keypoints, example_confidences)) E)).
Defined.

Lemma ltb_true_not_nan (a b : float) :
  PrimFloat.ltb a b = true -> PrimFloat.is_nan a = false.
Proof.
  intros H. destruct (PrimFloat.is_nan a) eqn:E; [|reflexivity].
  rewrite (ltb_nan_l a b E) in H. discriminate H.
Qed.

Lemma leb_true_not_nan (a b : float) :
  PrimFloat.leb a b = true ->
  PrimFloat.is_nan a = false /\ PrimFloat.is_nan b = false.
Proof.
  intros H. split.
  - destruct (PrimFloat.is_nan a) eqn:E; [|reflexivity].
    rewrite (leb_nan_l a b E) in H. discriminate H.
  - destruct (PrimFloat.is_nan b) eqn:E; [|reflexivity].
    apply is_nan_spec in E. rewrite leb_spec, E in H. unfold SFleb in H.
    destruct (Prim2SF a); discriminate H.
Qed.

Lemma leb_refl (a : float) :
  PrimFloat.is_nan a = false -> PrimFloat.leb a a = true.
Proof.
  intros H. apply not_ltb_leb; auto using ltb_irrefl.
Qed.

Section InMemorySearch.

Variable set_order : list string -> list string.
Hypothesis set_order_perm : forall l, Permutation (set_order l) l.

(** What the search loop leaves: a distance that is no NaN and is at most
    the one it started from and at most that of every entry whose distance
    is no NaN; and a best match that is an entry of the database, unless
    none was found and the distance is still [+infinity]. *)
Lemma search_bound (query : Dict.t float)
    (database : list (string * palm_template)) :
  forall best,
  PrimFloat.is_nan (snd best) = false ->
  (fst best = None -> snd best = infinity) ->
  exists best',
    search set_order query database best = Ok best' /\
    PrimFloat.is_nan (snd best') = false /\
    PrimFloat.leb (snd best') (snd best) = true /\
    (forall k e d, In (k, e) database ->
       calculate_template_distance set_order query
         (t_normalized_distances (tpl e)) = Ok d ->
       PrimFloat.is_nan d = false ->
       PrimFloat.leb (snd best') d = true) /\
    (fst best' = None -> snd best' = infinity /\ fst best = None) /\
    (forall e, fst best' = Some e ->
       fst best = Some e \/ exists k, In (k, e) database).
Proof.
  induction database as [|[k0 e0] rest IH]; intros best Hn Hinf.
  - exists best. cbn [search]. split; [reflexivity|].
    split; [exact Hn|]. split; [now apply leb_refl|].
    split; [intros k e d []|]. split; [auto|]. intros e He. now left.
  - cbn [search].
    destruct (distance_total set_order set_order_perm query
                (t_normalized_distances (tpl e0))) as [d0 Hd0].
    rewrite Hd0. cbn [rbind].
    destruct (PrimFloat.ltb d0 (snd best)) eqn:Hlt.
    + destruct (IH (Some e0, d0)) as (best' & Hs & Hn' & Hle & Hall & Hnone & Hsome).
      { cbn [snd]. eapply ltb_true_not_nan; exact Hlt. }
      { discriminate. }
      cbn [fst snd] in *.
      exists best'. split; [exact Hs|]. split; [exact Hn'|]. split.
      { apply ltb_leb. apply (leb_ltb_trans _ d0); assumption. }
      split.
      { intros k e d [E|Hin] Hd Hnd.
        - injection E as <- <-. rewrite Hd0 in Hd. injection Hd as <-. exact Hle.
        - now apply (Hall k e d). }
      split.
      { intros E. destruct (Hnone E) as [_ Hx]. discriminate Hx. }
      intros e He. destruct (Hsome e He) as [E|[k Hk]].
      * injection E as <-. right. exists k0. now left.
      * right. exists k. now right.
    + destruct (IH best Hn Hinf) as (best' & Hs & Hn' & Hle & Hall & Hnone & Hsome).
      exists best'. split; [exact Hs|]. split; [exact Hn'|].
      split; [exact Hle|]. split.
      { intros k e d [E|Hin] Hd Hnd.
        - injection E as <- <-. rewrite Hd0 in Hd. injection Hd as <-.
          apply (leb_trans _ (snd best)); auto.
          now apply not_ltb_leb.
        - now apply (Hall k e d). }
      split; [exact Hnone|].
      intros e He. destruct (Hsome e He) as [E|[k Hk]]; [now left|].
      right. exists k. now right.
Qed.

(** Recognition without a model, or when no hand is detected, returns
    [None]; on an empty database it reports no match at distance
    [+infinity], whatever the threshold, [+infinity] included. *)
Theorem recognize_in_empty_database (s : system) (image_path : string)
    (threshold : float) :
  (model s = false ->
   PalmRecognitionSystem.recognize_palm set_order s image_path threshold =
     Ok None) /\
  (create_palm_template (inference s image_path) = Ok None ->
   PalmRecognitionSystem.recognize_palm set_order s image_path threshold =
     Ok None) /\
  (forall t,
     model s = true ->
     create_palm_template (inference s image_path) = Ok (Some t) ->
     palm_database s = [] ->
     PalmRecognitionSystem.recognize_palm set_order s image_path threshold =
       Ok (Some {| r_match := false; r_person_name := None;
                   r_distance := infinity; r_threshold := threshold;
                   r_signature := None |})).
Proof.
  unfold PalmRecognitionSystem.recognize_palm, create_template.
  split; [|split].
  - intros H. now rewrite H.
  - intros H. rewrite H. now destruct (model s).
  - intros t Hm Ht Hdb. rewrite Hm, Ht, Hdb. reflexivity.
Qed.

(** Recognizing the image a palm was just registered with, the template's
    normalized distances being finite and the threshold not negative: a
    match is reported, with an entry of the database, at a distance that is
    at most [0.0].  When the database was empty before, the entry is the
    one just registered and the distance is [0.0]. *)
Theorem register_then_recognize_in_memory (s s1 : system)
    (image_path name : string) (t : template) (threshold : float) :
  PalmRecognitionSystem.register_palm s image_path name = (Ok true, s1) ->
  create_palm_template (inference s image_path) = Ok (Some t) ->
  (forall k v, Dict.get (t_normalized_distances t) k = Ok v -> finite v = true) ->
  PrimFloat.leb f_zero threshold = true ->
  exists r,
    PalmRecognitionSystem.recognize_palm set_order s1 image_path threshold =
      Ok (Some r) /\
    r_match r = true /\
    PrimFloat.leb (r_distance r) f_zero = true /\
    (exists k e,
       In (k, e) (palm_database s1) /\
       r_person_name r = Some (person_name e) /\
       r_signature r = Some (t_signature (tpl e))) /\
    (palm_database s = [] ->
     r_person_name r = Some (Some name) /\
     r_distance r = f_zero /\
     r_signature r = Some (t_signature t)).
Proof.
  intros H Ht Hfin Hthr.
  destruct (register_true s s1 image_path name H) as (t0 & Hm & Ht0 & _ & ->).
  rewrite Ht in Ht0. injection Ht0 as <-.
  assert (Hne : t_normalized_distances t <> []).
  { destruct (template_parts _ _ Ht)
      as (kp & cf & rd & r & _ & _ & Hk & _ & _ & _ & _ & Hnd & _).
    intros E. apply (f_equal (@List.length (string * float))) in E.
    rewrite Hnd, length_map in E.
    apply (f_equal (@List.length string)) in Hk. unfold Dict.keys in Hk.
    rewrite length_map in Hk. rewrite Hk in E. discriminate E. }
  pose proof (template_distance_self set_order set_order_perm _ Hne Hfin) as Hself.
  unfold PalmRecognitionSystem.recognize_palm, create_template.
  cbn [model inference palm_database]. rewrite Hm, Ht. cbn [tpl].
  set (db := Dict.set (palm_database s) (t_signature t)
               {| tpl := t; person_name := Some name |}).
  destruct (search_bound (t_normalized_distances t) db (None, infinity))
    as (best' & Hs & Hn' & _ & Hall & Hnone & Hsome);
    [reflexivity|reflexivity|].
  unfold Dict.items. rewrite Hs. cbn [rbind].
  destruct (in_set_same (palm_database s) (t_signature t)
              {| tpl := t; person_name := Some name |}) as [k' Hk'].
  assert (Hzero : PrimFloat.leb (snd best') f_zero = true).
  { apply (Hall k' {| tpl := t; person_name := Some name |} f_zero Hk');
      [exact Hself|reflexivity]. }
  destruct (fst best') as [bm|] eqn:Hb.
  - assert (Hle : PrimFloat.leb (snd best') threshold = true).
    { apply (leb_trans _ f_zero); auto.
      apply (leb_true_not_nan _ _ Hthr). }
    rewrite Hle. eexists. split; [reflexivity|].
    cbn [r_match r_distance r_person_name r_signature].
    split; [reflexivity|]. split; [exact Hzero|]. split.
    + destruct (Hsome bm eq_refl) as [E|[k Hk]]; [discriminate E|].
      exists k, bm. auto.
    + intros Hdb. unfold db in Hs. rewrite Hdb in Hs. cbn [Dict.set search tpl] in Hs.
      rewrite Hself in Hs. cbn [rbind snd] in Hs.
      change (PrimFloat.ltb f_zero infinity) with true in Hs. cbn iota in Hs.
      injection Hs as <-. cbn [fst] in Hb. injection Hb as <-.
      cbn [person_name tpl snd]. auto.
  - destruct (Hnone eq_refl) as [Hi _]. rewrite Hi in Hzero.
    vm_compute in Hzero. discriminate Hzero.
Qed.

End InMemorySearch.

Lemma recognize_in_empty_database_witness :
  PalmRecognitionSystem.recognize_palm (fun l => l) (example_system [])
    "palm.jpg" infinity =
  Ok (Some {| r_match := false; r_person_name := None;
              r_distance := infinity; r_threshold := infinity;
              r_signature := None |}).
Proof.
  destruct (create_palm_template
              (inference (example_system []) "palm.jpg")) as [[t|]|e] eqn:E;
    [|vm_compute in E; discriminate E|vm_compute in E; discriminate E].
  apply (proj2 (proj2 (recognize_in_empty_database (fun l => l)
                         (example_system []) "palm.jpg" infinity)) t).
  - reflexivity.
  - exact E.
  - reflexivity.
Defined.

Lemma register_then_recognize_in_memory_witness :
  exists s1 r,
    PalmRecognitionSystem.register_palm (example_system []) "palm.jpg" "Ada" =
      (Ok true, s1) /\
    PalmRecognitionSystem.recognize_palm (fun l => l) s1 "palm.jpg" 0.125%float =
      Ok (Some r) /\
    r_match r = true /\
    r_person_name r = Some (Some "Ada") /\
    r_distance r = f_zero.
Proof.
  destruct (PalmRecognitionSystem.register_palm (example_system []) "palm.jpg" "Ada")
    as [res s1] eqn:E.
  assert (Hres : res = Ok true).
  { apply (f_equal fst) in E. vm_compute in E. now symmetry. }
  subst res.
  destruct (create_palm_template
              (inference (example_system []) "palm.jpg")) as [[t|]|e] eqn:Et;
    [|vm_compute in Et; discriminate Et|vm_compute in Et; discriminate Et].
  destruct (register_then_recognize_in_memory (fun l => l)
              (fun l => Permutation_refl l)
              (example_system []) s1 "palm.jpg" "Ada" t 0.125%float E Et)
    as (r & H1 & H2 & _ & _ & H5).
  - intros k v Hv. vm_compute in Et. injection Et as <-.
    cbn [t_normalized_distances Dict.get] in Hv.
    repeat match type of Hv with
           | (if ?c then _ else _) = _ =>
               destruct c; [injection Hv as <-; reflexivity|]
           end.
    discriminate Hv.
  - reflexivity.
  - destruct (H5 eq_refl) as (H6 & H7 & _).
    exists s1, r. repeat split; assumption.
Defined.

End InMemoryDatabase.
